(** * The qudi task runner ([qudi/logic/taskrunner.py])

    A shallow embedding of [TaskRunner]: its two dictionaries, the queued
    start signal, the task and thread objects it drives, and every method of
    the class as a computation in a state, exception and trace monad.  The
    trace lists, in program order, each lock operation, collaborator call,
    log record and published signal, so that ordering properties of the
    source can be stated about it.  [ModuleTasksTableModel], the table of
    tasks kept for the views, is embedded in a module of its own, with the
    notifications it sends. *)

From Stdlib Require Import Ascii String.
From stdpp Require Import gmap strings list fin_maps.

Local Open Scope string_scope.
Local Open Scope list_scope.

Set Warnings "-register-all".

(** ** The fragment of Python the runner relies on *)

Module Py.

(** Exception classes raised in the source, plus the ones its collaborators
    and the builtins [tuple] and [dict] may raise. *)
Inductive exn_class :=
| KeyError | TypeError | ValueError | RuntimeError | ImportError | Exception.

Record exn := Exn { exn_class_of : exn_class; exn_msg : string }.

#[global] Instance exn_class_eq_dec : EqDecision exn_class.
Proof. solve_decision. Defined.

#[global] Instance exn_eq_dec : EqDecision exn.
Proof. solve_decision. Defined.

(** Hashable values, usable as dictionary keys. *)
Inductive pykey :=
| KNone
| KInt (z : Z)
| KStr (s : string)
| KTuple (ks : list pykey).

(** Values passed as [args] and [kwargs], and task results. A set is kept
    in its iteration order, a dict in its insertion order. *)
Inductive pyval :=
| PyNone
| PyInt (z : Z)
| PyStr (s : string)
| PyTuple (xs : list pyval)
| PyList (xs : list pyval)
| PySet (xs : list pyval)
| PyDict (items : list (pykey * pyval)).

Fixpoint pykey_eqb (a b : pykey) {struct a} : bool :=
  match a, b with
  | KNone, KNone => true
  | KInt x, KInt y => bool_decide (x = y)
  | KStr x, KStr y => bool_decide (x = y)
  | KTuple xs, KTuple ys =>
      (fix go (xs ys : list pykey) {struct xs} : bool :=
         match xs, ys with
         | [], [] => true
         | x :: xs', y :: ys' => pykey_eqb x y && go xs' ys'
         | _, _ => false
         end) xs ys
  | _, _ => false
  end.

Fixpoint key_value (k : pykey) : pyval :=
  match k with
  | KNone => PyNone
  | KInt z => PyInt z
  | KStr s => PyStr s
  | KTuple ks => PyTuple (map key_value ks)
  end.

(** [hash(v)] succeeds on [None], integers, strings and tuples of
    hashable values; lists, sets and dicts are unhashable. *)
Fixpoint hashable (v : pyval) : option pykey :=
  match v with
  | PyNone => Some KNone
  | PyInt z => Some (KInt z)
  | PyStr s => Some (KStr s)
  | PyTuple xs =>
      KTuple <$>
        (fix go (xs : list pyval) : option (list pykey) :=
           match xs with
           | [] => Some []
           | x :: xs' =>
               match hashable x, go xs' with
               | Some k, Some ks => Some (k :: ks)
               | _, _ => None
               end
           end) xs
  | PyList _ | PySet _ | PyDict _ => None
  end.

Fixpoint chars (s : string) : list pyval :=
  match s with
  | EmptyString => []
  | String c s' => PyStr (String c EmptyString) :: chars s'
  end.

(** [iter(v)]: the elements [v] yields, or [None] when [v] is not
    iterable.  Iterating a dict yields its keys. *)
Definition iter (v : pyval) : option (list pyval) :=
  match v with
  | PyNone | PyInt _ => None
  | PyStr s => Some (chars s)
  | PyTuple xs | PyList xs | PySet xs => Some xs
  | PyDict items => Some (map (fun kv => key_value kv.1) items)
  end.

(** [isinstance(v, Iterable)] *)
Definition is_Iterable (v : pyval) : bool :=
  match iter v with Some _ => true | None => false end.

(** [isinstance(v, Mapping)] *)
Definition is_Mapping (v : pyval) : bool :=
  match v with PyDict _ => true | _ => false end.

(** [isinstance(k, str)] for a key *)
Definition is_str (k : pykey) : bool :=
  match k with KStr _ => true | _ => false end.

(** [all(isinstance(kw, str) for kw in kwargs)] *)
Definition all_str_keys (v : pyval) : bool :=
  match v with
  | PyDict items => forallb (fun kv => is_str kv.1) items
  | _ =>
      match iter v with
      | Some xs => forallb (fun x => match x with PyStr _ => true | _ => false end) xs
      | None => false
      end
  end.

(** The abstract notions the specification uses for [run]'s arguments. *)
Definition is_ordered_sequence (v : pyval) : bool :=
  match v with PyStr _ | PyTuple _ | PyList _ => true | _ => false end.

Definition is_str_keyed_mapping (v : pyval) : bool :=
  is_Mapping v && all_str_keys v.

(** [d[k] = v] on an insertion-ordered dict *)
Fixpoint setitem (k : pykey) (v : pyval) (d : list (pykey * pyval))
  : list (pykey * pyval) :=
  match d with
  | [] => [(k, v)]
  | (k', v') :: d' =>
      if pykey_eqb k' k then (k', v) :: d' else (k', v') :: setitem k v d'
  end.

(** [tuple(v)] *)
Definition tuple (v : pyval) : exn + list pyval :=
  match iter v with
  | Some xs => inr xs
  | None => inl (Exn TypeError "object is not iterable")
  end.

(** [dict(v)]: a copy of a dict; for any other iterable, every element has
    to be an iterable of exactly two values, the first of them hashable. *)
Fixpoint dict_update (d : list (pykey * pyval)) (elems : list pyval)
  : exn + list (pykey * pyval) :=
  match elems with
  | [] => inr d
  | e :: elems' =>
      match iter e with
      | None =>
          inl (Exn TypeError
                 "cannot convert dictionary update sequence element to a sequence")
      | Some [k; v] =>
          match hashable k with
          | Some k' => dict_update (setitem k' v d) elems'
          | None => inl (Exn TypeError "unhashable type")
          end
      | Some _ =>
          inl (Exn ValueError
                 "dictionary update sequence element has wrong length; 2 is required")
      end
  end.

Definition dict (v : pyval) : exn + list (pykey * pyval) :=
  match v with
  | PyDict items => inr items
  | _ =>
      match iter v with
      | Some elems => dict_update [] elems
      | None => inl (Exn TypeError "object is not iterable")
      end
  end.

(** [s.rsplit('.', 1)]: split at the last dot; a string without a dot
    comes back whole. *)
Fixpoint rsplit_dot (s : string) : option (string * string) :=
  match s with
  | EmptyString => None
  | String c s' =>
      match rsplit_dot s' with
      | Some (pre, post) => Some (String c pre, post)
      | None =>
          if bool_decide (c = "."%char) then Some (EmptyString, s') else None
      end
  end.

Definition dq : string := String "034"%char EmptyString.

(** A name between double quotes, as the f-strings of the source print it. *)
Definition quoted (name : string) : string := dq +:+ name +:+ dq.

End Py.

Export Py.

(** ** Objects the runner drives *)

(** Task instances are referred to by their address in a store of objects:
    the runner's dictionary, the worker thread and the signal connections all
    share one instance. *)
Abbreviation ref := nat (only parsing).

(** Callables connected to signals in the source. *)
Inductive slot :=
| Slot_run_task                                   (* self._run_task *)
| Slot_task_finished_callback (name : string)     (* partial(self._task_finished_callback, name=name) *)
| Slot_task_state_changed_callback (name : string)(* partial(self._task_state_changed_callback, name=name) *)
| Slot_thread_finished_callback (name : string)   (* partial(self._thread_finished_callback, name=name) *)
| Slot_task_run (t : ref).                        (* task.run *)

Inductive signal :=
| Sig_sigStartTask
| Sig_task_sigFinished (t : ref)
| Sig_task_sigStateChanged (t : ref)
| Sig_thread_started (label : string)
| Sig_thread_finished (label : string).

(** Modelled from the spec: the Task Contract. [ModuleTask] is defined in
    [qudi.core.scripting.moduletask], not in [taskrunner.py]; a task type is
    described by what the runner can observe of it: whether it is a
    [ModuleTask] subclass, whether its constructor raises, and for which
    roles binding a resource raises. *)
Record task_class := TaskClass {
  class_name : string;
  is_ModuleTask_subclass : bool;
  init_raises : option exn;
  bind_raises : string -> option exn
}.

(** Modelled from the spec: a Task Contract instance, with the attributes the
    runner reads or writes. *)
Record task_obj := TaskObj {
  task_type : task_class;
  task_args : pyval;
  task_kwargs : pyval;
  task_connected_modules : list (string * string);  (* role, module *)
  task_thread : option string;       (* [None]: the thread that created it *)
  task_sigFinished : list slot;
  task_sigStateChanged : list slot;
  task_result : pyval;
  task_success : bool;
  task_interrupted : bool
}.

Definition new_task_obj (c : task_class) : task_obj :=
  TaskObj c (PyTuple []) (PyDict []) [] None [] [] PyNone false false.

(** Modelled from the spec: an execution context of the Execution Host
    (a [QThread] handed out by qudi's thread manager). *)
Record thread_obj := ThreadObj {
  thread_started : list slot;
  thread_finished : list slot;
  thread_running : bool;
  thread_quit_requested : bool
}.

(** Modelled from the spec: a module known to the module registry;
    [activate] is idempotent and may fail. *)
Record managed_module := ManagedModule {
  activate_raises : option exn;
  module_active : bool
}.

(** One entry of the [module_tasks] configuration option. A key that is
    absent from the entry is [None]. *)
Record task_cfg := TaskCfg {
  cfg_module_Class : option string;                  (* task_cfg['module.Class'] *)
  cfg_connect : option (list (string * string))      (* task_cfg['connect'] *)
}.

(** ** The state of a [TaskRunner] and of its collaborators *)

Record state := State {
  _module_task_configs : list (string * task_cfg);
  _running_tasks : gmap string nat;
  _configured_task_types : gmap string task_class;
  _sigStartTask : list slot;                       (* connections of the start signal *)
  posted : list (string * list pyval * list (pykey * pyval));
                                                   (* queued start requests, oldest first *)
  tasks : gmap nat task_obj;                       (* store of task instances *)
  next_ref : nat;
  thread_manager : gmap string thread_obj;         (* live threads, by name *)
  module_manager : gmap string managed_module
}.

Definition set_running_tasks (f : gmap string nat -> gmap string nat) (s : state) : state :=
  State (_module_task_configs s) (f (_running_tasks s)) (_configured_task_types s)
        (_sigStartTask s) (posted s) (tasks s) (next_ref s) (thread_manager s)
        (module_manager s).

Definition set_configured_task_types (m : gmap string task_class) (s : state) : state :=
  State (_module_task_configs s) (_running_tasks s) m
        (_sigStartTask s) (posted s) (tasks s) (next_ref s) (thread_manager s)
        (module_manager s).

Definition set_sigStartTask (l : list slot) (s : state) : state :=
  State (_module_task_configs s) (_running_tasks s) (_configured_task_types s)
        l (posted s) (tasks s) (next_ref s) (thread_manager s) (module_manager s).

Definition set_posted
  (f : list (string * list pyval * list (pykey * pyval)) ->
       list (string * list pyval * list (pykey * pyval))) (s : state) : state :=
  State (_module_task_configs s) (_running_tasks s) (_configured_task_types s)
        (_sigStartTask s) (f (posted s)) (tasks s) (next_ref s) (thread_manager s)
        (module_manager s).

Definition set_tasks (f : gmap nat task_obj -> gmap nat task_obj) (s : state) : state :=
  State (_module_task_configs s) (_running_tasks s) (_configured_task_types s)
        (_sigStartTask s) (posted s) (f (tasks s)) (next_ref s) (thread_manager s)
        (module_manager s).

Definition set_next_ref (n : nat) (s : state) : state :=
  State (_module_task_configs s) (_running_tasks s) (_configured_task_types s)
        (_sigStartTask s) (posted s) (tasks s) n (thread_manager s) (module_manager s).

Definition set_thread_manager
  (f : gmap string thread_obj -> gmap string thread_obj) (s : state) : state :=
  State (_module_task_configs s) (_running_tasks s) (_configured_task_types s)
        (_sigStartTask s) (posted s) (tasks s) (next_ref s) (f (thread_manager s))
        (module_manager s).

Definition set_module_manager
  (f : gmap string managed_module -> gmap string managed_module) (s : state) : state :=
  State (_module_task_configs s) (_running_tasks s) (_configured_task_types s)
        (_sigStartTask s) (posted s) (tasks s) (next_ref s) (thread_manager s)
        (f (module_manager s)).

(** ** Actions: what a method does, in program order *)

Inductive action :=
| Acquire                                   (* entering [with self._thread_lock] *)
| Release                                   (* leaving it *)
| Log_exception (msg : string) (e : exn)    (* self.log.exception(msg) *)
| Emit_sigStartTask (name : string) (args : list pyval) (kwargs : list (pykey * pyval))
| Emit_sigTaskStarted (name : string)
| Emit_sigTaskStateChanged (name : string) (st : string)
| Emit_sigTaskFinished (name : string) (result : pyval) (success : bool)
| New_task (cls : string) (t : ref)         (* self._configured_task_types[name]() *)
| Set_args (t : ref) (v : pyval)
| Set_kwargs (t : ref) (v : pyval)
| Get_module (module_name : string)         (* module_manager[module_name] *)
| Activate (module_name : string)           (* module.activate() *)
| Connect_modules (t : ref) (targets : list (string * string))
| Disconnect_modules (t : ref)
| Get_new_thread (label : string)
| Move_to_thread (t : ref) (label : string)
| Connect (sig : signal) (sl : slot)
| Disconnect (sig : signal)
| Thread_start (label : string)
| Quit_thread (label : string)
| Join_thread (label : string)
| Interrupt (t : ref)
| Running_store (name : string) (t : ref)   (* self._running_tasks[name] = task *)
| Running_pop (name : string) (popped : option ref).
                                            (* self._running_tasks.pop(name, None) and what it gave *)

(** What an action is about. *)
Inductive action_kind :=
| K_lock          (* the registry lock *)
| K_log           (* the diagnostic sink *)
| K_event         (* published on the Observer Channel *)
| K_post          (* a start request handed to the event loop *)
| K_task          (* the task instance: creation, arguments, thread affinity, interrupt *)
| K_connection    (* resource connection: module lookup, activation, binding *)
| K_release       (* resource disconnection *)
| K_thread        (* allocating, starting or stopping an execution context *)
| K_join          (* waiting for an execution context to exit *)
| K_signal        (* connecting or disconnecting a signal *)
| K_registry.     (* the running-task mapping *)

Definition kind (a : action) : action_kind :=
  match a with
  | Acquire | Release => K_lock
  | Log_exception _ _ => K_log
  | Emit_sigStartTask _ _ _ => K_post
  | Emit_sigTaskStarted _ | Emit_sigTaskStateChanged _ _ | Emit_sigTaskFinished _ _ _ =>
      K_event
  | New_task _ _ | Set_args _ _ | Set_kwargs _ _ | Move_to_thread _ _ | Interrupt _ => K_task
  | Get_module _ | Activate _ | Connect_modules _ _ => K_connection
  | Disconnect_modules _ => K_release
  | Get_new_thread _ | Thread_start _ | Quit_thread _ => K_thread
  | Join_thread _ => K_join
  | Connect _ _ | Disconnect _ => K_signal
  | Running_store _ _ | Running_pop _ _ => K_registry
  end.

#[global] Instance action_kind_eq_dec : EqDecision action_kind.
Proof. solve_decision. Defined.

#[global] Instance slot_eq_dec : EqDecision slot.
Proof. solve_decision. Defined.

#[global] Instance signal_eq_dec : EqDecision signal.
Proof. solve_decision. Defined.

(** ** The monad of methods *)

Inductive outcome (A : Type) :=
| Return (a : A)
| Raise (e : exn).

Arguments Return {A} a.
Arguments Raise {A} e.

Definition M (A : Type) : Type := state -> outcome A * state * list action.

Definition ret {A} (a : A) : M A := fun s => (Return a, s, []).

Definition bind {A B} (m : M A) (k : A -> M B) : M B :=
  fun s =>
    match m s with
    | (Return a, s1, tr1) =>
        match k a s1 with
        | (r, s2, tr2) => (r, s2, tr1 ++ tr2)
        end
    | (Raise e, s1, tr1) => (Raise e, s1, tr1)
    end.

Definition raise {A} (e : exn) : M A := fun s => (Raise e, s, []).

Definition tell (a : action) : M unit := fun s => (Return tt, s, [a]).

Definition gets {A} (f : state -> A) : M A := fun s => (Return (f s), s, []).

Definition modify (f : state -> state) : M unit := fun s => (Return tt, f s, []).

#[global] Instance M_ret : MRet M := @ret.
#[global] Instance M_bind : MBind M := fun A B k m => bind m k.

(** [try: m  except: h; raise] -- the handler runs on any exception of [m],
    which is then raised again (an exception of the handler replaces it). *)
Definition except_reraise {A} (m : M A) (h : exn -> M unit) : M A :=
  fun s =>
    match m s with
    | (Return a, s1, tr1) => (Return a, s1, tr1)
    | (Raise e, s1, tr1) =>
        match h e s1 with
        | (Return _, s2, tr2) => (Raise e, s2, tr1 ++ tr2)
        | (Raise e', s2, tr2) => (Raise e', s2, tr1 ++ tr2)
        end
    end.

(** [try: m  finally: f] *)
Definition finally {A} (m : M A) (f : M unit) : M A :=
  fun s =>
    match m s with
    | (r, s1, tr1) =>
        match f s1 with
        | (Return _, s2, tr2) => (r, s2, tr1 ++ tr2)
        | (Raise e', s2, tr2) => (Raise e', s2, tr1 ++ tr2)
        end
    end.

(** [with self._thread_lock: m] -- the lock is released however [m] ends. *)
Definition with_thread_lock {A} (m : M A) : M A :=
  tell Acquire;; finally m (tell Release).

Definition outcome_of {A} (r : outcome A * state * list action) : outcome A := r.1.1.
Definition state_of {A} (r : outcome A * state * list action) : state := r.1.2.
Definition trace_of {A} (r : outcome A * state * list action) : list action := r.2.

Definition lift {A} (r : exn + A) : M A :=
  match r with
  | inl e => raise e
  | inr a => ret a
  end.

(** [try: m  except C: h; raise] for one exception class [C] *)
Definition except_class_reraise {A} (c : exn_class) (m : M A) (h : exn -> M unit) : M A :=
  fun s =>
    match m s with
    | (Raise e, s1, tr1) =>
        if bool_decide (exn_class_of e = c) then
          match h e s1 with
          | (Return _, s2, tr2) => (Raise e, s2, tr1 ++ tr2)
          | (Raise e', s2, tr2) => (Raise e', s2, tr1 ++ tr2)
          end
        else (Raise e, s1, tr1)
    | r => r
    end.

(** ** Collaborators *)

Definition with_args (v : pyval) (o : task_obj) : task_obj :=
  TaskObj (task_type o) v (task_kwargs o) (task_connected_modules o) (task_thread o)
          (task_sigFinished o) (task_sigStateChanged o) (task_result o) (task_success o)
          (task_interrupted o).

Definition with_kwargs (v : pyval) (o : task_obj) : task_obj :=
  TaskObj (task_type o) (task_args o) v (task_connected_modules o) (task_thread o)
          (task_sigFinished o) (task_sigStateChanged o) (task_result o) (task_success o)
          (task_interrupted o).

Definition with_connected_modules (l : list (string * string)) (o : task_obj) : task_obj :=
  TaskObj (task_type o) (task_args o) (task_kwargs o) l (task_thread o)
          (task_sigFinished o) (task_sigStateChanged o) (task_result o) (task_success o)
          (task_interrupted o).

Definition with_thread (th : option string) (o : task_obj) : task_obj :=
  TaskObj (task_type o) (task_args o) (task_kwargs o) (task_connected_modules o) th
          (task_sigFinished o) (task_sigStateChanged o) (task_result o) (task_success o)
          (task_interrupted o).

Definition with_sigFinished (l : list slot) (o : task_obj) : task_obj :=
  TaskObj (task_type o) (task_args o) (task_kwargs o) (task_connected_modules o)
          (task_thread o) l (task_sigStateChanged o) (task_result o) (task_success o)
          (task_interrupted o).

Definition with_sigStateChanged (l : list slot) (o : task_obj) : task_obj :=
  TaskObj (task_type o) (task_args o) (task_kwargs o) (task_connected_modules o)
          (task_thread o) (task_sigFinished o) l (task_result o) (task_success o)
          (task_interrupted o).

Definition with_interrupted (b : bool) (o : task_obj) : task_obj :=
  TaskObj (task_type o) (task_args o) (task_kwargs o) (task_connected_modules o)
          (task_thread o) (task_sigFinished o) (task_sigStateChanged o) (task_result o)
          (task_success o) b.

(** What the task itself does on its worker thread: it leaves a result and
    a success flag behind. *)
Definition with_outcome (r : pyval) (ok : bool) (o : task_obj) : task_obj :=
  TaskObj (task_type o) (task_args o) (task_kwargs o) (task_connected_modules o)
          (task_thread o) (task_sigFinished o) (task_sigStateChanged o) r ok
          (task_interrupted o).

Definition update_task (t : ref) (f : task_obj -> task_obj) : M unit :=
  modify (set_tasks (alter f t)).

Definition update_thread (label : string) (f : thread_obj -> thread_obj) : M unit :=
  modify (set_thread_manager (alter f label)).

(** Modelled from the spec: calling a task type gives a fresh instance, one
    per run, unless the constructor raises. *)
Definition instantiate (c : task_class) : M ref :=
  match init_raises c with
  | Some e => raise e
  | None =>
      t ← gets next_ref;
      modify (set_tasks <[t := new_task_obj c]>);;
      modify (set_next_ref (S t));;
      tell (New_task (class_name c) t);;
      mret t
  end.

(** Modelled from the spec: [task.connect_modules(targets)] binds the
    handles role by role, in order; when a role fails, the roles bound before
    it stay bound and the error propagates. *)
Fixpoint bind_roles (c : task_class) (targets bound : list (string * string))
  : option exn * list (string * string) :=
  match targets with
  | [] => (None, bound)
  | (role, m) :: rest =>
      match bind_raises c role with
      | Some e => (Some e, bound)
      | None => bind_roles c rest (bound ++ [(role, m)])
      end
  end.

Definition connect_modules (t : ref) (targets : list (string * string)) : M unit :=
  tell (Connect_modules t targets);;
  o ← gets (fun s => tasks s !! t);
  let r := match o with
           | Some obj => bind_roles (task_type obj) targets (task_connected_modules obj)
           | None => (None, [])
           end in
  update_task t (with_connected_modules r.2);;
  match r.1 with
  | Some e => raise e
  | None => mret tt
  end.

(** Modelled from the spec: [task.disconnect_modules()] releases every bound
    role and never raises. *)
Definition disconnect_modules (t : ref) : M unit :=
  tell (Disconnect_modules t);;
  update_task t (with_connected_modules []).

(** Modelled from the spec: [task.interrupt()] records the request on the
    instance; whether the task stops is up to the task. *)
Definition interrupt (t : ref) : M unit :=
  tell (Interrupt t);;
  update_task t (with_interrupted true).

(** [signal.connect(slot)] and [signal.disconnect()] of the Qt binding: a
    signal keeps the list of its connections; [disconnect()] drops them
    all, and raises when there is none to drop. *)
Definition sig_connect (sg : signal) (sl : slot) : M unit :=
  tell (Connect sg sl);;
  match sg with
  | Sig_sigStartTask => modify (fun s => set_sigStartTask (_sigStartTask s ++ [sl]) s)
  | Sig_task_sigFinished t =>
      update_task t (fun o => with_sigFinished (task_sigFinished o ++ [sl]) o)
  | Sig_task_sigStateChanged t =>
      update_task t (fun o => with_sigStateChanged (task_sigStateChanged o ++ [sl]) o)
  | Sig_thread_started l =>
      update_thread l (fun o => ThreadObj (thread_started o ++ [sl]) (thread_finished o)
                                          (thread_running o) (thread_quit_requested o))
  | Sig_thread_finished l =>
      update_thread l (fun o => ThreadObj (thread_started o) (thread_finished o ++ [sl])
                                          (thread_running o) (thread_quit_requested o))
  end.

(** The connections a signal has. *)
Definition connections (sg : signal) (s : state) : list slot :=
  match sg with
  | Sig_sigStartTask => _sigStartTask s
  | Sig_task_sigFinished t => from_option task_sigFinished [] (tasks s !! t)
  | Sig_task_sigStateChanged t => from_option task_sigStateChanged [] (tasks s !! t)
  | Sig_thread_started l => from_option thread_started [] (thread_manager s !! l)
  | Sig_thread_finished l => from_option thread_finished [] (thread_manager s !! l)
  end.

(** The [RuntimeError] of [signal.disconnect()] on a signal that has no
    connection.  The binding's message names the signal; its text is not
    modelled. *)
Definition disconnect_error (sg : signal) : exn :=
  Exn RuntimeError "Failed to disconnect signal".

Definition sig_disconnect (sg : signal) : M unit :=
  tell (Disconnect sg);;
  conns ← gets (connections sg);
  match conns with
  | [] => raise (disconnect_error sg)
  | _ :: _ =>
      match sg with
      | Sig_sigStartTask => modify (set_sigStartTask [])
      | Sig_task_sigFinished t => update_task t (with_sigFinished [])
      | Sig_task_sigStateChanged t => update_task t (with_sigStateChanged [])
      | Sig_thread_started l =>
          update_thread l (fun o => ThreadObj [] (thread_finished o)
                                              (thread_running o) (thread_quit_requested o))
      | Sig_thread_finished l =>
          update_thread l (fun o => ThreadObj (thread_started o) []
                                              (thread_running o) (thread_quit_requested o))
      end
  end.

(** Modelled from the spec: the Execution Host. [get_new_thread] gives
    [None] while a thread of that name is still live. *)
Definition get_new_thread (label : string) : M (option string) :=
  tell (Get_new_thread label);;
  live ← gets thread_manager;
  match live !! label with
  | Some _ => mret None
  | None =>
      modify (set_thread_manager <[label := ThreadObj [] [] false false]>);;
      mret (Some label)
  end.

(** [task.moveToThread(thread)] *)
Definition moveToThread (t : ref) (label : string) : M unit :=
  tell (Move_to_thread t label);;
  update_task t (with_thread (Some label)).

(** [task.thread()] *)
Definition thread_of (t : ref) : M string :=
  o ← gets (fun s => tasks s !! t);
  mret (default "MainThread" (o ≫= task_thread)).

(** Modelled from the spec: starting an execution context, asking it to
    stop ([quit_thread]) and waiting until it has exited ([join_thread]). *)
Definition thread_start (label : string) : M unit :=
  tell (Thread_start label);;
  update_thread label (fun o => ThreadObj (thread_started o) (thread_finished o) true
                                          (thread_quit_requested o)).

Definition quit_thread (label : string) : M unit :=
  tell (Quit_thread label);;
  update_thread label (fun o => ThreadObj (thread_started o) (thread_finished o)
                                          (thread_running o) true).

Definition join_thread (label : string) : M unit :=
  tell (Join_thread label);;
  update_thread label (fun o => ThreadObj (thread_started o) (thread_finished o) false
                                          (thread_quit_requested o)).

(** Modelled from the spec: the module registry. [module_manager[name]]
    raises [KeyError] for an unknown module; [module.activate()] may fail and
    is idempotent. *)
Definition get_module (module_name : string) : M managed_module :=
  tell (Get_module module_name);;
  mm ← gets module_manager;
  match mm !! module_name with
  | Some m => mret m
  | None => raise (Exn KeyError module_name)
  end.

Definition activate (module_name : string) (m : managed_module) : M unit :=
  tell (Activate module_name);;
  match activate_raises m with
  | Some e => raise e
  | None =>
      modify (set_module_manager <[module_name := ManagedModule (activate_raises m) true]>)
  end.

(** ** The methods of [TaskRunner] *)

(** [self._module_task_configs[name]]: the configuration is a mapping, given
    here by its items in iteration order (distinct keys for a dict). *)
Fixpoint cfg_getitem (name : string) (items : list (string * task_cfg)) : exn + task_cfg :=
  match items with
  | [] => inl (Exn KeyError name)
  | (n, c) :: rest => if bool_decide (n = name) then inr c else cfg_getitem name rest
  end.

Definition getitem_opt {A} (key : string) (o : option A) : exn + A :=
  match o with
  | Some a => inr a
  | None => inl (Exn KeyError key)
  end.

(** [module, cls = s.rsplit('.', 1)] *)
Definition unpack_rsplit (s : string) : exn + string * string :=
  match rsplit_dot s with
  | Some p => inr p
  | None => inl (Exn ValueError "not enough values to unpack (expected 2, got 1)")
  end.

Section Activation.

(** [import_module_script(module, cls, reload=False)], from
    [qudi.core.scripting.modulescript]: it resolves a dotted path to what is
    found there, or raises. *)
Variable import_module_script : string -> string -> exn + task_class.

(** The body of the [for name, task_cfg in ...items()] loop of [on_activate]. *)
Fixpoint on_activate_loop (items : list (string * task_cfg)) : M unit :=
  match items with
  | [] => mret tt
  | (name, task_cfg) :: rest =>
      types ← gets _configured_task_types;
      if bool_decide (is_Some (types !! name)) then
        raise (Exn KeyError
                 ("Duplicate task name " +:+ quoted name +:+ " encountered in config"))
      else
        path ← lift (getitem_opt "module.Class" (cfg_module_Class task_cfg));
        mc ← lift (unpack_rsplit path);
        task ← lift (import_module_script mc.1 mc.2);
        if negb (is_ModuleTask_subclass task) then
          raise (Exn TypeError "Configured task is not a ModuleTask (sub)class")
        else
          modify (set_configured_task_types (<[name := task]> types));;
          on_activate_loop rest
  end.

Definition on_activate : M unit :=
  modify (set_running_tasks (fun _ => ∅));;
  modify (set_configured_task_types ∅);;
  items ← gets _module_task_configs;
  on_activate_loop items;;
  sig_connect Sig_sigStartTask Slot_run_task.

End Activation.

(** [for x in l: f(x)] *)
Fixpoint for_each {A} (f : A -> M unit) (l : list A) : M unit :=
  match l with
  | [] => mret tt
  | x :: l' => f x;; for_each f l'
  end.

(** In [on_deactivate] the loop body is the bare attribute [task.interrupt]:
    the bound method is looked up and dropped, nothing is called on the
    running tasks. *)
Definition on_deactivate : M unit :=
  sig_disconnect Sig_sigStartTask;;
  running ← gets _running_tasks;
  for_each (fun task : nat => mret tt) (map_to_list running).*2;;
  modify (set_configured_task_types ∅).

(** The [running_tasks] property, as a set of names. *)
Definition running_tasks : M (gset string) :=
  with_thread_lock (gets (fun s => dom (_running_tasks s))).

Definition configured_task_types : M (gmap string task_class) :=
  gets _configured_task_types.

(** [self._sigStartTask.emit(name, args, kwargs)]: every connection is a
    queued one, so each posts the call for later delivery. *)
Definition emit_sigStartTask (name : string) (args : list pyval)
  (kwargs : list (pykey * pyval)) : M unit :=
  tell (Emit_sigStartTask name args kwargs);;
  conns ← gets _sigStartTask;
  modify (set_posted (fun q => q ++ map (fun _ => (name, args, kwargs)) conns)).

Definition run_task (name : string) (args kwargs : pyval) : M unit :=
  with_thread_lock (
    a ← lift (tuple args);
    k ← lift (dict kwargs);
    emit_sigStartTask name a k).

Definition interrupt_task (name : string) : M unit :=
  with_thread_lock (
    task ← gets (fun s => _running_tasks s !! name);
    match task with
    | None =>
        raise (Exn RuntimeError ("No ModuleTask with name " +:+ quoted name +:+ " running"))
    | Some t => interrupt t
    end).

Definition __init_task (name : string) : M ref :=
  except_reraise (
    running ← gets _running_tasks;
    if bool_decide (is_Some (running !! name)) then
      raise (Exn RuntimeError ("ModuleTask " +:+ quoted name +:+ " is already initialized"))
    else
      types ← gets _configured_task_types;
      match types !! name with
      | None => raise (Exn KeyError name)
      | Some c => instantiate c
      end)
    (fun e => tell (Log_exception
                      ("Exception during initialization of ModuleTask " +:+ quoted name +:+ ":")
                      e)).

Definition __set_task_arguments (task : ref) (args kwargs : pyval) : M unit :=
  except_reraise (
    if negb (is_Iterable args) then
      raise (Exn TypeError "ModuleTask args must be iterable")
    else if negb (is_Mapping kwargs) || negb (all_str_keys kwargs) then
      raise (Exn TypeError "ModuleTask kwargs must be mapping with str type keys")
    else
      tell (Set_args task args);;
      update_task task (with_args args);;
      tell (Set_kwargs task kwargs);;
      update_task task (with_kwargs kwargs))
    (fun e => tell (Log_exception "Exception during setting of arguments for ModuleTask:" e)).

(** The [for conn_name, module_name in ...['connect'].items()] loop *)
Fixpoint activate_targets (conns connect_targets : list (string * string))
  : M (list (string * string)) :=
  match conns with
  | [] => mret connect_targets
  | (conn_name, module_name) :: rest =>
      module ← get_module module_name;
      activate module_name module;;
      activate_targets rest (connect_targets ++ [(conn_name, module_name)])
  end.

Definition __activate_connect_task_modules (name : string) (task : ref) : M unit :=
  except_reraise (
    cfgs ← gets _module_task_configs;
    cfg ← lift (cfg_getitem name cfgs);
    conns ← lift (getitem_opt "connect" (cfg_connect cfg));
    connect_targets ← activate_targets conns [];
    connect_modules task connect_targets)
    (fun e =>
       tell (Log_exception
               ("Exception during modules connection for ModuleTask " +:+ quoted name +:+ ":")
               e);;
       disconnect_modules task).

Definition __move_task_into_thread (name : string) (task : ref) : M unit :=
  thread ← except_class_reraise RuntimeError (
             th ← get_new_thread ("ModuleTask-" +:+ name);
             match th with
             | None =>
                 raise (Exn RuntimeError
                          ("Unable to create QThread with name "
                             +:+ quoted ("ModuleTask-" +:+ name)))
             | Some l => mret l
             end)
             (fun e => tell (Log_exception "Exception during thread creation:" e));
  moveToThread task thread;;
  sig_connect (Sig_thread_started thread) (Slot_task_run task);;
  sig_connect (Sig_thread_finished thread) (Slot_thread_finished_callback name).

Definition __connect_task_signals (name : string) (task : ref) : M unit :=
  sig_connect (Sig_task_sigFinished task) (Slot_task_finished_callback name);;
  sig_connect (Sig_task_sigStateChanged task) (Slot_task_state_changed_callback name).

Definition __start_task (name : string) (task : ref) : M unit :=
  tell (Running_store name task);;
  modify (set_running_tasks <[name := task]>);;
  th ← thread_of task;
  thread_start th.

Definition _run_task (name : string) (args kwargs : pyval) : M unit :=
  with_thread_lock (
    task ← __init_task name;
    __set_task_arguments task args kwargs;;
    __activate_connect_task_modules name task;;
    __move_task_into_thread name task;;
    __connect_task_signals name task;;
    __start_task name task;;
    tell (Emit_sigTaskStarted name)).

Definition _task_finished_callback (name : string) : M unit :=
  with_thread_lock (
    task ← gets (fun s => _running_tasks s !! name);
    match task with
    | None => mret tt
    | Some t =>
        sig_disconnect (Sig_task_sigFinished t);;
        sig_disconnect (Sig_task_sigStateChanged t);;
        disconnect_modules t;;
        th ← thread_of t;
        quit_thread th;;
        th' ← thread_of t;
        join_thread th'
    end).

Definition _thread_finished_callback (name : string) : M unit :=
  with_thread_lock (
    task ← gets (fun s => _running_tasks s !! name);
    tell (Running_pop name task);;
    modify (set_running_tasks (delete name));;
    match task with
    | None => mret tt
    | Some t =>
        o ← gets (fun s => tasks s !! t);
        tell (Emit_sigTaskFinished name (from_option task_result PyNone o)
                                   (from_option task_success false o))
    end).

Definition _task_state_changed_callback (st : string) (name : string) : M unit :=
  tell (Emit_sigTaskStateChanged name st).

(** ** Deliveries

    The runner's slots are invoked by the event loop: a posted start request
    is delivered to [_run_task], a task's notifications to the callbacks
    connected in [__connect_task_signals], a thread's termination to the one
    connected in [__move_task_into_thread]. *)

Definition deliver_start : M unit :=
  q ← gets posted;
  match q with
  | [] => mret tt
  | (name, a, k) :: q' =>
      modify (set_posted (fun _ => q'));;
      _run_task name (PyTuple a) (PyDict k)
  end.

(** The task behind [t] emits [sigStateChanged(st)]. *)
Definition task_sigStateChanged_emitted (t : ref) (st : string) : M unit :=
  o ← gets (fun s => tasks s !! t);
  for_each (fun sl => match sl with
                      | Slot_task_state_changed_callback name =>
                          _task_state_changed_callback st name
                      | _ => mret tt
                      end)
           (from_option task_sigStateChanged [] o).

(** The task behind [t] emits [sigFinished]. *)
Definition task_sigFinished_emitted (t : ref) : M unit :=
  o ← gets (fun s => tasks s !! t);
  for_each (fun sl => match sl with
                      | Slot_task_finished_callback name => _task_finished_callback name
                      | _ => mret tt
                      end)
           (from_option task_sigFinished [] o).

(** The thread [label] has exited and emits [finished]; the Execution Host
    then forgets it, which frees its name. *)
Definition thread_finished_emitted (label : string) : M unit :=
  o ← gets (fun s => thread_manager s !! label);
  for_each (fun sl => match sl with
                      | Slot_thread_finished_callback name => _thread_finished_callback name
                      | _ => mret tt
                      end)
           (from_option thread_finished [] o);;
  modify (set_thread_manager (delete label)).

(** The task's own work on its thread, as far as the runner sees it: a
    result and a success flag left on the instance. *)
Definition task_ran (t : ref) (r : pyval) (ok : bool) : M unit :=
  update_task t (with_outcome r ok).

(** A runner before [on_activate], with its configuration and the modules
    known to the module registry. *)
Definition init_state (cfgs : list (string * task_cfg))
  (mods : gmap string managed_module) : state :=
  State cfgs ∅ ∅ [] [] ∅ 0 ∅ mods.

(** ** Vocabulary of the statements *)

(** The exceptions and log records of the source, by name. *)
Definition already_initialized (name : string) : exn :=
  Exn RuntimeError ("ModuleTask " +:+ quoted name +:+ " is already initialized").

Definition not_running (name : string) : exn :=
  Exn RuntimeError ("No ModuleTask with name " +:+ quoted name +:+ " running").

Definition init_log (name : string) (e : exn) : action :=
  Log_exception ("Exception during initialization of ModuleTask " +:+ quoted name +:+ ":") e.

Definition connect_log_msg (name : string) : string :=
  "Exception during modules connection for ModuleTask " +:+ quoted name +:+ ":".

Definition connect_log (name : string) (e : exn) : action :=
  Log_exception (connect_log_msg name) e.

Definition args_error : exn := Exn TypeError "ModuleTask args must be iterable".

Definition kwargs_error : exn :=
  Exn TypeError "ModuleTask kwargs must be mapping with str type keys".

Definition args_log (e : exn) : action :=
  Log_exception "Exception during setting of arguments for ModuleTask:" e.

(** The name of the thread made for a task: [f'ModuleTask-{name}']. *)
Definition thread_label (name : string) : string := "ModuleTask-" +:+ name.

(** The task instance and the thread that a successful start leaves behind. *)
Definition started_task (c : task_class) (name : string) (args kwargs : pyval)
  (bound : list (string * string)) : task_obj :=
  TaskObj c args kwargs bound (Some (thread_label name))
          [Slot_task_finished_callback name] [Slot_task_state_changed_callback name]
          PyNone false false.

Definition started_thread (name : string) (t : ref) : thread_obj :=
  ThreadObj [Slot_task_run t] [Slot_thread_finished_callback name] true false.

(** What a start attempt does once the resources are connected. *)
Definition started_trace (name : string) (t : ref) : list action :=
  [Get_new_thread (thread_label name);
   Move_to_thread t (thread_label name);
   Connect (Sig_thread_started (thread_label name)) (Slot_task_run t);
   Connect (Sig_thread_finished (thread_label name)) (Slot_thread_finished_callback name);
   Connect (Sig_task_sigFinished t) (Slot_task_finished_callback name);
   Connect (Sig_task_sigStateChanged t) (Slot_task_state_changed_callback name);
   Running_store name t;
   Thread_start (thread_label name);
   Emit_sigTaskStarted name].

(** Kinds of action a start attempt that fails may have performed. *)
Definition failed_start_kind (k : action_kind) : bool :=
  match k with
  | K_log | K_task | K_connection | K_release | K_thread => true
  | _ => false
  end.

(** Every name that has a running entry is a configured one. *)
Definition registry_consistent (s : state) : Prop :=
  forall name, is_Some (_running_tasks s !! name) -> is_Some (_configured_task_types s !! name).

(** How one operation may change the two dictionaries: the configured types
    stay, and a name that is running afterwards was running or configured
    before. *)
Definition registry_step (s s' : state) : Prop :=
  _configured_task_types s' = _configured_task_types s /\
  forall n, is_Some (_running_tasks s' !! n) ->
            is_Some (_running_tasks s !! n) \/ is_Some (_configured_task_types s !! n).

(** What can happen to an activated runner: calls of its public methods,
    deliveries by the event loop, and the task's own progress. *)
Inductive request :=
| Call_run_task (name : string) (args kwargs : pyval)
| Call_interrupt_task (name : string)
| Deliver_start
| Task_ran (t : ref) (r : pyval) (ok : bool)
| Task_sigStateChanged (t : ref) (st : string)
| Task_sigFinished (t : ref)
| Thread_finished (label : string).

Definition exec (r : request) : M unit :=
  match r with
  | Call_run_task name args kwargs => run_task name args kwargs
  | Call_interrupt_task name => interrupt_task name
  | Deliver_start => deliver_start
  | Task_ran t r ok => task_ran t r ok
  | Task_sigStateChanged t st => task_sigStateChanged_emitted t st
  | Task_sigFinished t => task_sigFinished_emitted t
  | Thread_finished label => thread_finished_emitted label
  end.

Definition duplicate_name_error (name : string) : exn :=
  Exn KeyError ("Duplicate task name " +:+ quoted name +:+ " encountered in config").

Definition not_a_ModuleTask_error : exn :=
  Exn TypeError "Configured task is not a ModuleTask (sub)class".

(** What one configuration entry resolves to: the path is looked up, split
    at its last dot, imported, and checked against [ModuleTask]. *)
Definition resolve_task_type (import_module_script : string -> string -> exn + task_class)
  (cfg : task_cfg) : exn + task_class :=
  match getitem_opt "module.Class" (cfg_module_Class cfg) with
  | inl e => inl e
  | inr path =>
      match unpack_rsplit path with
      | inl e => inl e
      | inr mc =>
          match import_module_script mc.1 mc.2 with
          | inl e => inl e
          | inr task =>
              if is_ModuleTask_subclass task then inr task else inl not_a_ModuleTask_error
          end
      end
  end.

(** The states of an activated runner: what [on_activate] leaves when it
    succeeds, and whatever the requests make of it. *)
Inductive reachable (imp : string -> string -> exn + task_class)
  (cfgs : list (string * task_cfg)) (mods : gmap string managed_module) : state -> Prop :=
| reachable_activated s tr :
    on_activate imp (init_state cfgs mods) = (Return tt, s, tr) ->
    reachable imp cfgs mods s
| reachable_exec s r :
    reachable imp cfgs mods s ->
    reachable imp cfgs mods (state_of (exec r s)).

(** ** A worked configuration: the scenarios of the specification, a task
    [echo] bound to one module and a task [c] whose second of three modules
    fails to activate. *)

Definition Echo : task_class := TaskClass "Echo" true None (fun _ => None).

Definition Helper : task_class := TaskClass "Helper" false None (fun _ => None).

Definition demo_import (module cls : string) : exn + task_class :=
  if bool_decide (cls = "Echo") then inr Echo
  else if bool_decide (cls = "Helper") then inr Helper
  else inl (Exn ImportError cls).

Definition demo_modules : gmap string managed_module :=
  <["camera" := ManagedModule None false]>
    (<["laser" := ManagedModule (Some (Exn RuntimeError "laser interlock open")) false]>
       (<["stage" := ManagedModule None false]> ∅)).

Definition demo_configs : list (string * task_cfg) :=
  [("echo", TaskCfg (Some "tasks.echo.Echo") (Some [("cam", "camera")]));
   ("c", TaskCfg (Some "tasks.echo.Echo")
                 (Some [("first", "camera"); ("second", "laser"); ("third", "stage")]))].

Definition demo_activated : state :=
  state_of (on_activate demo_import (init_state demo_configs demo_modules)).

(** [run_task("echo", [42], {})] has been called ... *)
Definition demo_posted : state :=
  state_of (exec (Call_run_task "echo" (PyList [PyInt 42]) (PyDict [])) demo_activated).

(** ... and the event loop has delivered the request. *)
Definition demo_running : state := state_of (exec Deliver_start demo_posted).

(** The task instance after [_task_finished_callback]: signals disconnected,
    resources released. *)
Definition torn_down (obj : task_obj) : task_obj :=
  with_connected_modules [] (with_sigStateChanged [] (with_sigFinished [] obj)).

(** The task has done its work and left [42] as its result. *)
Definition demo_done : state := state_of (exec (Task_ran 0 (PyInt 42) true) demo_running).

Definition laser_error : exn := Exn RuntimeError "laser interlock open".

(** A trace that takes the lock first, releases it last, and does not touch
    it in between. *)
Definition lock_bracketed (tr : list action) : Prop :=
  exists mid, tr = Acquire :: mid ++ [Release] /\ Forall (fun a => kind a <> K_lock) mid.

(** Whether a trace joins a thread at a point where the lock is held;
    [held] says whether it is held at the start. *)
Fixpoint joins_holding_lock (held : bool) (tr : list action) : bool :=
  match tr with
  | [] => false
  | Acquire :: tr' => joins_holding_lock true tr'
  | Release :: tr' => joins_holding_lock false tr'
  | Join_thread _ :: tr' => held || joins_holding_lock held tr'
  | _ :: tr' => joins_holding_lock held tr'
  end.

(** A configuration that repeats a name, and one whose entry resolves to a
    class that is not a [ModuleTask]. *)
Definition demo_duplicate_configs : list (string * task_cfg) :=
  [("echo", TaskCfg (Some "tasks.echo.Echo") (Some []));
   ("echo", TaskCfg (Some "tasks.echo.Echo") (Some []))].

Definition demo_helper_configs : list (string * task_cfg) :=
  [("echo", TaskCfg (Some "tasks.echo.Echo") (Some []));
   ("helper", TaskCfg (Some "tasks.util.Helper") (Some []))].

Definition preserves {A} (R : state -> state -> Prop) (m : M A) : Prop :=
  forall s, R s (state_of (m s)).

(** The store of task instances only grows: an allocated instance stays. *)
Definition tasks_grow (s s' : state) : Prop :=
  forall t, is_Some (tasks s !! t) -> is_Some (tasks s' !! t).

(** Every running entry refers to an allocated task instance. *)
Definition entries_allocated (s : state) : Prop :=
  forall name t, _running_tasks s !! name = Some t -> is_Some (tasks s !! t).

(** No entry appears, and no entry changes the instance it refers to. *)
Definition running_shrinks (s s' : state) : Prop :=
  forall n t, _running_tasks s' !! n = Some t -> _running_tasks s !! n = Some t.

(** References handed out so far lie below [next_ref]. *)
Definition next_ref_fresh (s : state) : Prop :=
  forall t, is_Some (tasks s !! t) -> t < next_ref s.

(** The instance behind a running entry lives in the thread made for that
    entry's name. *)
Definition entry_threads (s : state) : Prop :=
  forall name t obj,
    _running_tasks s !! name = Some t -> tasks s !! t = Some obj ->
    task_thread obj = Some (thread_label name).

(** Once the thread of a running entry has been asked to quit, the
    resources of its task are released. *)
Definition quit_implies_released (s : state) : Prop :=
  forall name t obj th,
    _running_tasks s !! name = Some t -> tasks s !! t = Some obj ->
    thread_manager s !! thread_label name = Some th ->
    thread_quit_requested th = true ->
    task_connected_modules obj = [].

Definition runner_inv (s : state) : Prop :=
  entries_allocated s /\ next_ref_fresh s /\ entry_threads s /\ quit_implies_released s.

(** A thread that has been asked to quit and has been joined. *)
Definition stopped (o : thread_obj) : thread_obj :=
  ThreadObj (thread_started o) (thread_finished o) false true.

(** ** [ModuleTasksTableModel]

    The table model keeps two parallel lists, the task names and the task
    instances, one row each.  Its methods are given with the notifications
    they send to the views and the calls they make on the signals of the
    tasks, in program order, and with the state of those signals: a
    [connect] adds a connection, a [disconnect()] drops every connection
    of the signal and raises [RuntimeError] when there is none. *)

Module ModuleTasksTableModel.

(** The exceptions its methods end in.  The [ValueError] is that of
    [list.index] for a value that is not in the list, the [RuntimeError]
    that of [disconnect()] on a signal without a connection; the text of
    these two, which renders the value and names the signal, is not
    modelled. *)
Inductive error :=
| E_KeyError (msg : string)
| E_ValueError
| E_IndexError (msg : string)
| E_AttributeError (msg : string)
| E_RuntimeError.

(** The two lists of the model, and for every task the number of
    connections that its [sigStateChanged] and its [sigFinished] have,
    whoever made them. *)
Record model := Model {
  _names : list string;
  _tasks : list nat;
  sigStateChanged : gmap nat nat;
  sigFinished : gmap nat nat
}.

(** The model after [__init__], while no signal of a task is connected. *)
Definition init_model : model := Model [] [] ∅ ∅.

Definition connection_count (signal : gmap nat nat) (task : nat) : nat :=
  default 0 (signal !! task).

(** [signal.connect(slot)] *)
Definition signal_connect (signal : gmap nat nat) (task : nat) : gmap nat nat :=
  <[task := S (connection_count signal task)]> signal.

(** [signal.disconnect()]: [None] stands for the [RuntimeError]. *)
Definition signal_disconnect (signal : gmap nat nat) (task : nat) : option (gmap nat nat) :=
  if decide (connection_count signal task = 0) then None else Some (<[task := 0]> signal).

Inductive notification :=
| beginInsertRows (first last : nat)
| endInsertRows
| beginRemoveRows (first last : nat)
| endRemoveRows
| beginResetModel
| endResetModel
| connect_sigStateChanged (task : nat)     (* task.sigStateChanged.connect(self._state_changed_callback) *)
| connect_sigFinished (task : nat)         (* task.sigFinished.connect(self._finished_callback) *)
| disconnect_sigStateChanged (task : nat)  (* task.sigStateChanged.disconnect() *)
| disconnect_sigFinished (task : nat)      (* task.sigFinished.disconnect() *)
| dataChanged (row column : nat).          (* self.dataChanged.emit(index, index) *)

Inductive ItemDataRole := DisplayRole | EditRole | OtherRole (n : nat).

Inductive Orientation := Horizontal | Vertical.

(** A [QModelIndex], by what the model asks of it. *)
Record QModelIndex := ModelIndex {
  isValid : bool;
  row : Z;
  column : Z
}.

Definition result (A : Type) : Type := (error + A) * model * list notification.

(** [l.index(x)]: the position of the first element equal to [x]. *)
Fixpoint list_index {A} `{EqDecision A} (x : A) (l : list A) : option nat :=
  match l with
  | [] => None
  | y :: l' => if decide (y = x) then Some 0 else S <$> list_index x l'
  end.

(** [l[i]] for a Python list: a negative index counts from the end. *)
Definition getitem {A} (l : list A) (i : Z) : option A :=
  if decide (0 <= i)%Z then l !! Z.to_nat i
  else if decide (- Z.of_nat (length l) <= i)%Z then l !! Z.to_nat (Z.of_nat (length l) + i)
  else None.

Definition _headers : list string :=
  ["Task Name"; "Current State"; "Result"; "Involved Modules"].

Definition rowCount (m : model) : nat := length (_names m).

Definition columnCount (m : model) : nat := 4.

(** [data] reaches for [self._task_from_index], which neither this class nor
    [QAbstractTableModel] defines (the method below is [task_from_index]):
    the attribute lookup raises before a cell is read. *)
Definition data (index : QModelIndex) (role : ItemDataRole) (m : model)
  : error + option string :=
  match isValid index, role with
  | true, DisplayRole => inl (E_AttributeError "_task_from_index")
  | _, _ => inr None
  end.

Definition headerData (section : Z) (orientation : Orientation) (role : ItemDataRole)
  : error + option string :=
  match role, orientation with
  | DisplayRole, Horizontal =>
      match getitem _headers section with
      | Some h => inr (Some h)
      | None => inl (E_IndexError "tuple index out of range")
      end
  | _, _ => inr None
  end.

Definition add_task (name : string) (task : nat) (m : model) : result unit :=
  if decide (name ∈ _names m) then
    (inl (E_KeyError ("ModuleTask with name " +:+ quoted name +:+ " already added.")), m, [])
  else
    let row := rowCount m in
    (inr tt,
     Model (_names m ++ [name]) (_tasks m ++ [task])
           (signal_connect (sigStateChanged m) task) (signal_connect (sigFinished m) task),
     [beginInsertRows row row; connect_sigStateChanged task; connect_sigFinished task;
      endInsertRows]).

(** [del self._names[row]] has been done when [self._tasks.pop(row)] runs,
    and both rows are gone when the signals are disconnected. *)
Definition remove_task (name : string) (m : model) : result unit :=
  match list_index name (_names m) with
  | None => (inl E_ValueError, m, [])
  | Some row =>
      match _tasks m !! row with
      | None =>
          (inl (E_IndexError "pop index out of range"),
           Model (delete row (_names m)) (_tasks m) (sigStateChanged m) (sigFinished m),
           [beginRemoveRows row row])
      | Some task =>
          match signal_disconnect (sigStateChanged m) task with
          | None =>
              (inl E_RuntimeError,
               Model (delete row (_names m)) (delete row (_tasks m))
                     (sigStateChanged m) (sigFinished m),
               [beginRemoveRows row row; disconnect_sigStateChanged task])
          | Some changed =>
              match signal_disconnect (sigFinished m) task with
              | None =>
                  (inl E_RuntimeError,
                   Model (delete row (_names m)) (delete row (_tasks m))
                         changed (sigFinished m),
                   [beginRemoveRows row row; disconnect_sigStateChanged task;
                    disconnect_sigFinished task])
              | Some finished =>
                  (inr tt,
                   Model (delete row (_names m)) (delete row (_tasks m)) changed finished,
                   [beginRemoveRows row row; disconnect_sigStateChanged task;
                    disconnect_sigFinished task; endRemoveRows])
              end
          end
      end
  end.

(** The loop [for task in self._tasks] of [clear_tasks]: the signals after
    it, the calls it made, and whether it ran to its end. *)
Fixpoint disconnect_tasks (tasks : list nat) (changed finished : gmap nat nat)
  : bool * gmap nat nat * gmap nat nat * list notification :=
  match tasks with
  | [] => (true, changed, finished, [])
  | task :: rest =>
      match signal_disconnect changed task with
      | None => (false, changed, finished, [disconnect_sigStateChanged task])
      | Some changed' =>
          match signal_disconnect finished task with
          | None =>
              (false, changed', finished,
               [disconnect_sigStateChanged task; disconnect_sigFinished task])
          | Some finished' =>
              let r := disconnect_tasks rest changed' finished' in
              (r.1.1.1, r.1.1.2, r.1.2,
               disconnect_sigStateChanged task :: disconnect_sigFinished task :: r.2)
          end
      end
  end.

Definition clear_tasks (m : model) : result unit :=
  let r := disconnect_tasks (_tasks m) (sigStateChanged m) (sigFinished m) in
  if r.1.1.1 then
    (inr tt, Model [] [] r.1.1.2 r.1.2, beginResetModel :: r.2 ++ [endResetModel])
  else
    (inl E_RuntimeError, Model (_names m) (_tasks m) r.1.1.2 r.1.2, beginResetModel :: r.2).

Definition task_from_index (index : Z) (m : model) : error + string * nat :=
  match getitem (_names m) index with
  | None => inl (E_IndexError "list index out of range")
  | Some name =>
      match getitem (_tasks m) index with
      | None => inl (E_IndexError "list index out of range")
      | Some task => inr (name, task)
      end
  end.

Definition index_from_name (name : string) (m : model) : error + nat :=
  match list_index name (_names m) with
  | None => inl E_ValueError
  | Some i => inr i
  end.



(** Names and tasks are row-aligned, and no name has two rows. *)
Definition well_formed (m : model) : Prop :=
  length (_names m) = length (_tasks m) /\ NoDup (_names m).

(** The model with the two signals of [task] left without a connection. *)
Definition disconnected (task : nat) (m : model) : model :=
  Model (_names m) (_tasks m) (<[task := 0]> (sigStateChanged m))
        (<[task := 0]> (sigFinished m)).

End ModuleTasksTableModel.
(** ** Vocabulary of the further properties *)

(** The actions of one kind in a trace, in order. *)
Definition of_kind (k : action_kind) (tr : list action) : list action :=
  filter (fun a => kind a = k) tr.

(** What a trace publishes on the runner's signals. *)
Definition events (tr : list action) : list action := of_kind K_event tr.

(** What a trace writes to the log. *)
Definition logs (tr : list action) : list action := of_kind K_log tr.

(** The [RuntimeError] of [__move_task_into_thread]. *)
Definition thread_error (name : string) : exn :=
  Exn RuntimeError ("Unable to create QThread with name " +:+ quoted (thread_label name)).

Definition thread_log (e : exn) : action :=
  Log_exception "Exception during thread creation:" e.

(** The instance behind a running entry is of the type configured under the
    entry's name. *)
Definition entry_types (s : state) : Prop :=
  forall name t obj,
    _running_tasks s !! name = Some t -> tasks s !! t = Some obj ->
    _configured_task_types s !! name = Some (task_type obj).

(** The runner was activated again while [echo] was running. *)
Definition demo_reactivated : state := state_of (on_activate demo_import demo_running).

(** The task has finished and the runner has torn it down; its thread has
    been asked to quit and has not reported its termination yet. *)
Definition demo_torn_down : state := state_of (exec (Task_sigFinished 0) demo_done).

(** The configuration option is not written to. *)
Definition config_kept (s s' : state) : Prop :=
  _module_task_configs s' = _module_task_configs s.

(** Whether a string contains a dot. *)
Fixpoint has_dot (s : string) : bool :=
  match s with
  | EmptyString => false
  | String c s' => bool_decide (c = "."%char) || has_dot s'
  end.

(** The [ValueError] of unpacking a one-element list into two names. *)
Definition unpack_error : exn :=
  Exn ValueError "not enough values to unpack (expected 2, got 1)".

(** The entry of [name'], its instance and its thread are in [s'] what they
    are in [s]. *)
Definition untouched (name' : string) (s s' : state) : Prop :=
  _running_tasks s' !! name' = _running_tasks s !! name' /\
  (forall t', _running_tasks s !! name' = Some t' -> tasks s' !! t' = tasks s !! t') /\
  thread_manager s' !! thread_label name' = thread_manager s !! thread_label name'.


(** The operations of a runner: its methods and properties, and the slots
    the event loop calls. *)
Inductive operation :=
| Op_on_activate
| Op_on_deactivate
| Op_running_tasks
| Op_configured_task_types
| Op_run_task (name : string) (args kwargs : pyval)
| Op_interrupt_task (name : string)
| Op__run_task (name : string) (args kwargs : pyval)
| Op__task_finished_callback (name : string)
| Op__thread_finished_callback (name : string)
| Op__task_state_changed_callback (st : string) (name : string).

(** What an operation does to the runner; the value a property returns is
    dropped. *)
Definition perform (import_module_script : string -> string -> exn + task_class)
  (op : operation) : M unit :=
  match op with
  | Op_on_activate => on_activate import_module_script
  | Op_on_deactivate => on_deactivate
  | Op_running_tasks => running_tasks ≫= fun _ => mret tt
  | Op_configured_task_types => configured_task_types ≫= fun _ => mret tt
  | Op_run_task name args kwargs => run_task name args kwargs
  | Op_interrupt_task name => interrupt_task name
  | Op__run_task name args kwargs => _run_task name args kwargs
  | Op__task_finished_callback name => _task_finished_callback name
  | Op__thread_finished_callback name => _thread_finished_callback name
  | Op__task_state_changed_callback st name => _task_state_changed_callback st name
  end.

(** The operations whose body is a [with self._thread_lock] block. *)
Definition takes_lock (op : operation) : bool :=
  match op with
  | Op_on_activate | Op_on_deactivate | Op_configured_task_types
  | Op__task_state_changed_callback _ _ => false
  | _ => true
  end.

(** The runner was deactivated and activated again while [echo] was
    running. *)
Definition demo_deactivated : state := state_of (on_deactivate demo_running).

Definition demo_restarted : state := state_of (on_activate demo_import demo_deactivated).

(** The run of [echo] completes: the task leaves its result, emits
    [sigFinished], and its thread terminates. *)
Definition demo_forgotten_completion : M unit :=
  exec (Task_ran 0 (PyInt 42) true);;
  exec (Task_sigFinished 0);;
  exec (Thread_finished "ModuleTask-echo").

(** * Properties *)

(** Proves that all actions of an explicit trace are of the kinds asked for. *)
Ltac forall_kinds :=
  repeat (apply Forall_cons_2; [cbn; auto|]); try apply Forall_nil_2.

(** Exposes the state, outcome and trace of a computation. *)
Ltac unfold_M :=
  unfold with_thread_lock, finally, except_reraise, except_class_reraise, lift,
    update_task, update_thread, mbind, mret, M_bind, M_ret, bind, ret, raise, tell,
    gets, modify in *.

Lemma set_running_tasks_id (s : state) (f : gmap string nat -> gmap string nat) :
  f (_running_tasks s) = _running_tasks s -> set_running_tasks f s = s.
Proof. intros H. destruct s. unfold set_running_tasks. cbn in *. by rewrite H. Qed.

Lemma init_task_running st name :
  is_Some (_running_tasks st !! name) ->
  __init_task name st = (Raise (already_initialized name), st, [init_log name (already_initialized name)]).
Proof.
  intros H. unfold __init_task. unfold_M.
  rewrite bool_decide_eq_true_2 by done. reflexivity.
Qed.

Lemma init_task_unknown st name :
  _running_tasks st !! name = None ->
  _configured_task_types st !! name = None ->
  __init_task name st = (Raise (Exn KeyError name), st, [init_log name (Exn KeyError name)]).
Proof.
  intros H1 H2. unfold __init_task. unfold_M.
  rewrite bool_decide_eq_false_2 by (rewrite H1; by intros [? ?]).
  rewrite H2. reflexivity.
Qed.

Lemma interrupt_task_cases st name :
  match _running_tasks st !! name with
  | None => interrupt_task name st = (Raise (not_running name), st, [Acquire; Release])
  | Some t =>
      interrupt_task name st =
        (Return tt, set_tasks (alter (with_interrupted true) t) st,
         [Acquire; Interrupt t; Release])
  end.
Proof.
  unfold interrupt_task, interrupt. unfold_M.
  destruct (_running_tasks st !! name); reflexivity.
Qed.

Lemma state_eq (s s' : state) :
  _module_task_configs s = _module_task_configs s' ->
  _running_tasks s = _running_tasks s' ->
  _configured_task_types s = _configured_task_types s' ->
  _sigStartTask s = _sigStartTask s' ->
  posted s = posted s' ->
  tasks s = tasks s' ->
  next_ref s = next_ref s' ->
  thread_manager s = thread_manager s' ->
  module_manager s = module_manager s' ->
  s = s'.
Proof. destruct s, s'. cbn. by intros -> -> -> -> -> -> -> -> ->. Qed.

Lemma sig_disconnect_unconnected sg s :
  connections sg s = [] ->
  sig_disconnect sg s = (Raise (disconnect_error sg), s, [Disconnect sg]).
Proof. intros H. unfold sig_disconnect. unfold_M. by rewrite H. Qed.

Lemma sig_disconnect_sigStartTask s :
  _sigStartTask s <> [] ->
  sig_disconnect Sig_sigStartTask s =
    (Return tt, set_sigStartTask [] s, [Disconnect Sig_sigStartTask]).
Proof.
  intros H. unfold sig_disconnect. unfold_M. cbn [connections].
  by destruct (_sigStartTask s).
Qed.

Lemma sig_disconnect_task_sigFinished t s :
  connections (Sig_task_sigFinished t) s <> [] ->
  sig_disconnect (Sig_task_sigFinished t) s =
    (Return tt, set_tasks (alter (with_sigFinished []) t) s,
     [Disconnect (Sig_task_sigFinished t)]).
Proof.
  intros H. unfold sig_disconnect. unfold_M.
  by destruct (connections (Sig_task_sigFinished t) s).
Qed.

Lemma sig_disconnect_task_sigStateChanged t s :
  connections (Sig_task_sigStateChanged t) s <> [] ->
  sig_disconnect (Sig_task_sigStateChanged t) s =
    (Return tt, set_tasks (alter (with_sigStateChanged []) t) s,
     [Disconnect (Sig_task_sigStateChanged t)]).
Proof.
  intros H. unfold sig_disconnect. unfold_M.
  by destruct (connections (Sig_task_sigStateChanged t) s).
Qed.

(** The three ways [_task_finished_callback] ends for a name that has an
    entry: the task's [sigFinished] has no connection, its [sigStateChanged]
    has none, or the teardown runs to its end. *)
Lemma task_finished_callback_cases st name :
  match _running_tasks st !! name with
  | None => _task_finished_callback name st = (Return tt, st, [Acquire; Release])
  | Some t =>
      match connections (Sig_task_sigFinished t) st with
      | [] =>
          _task_finished_callback name st =
            (Raise (disconnect_error (Sig_task_sigFinished t)), st,
             [Acquire; Disconnect (Sig_task_sigFinished t); Release])
      | _ :: _ =>
          match connections (Sig_task_sigStateChanged t) st with
          | [] =>
              _task_finished_callback name st =
                (Raise (disconnect_error (Sig_task_sigStateChanged t)),
                 set_tasks (alter (with_sigFinished []) t) st,
                 [Acquire; Disconnect (Sig_task_sigFinished t);
                  Disconnect (Sig_task_sigStateChanged t); Release])
          | _ :: _ =>
              exists obj,
                tasks st !! t = Some obj /\
                _task_finished_callback name st =
                  (Return tt,
                   State (_module_task_configs st) (_running_tasks st)
                         (_configured_task_types st) (_sigStartTask st) (posted st)
                         (<[t := torn_down obj]> (tasks st)) (next_ref st)
                         (alter stopped (default "MainThread" (task_thread obj))
                                (thread_manager st))
                         (module_manager st),
                   [Acquire; Disconnect (Sig_task_sigFinished t);
                    Disconnect (Sig_task_sigStateChanged t); Disconnect_modules t;
                    Quit_thread (default "MainThread" (task_thread obj));
                    Join_thread (default "MainThread" (task_thread obj)); Release])
          end
      end
  end.
Proof.
  unfold _task_finished_callback. unfold_M.
  destruct (_running_tasks st !! name) as [t|] eqn:Hrun; [|reflexivity].
  destruct (connections (Sig_task_sigFinished t) st) as [|c1 l1] eqn:H1.
  { by rewrite sig_disconnect_unconnected. }
  rewrite sig_disconnect_task_sigFinished by (by rewrite H1).
  assert (connections (Sig_task_sigStateChanged t) (set_tasks (alter (with_sigFinished []) t) st)
          = connections (Sig_task_sigStateChanged t) st) as Hsame.
  { cbn. rewrite lookup_alter_eq. by destruct (tasks st !! t). }
  destruct (connections (Sig_task_sigStateChanged t) st) as [|c2 l2] eqn:H2.
  { by rewrite sig_disconnect_unconnected. }
  rewrite sig_disconnect_task_sigStateChanged by (by rewrite Hsame).
  destruct (tasks st !! t) as [obj|] eqn:Hobj; [|by cbn in H1; rewrite Hobj in H1].
  exists obj. split; [done|].
  unfold disconnect_modules, thread_of, quit_thread, join_thread.
  unfold_M. cbn. rewrite !lookup_alter_eq, Hobj. cbn.
  f_equal. f_equal. apply state_eq; cbn; try done.
  - apply map_eq. intros i. destruct (decide (i = t)) as [->|Hne].
    + by rewrite !lookup_alter_eq, lookup_insert_eq, Hobj.
    + by rewrite !lookup_alter_ne, lookup_insert_ne.
  - rewrite alter_alter_eq. by apply alter_ext.
Qed.

(** The teardown of a task whose two signals are connected. *)
Lemma task_finished_callback_teardown st name t obj :
  _running_tasks st !! name = Some t ->
  tasks st !! t = Some obj ->
  task_sigFinished obj <> [] ->
  task_sigStateChanged obj <> [] ->
  _task_finished_callback name st =
    (Return tt,
     State (_module_task_configs st) (_running_tasks st) (_configured_task_types st)
           (_sigStartTask st) (posted st)
           (<[t := torn_down obj]> (tasks st)) (next_ref st)
           (alter stopped (default "MainThread" (task_thread obj)) (thread_manager st))
           (module_manager st),
     [Acquire; Disconnect (Sig_task_sigFinished t); Disconnect (Sig_task_sigStateChanged t);
      Disconnect_modules t; Quit_thread (default "MainThread" (task_thread obj));
      Join_thread (default "MainThread" (task_thread obj)); Release]).
Proof.
  intros Hrun Hobj Hf Hs. pose proof (task_finished_callback_cases st name) as H.
  rewrite Hrun in H. cbn [connections] in H. rewrite Hobj in H. cbn [from_option] in H.
  destruct (task_sigFinished obj); [done|]. destruct (task_sigStateChanged obj); [done|].
  destruct H as (obj' & [= <-] & H). exact H.
Qed.

Lemma set_module_manager_id (s : state) :
  set_module_manager (fun _ => module_manager s) s = s.
Proof. by destruct s. Qed.

Lemma activate_targets_state conns acc s :
  exists mm', state_of (activate_targets conns acc s) = set_module_manager (fun _ => mm') s.
Proof.
  revert acc s. induction conns as [|[conn_name module_name] rest IH]; intros acc s.
  - exists (module_manager s). cbn. by rewrite set_module_manager_id.
  - cbn [activate_targets]. unfold get_module, activate. unfold_M.
    destruct (module_manager s !! module_name) as [m|] eqn:Hm.
    + destruct (activate_raises m) as [e|] eqn:He.
      * exists (module_manager s). cbn. by rewrite set_module_manager_id.
      * cbn.
        match goal with |- context [activate_targets rest ?a ?s'] =>
          destruct (IH a s') as [mm' Hmm]; destruct (activate_targets rest a s') as [[o s2] tr2] eqn:E
        end.
        exists mm'. unfold state_of in *. cbn in *. subst s2. destruct o; reflexivity.
    + exists (module_manager s). cbn. by rewrite set_module_manager_id.
Qed.

Lemma init_task_ok st name c :
  _running_tasks st !! name = None ->
  _configured_task_types st !! name = Some c ->
  init_raises c = None ->
  __init_task name st =
    (Return (next_ref st),
     set_next_ref (S (next_ref st)) (set_tasks <[next_ref st := new_task_obj c]> st),
     [New_task (class_name c) (next_ref st)]).
Proof.
  intros H1 H2 H3. unfold __init_task, instantiate. unfold_M.
  rewrite bool_decide_eq_false_2 by (rewrite H1; by intros [? ?]).
  rewrite H2, H3. reflexivity.
Qed.

Lemma init_task_ctor_raises st name c e :
  _running_tasks st !! name = None ->
  _configured_task_types st !! name = Some c ->
  init_raises c = Some e ->
  __init_task name st = (Raise e, st, [init_log name e]).
Proof.
  intros H1 H2 H3. unfold __init_task, instantiate. unfold_M.
  rewrite bool_decide_eq_false_2 by (rewrite H1; by intros [? ?]).
  rewrite H2, H3. reflexivity.
Qed.

Lemma set_task_arguments_ok t args kwargs s :
  is_Iterable args = true ->
  is_str_keyed_mapping kwargs = true ->
  __set_task_arguments t args kwargs s =
    (Return tt,
     set_tasks (alter (with_kwargs kwargs) t) (set_tasks (alter (with_args args) t) s),
     [Set_args t args; Set_kwargs t kwargs]).
Proof.
  intros H1 H2. unfold is_str_keyed_mapping in H2. apply andb_true_iff in H2 as [H2 H3].
  unfold __set_task_arguments. unfold_M. rewrite H1, H2, H3. reflexivity.
Qed.

Lemma set_task_arguments_bad_args t args kwargs s :
  is_Iterable args = false ->
  __set_task_arguments t args kwargs s = (Raise args_error, s, [args_log args_error]).
Proof.
  intros H1. unfold __set_task_arguments. unfold_M. rewrite H1. reflexivity.
Qed.

Lemma set_task_arguments_bad_kwargs t args kwargs s :
  is_Iterable args = true ->
  is_str_keyed_mapping kwargs = false ->
  __set_task_arguments t args kwargs s = (Raise kwargs_error, s, [args_log kwargs_error]).
Proof.
  intros H1 H2. unfold __set_task_arguments. unfold_M. rewrite H1. cbn.
  unfold is_str_keyed_mapping in H2.
  destruct (is_Mapping kwargs); cbn in *; [rewrite H2|]; reflexivity.
Qed.

Lemma activate_targets_trace conns acc s :
  Forall (fun a => kind a = K_connection) (trace_of (activate_targets conns acc s)).
Proof.
  revert acc s. induction conns as [|[conn_name module_name] rest IH]; intros acc s.
  - constructor.
  - cbn [activate_targets]. unfold get_module, activate. unfold_M. unfold trace_of.
    destruct (module_manager s !! module_name) as [m|]; cbn; [|by forall_kinds].
    destruct (activate_raises m); cbn; [by forall_kinds|].
    match goal with |- context [activate_targets rest ?a ?s'] =>
      specialize (IH a s'); destruct (activate_targets rest a s') as [[o s2] tr2]
    end.
    unfold trace_of in IH. cbn in *. by forall_kinds.
Qed.

Lemma activate_connect_outcome name t s :
  exists mm' l tr0,
    state_of (__activate_connect_task_modules name t s) =
      set_tasks (alter (with_connected_modules l) t) (set_module_manager (fun _ => mm') s) /\
    match outcome_of (__activate_connect_task_modules name t s) with
    | Return _ => True
    | Raise e =>
        l = [] /\
        trace_of (__activate_connect_task_modules name t s) =
          tr0 ++ [connect_log name e; Disconnect_modules t] /\
        Forall (fun a => kind a = K_connection) tr0
    end.
Proof.
  unfold __activate_connect_task_modules, connect_modules, disconnect_modules.
  unfold_M. unfold state_of, outcome_of, trace_of.
  destruct (cfg_getitem name (_module_task_configs s)) as [e|cfg]; cbn.
  { exists (module_manager s), [], []. rewrite set_module_manager_id. done. }
  destruct (getitem_opt "connect" (cfg_connect cfg)) as [e|conns]; cbn.
  { exists (module_manager s), [], []. rewrite set_module_manager_id. done. }
  destruct (activate_targets_state conns [] s) as [mm' Hmm].
  pose proof (activate_targets_trace conns [] s) as Htr.
  destruct (activate_targets conns [] s) as [[o s1] tr1]. unfold state_of, trace_of in Hmm, Htr.
  cbn in Hmm, Htr. subst s1. destruct o as [targets|e]; cbn.
  - remember (match tasks s !! t with
              | Some obj => bind_roles (task_type obj) targets (task_connected_modules obj)
              | None => (None, [])
              end) as r eqn:Hr.
    clear Hr. destruct r as [[e|] l]; cbn.
    + exists mm', [], (tr1 ++ [Connect_modules t targets]). split.
      * unfold set_tasks; cbn. f_equal. rewrite alter_alter_eq. by apply alter_ext.
      * split; [done|]. split; [by rewrite <- !app_assoc|].
        rewrite Forall_app. split; [done|]. by forall_kinds.
    + exists mm', l, []. done.
  - exists mm', [], tr1. done.
Qed.

Lemma connect_failure_shape name t s e s' tr :
  __activate_connect_task_modules name t s = (Raise e, s', tr) ->
  exists pre,
    tr = pre ++ [connect_log name e; Disconnect_modules t] /\
    Forall (fun a => kind a = K_connection) pre /\
    tasks s' = alter (with_connected_modules []) t (tasks s).
Proof.
  intros H. destruct (activate_connect_outcome name t s) as (mm' & l & tr0 & Hst & Hout).
  rewrite H in Hst, Hout. unfold state_of, outcome_of, trace_of in *. cbn in Hst, Hout.
  destruct Hout as (-> & -> & Hpre). subst s'. by exists tr0.
Qed.

Lemma activate_connect_trace name t s :
  Forall (fun a => kind a = K_connection \/ kind a = K_log \/ kind a = K_release)
         (trace_of (__activate_connect_task_modules name t s)).
Proof.
  unfold __activate_connect_task_modules, connect_modules, disconnect_modules.
  unfold_M. unfold trace_of.
  destruct (cfg_getitem name (_module_task_configs s)) as [e|cfg]; cbn.
  { forall_kinds. }
  destruct (getitem_opt "connect" (cfg_connect cfg)) as [e|conns]; cbn.
  { forall_kinds. }
  pose proof (activate_targets_trace conns [] s) as Htr.
  destruct (activate_targets conns [] s) as [[o s1] tr1]. unfold trace_of in Htr.
  cbn in Htr.
  assert (Forall (fun a => kind a = K_connection \/ kind a = K_log \/ kind a = K_release) tr1)
    as Htr' by (eapply Forall_impl; [exact Htr|]; cbn; auto).
  destruct o as [targets|e]; cbn.
  - remember (match tasks s1 !! t with
              | Some obj => bind_roles (task_type obj) targets (task_connected_modules obj)
              | None => (None, [])
              end) as r eqn:Hr.
    clear Hr. destruct r as [[e|] l]; cbn.
    + rewrite !Forall_app. split; [split; [done|]|]; forall_kinds.
    + rewrite Forall_app. split; [done|]. forall_kinds.
  - rewrite Forall_app. split; [done|]. forall_kinds.
Qed.

Lemma run_task_Return name args kwargs st st' tr :
  _run_task name args kwargs st = (Return tt, st', tr) ->
  exists c bound mm' trc,
    _running_tasks st !! name = None /\
    _configured_task_types st !! name = Some c /\
    init_raises c = None /\
    is_Iterable args = true /\
    is_str_keyed_mapping kwargs = true /\
    thread_manager st !! thread_label name = None /\
    tr = Acquire :: New_task (class_name c) (next_ref st) :: Set_args (next_ref st) args
           :: Set_kwargs (next_ref st) kwargs
           :: trc ++ started_trace name (next_ref st) ++ [Release] /\
    Forall (fun a => kind a = K_connection \/ kind a = K_log \/ kind a = K_release) trc /\
    st' = State (_module_task_configs st)
                (<[name := next_ref st]> (_running_tasks st))
                (_configured_task_types st)
                (_sigStartTask st) (posted st)
                (<[next_ref st := started_task c name args kwargs bound]> (tasks st))
                (S (next_ref st))
                (<[thread_label name := started_thread name (next_ref st)]> (thread_manager st))
                mm'.
Proof.
  intros H. unfold _run_task in H.
  unfold with_thread_lock, finally in H.
  unfold mbind, M_bind, bind in H. unfold tell at 1 in H. unfold tell at 2 in H.
  destruct (_running_tasks st !! name) as [t0|] eqn:Hrun.
  { rewrite init_task_running in H by (rewrite Hrun; eauto). discriminate. }
  destruct (_configured_task_types st !! name) as [c|] eqn:Hcfg.
  2:{ rewrite init_task_unknown in H by done. discriminate. }
  destruct (init_raises c) as [e|] eqn:Hinit.
  { rewrite (init_task_ctor_raises _ _ c e) in H by done. discriminate. }
  rewrite (init_task_ok _ _ c) in H by done.
  destruct (is_Iterable args) eqn:Hargs.
  2:{ rewrite set_task_arguments_bad_args in H by done. discriminate. }
  destruct (is_str_keyed_mapping kwargs) eqn:Hkw.
  2:{ rewrite set_task_arguments_bad_kwargs in H by done. discriminate. }
  rewrite set_task_arguments_ok in H by done.
  match type of H with context [__activate_connect_task_modules name ?t ?s] =>
    destruct (activate_connect_outcome name t s) as (mm' & bound & tr0 & Hst & _);
    pose proof (activate_connect_trace name t s) as Htr3;
    destruct (__activate_connect_task_modules name t s) as [[o3 s3] tr3]
  end.
  unfold state_of, trace_of in Hst, Htr3. cbn in Hst, Htr3. subst s3.
  destruct o3 as [[]|e]; [|discriminate].
  unfold __move_task_into_thread, get_new_thread, moveToThread in H.
  unfold __connect_task_signals, __start_task, thread_of, thread_start, sig_connect in H.
  unfold_M. cbn in H.
  fold (thread_label name) in H.
  destruct (thread_manager st !! thread_label name) eqn:Hth.
  { cbn in H. discriminate. }
  cbn in H. rewrite !alter_insert_eq, lookup_insert_eq in H. cbn in H.
  injection H as Hst Htr. subst st'.
  exists c, bound, mm', tr3. do 6 (split; [done|]).
  split; [by rewrite <- Htr, <- app_assoc|]. split; [done|].
  apply state_eq; cbn; rewrite ?alter_insert_eq; reflexivity.
Qed.

Lemma run_task_Raise name args kwargs st e st' tr :
  _run_task name args kwargs st = (Raise e, st', tr) ->
  _running_tasks st' = _running_tasks st /\
  _configured_task_types st' = _configured_task_types st /\
  thread_manager st' = thread_manager st /\
  posted st' = posted st /\
  _sigStartTask st' = _sigStartTask st /\
  exists mid,
    tr = Acquire :: mid ++ [Release] /\
    Forall (fun a => failed_start_kind (kind a) = true) mid /\
    exists msg, Log_exception msg e ∈ mid.
Proof.
  intros H. unfold _run_task in H.
  unfold with_thread_lock, finally in H.
  unfold mbind, M_bind, bind in H. unfold tell at 1 in H. unfold tell at 2 in H.
  destruct (_running_tasks st !! name) as [t0|] eqn:Hrun.
  { rewrite init_task_running in H by (rewrite Hrun; eauto). cbn in H.
    injection H as <- <- <-. repeat split; try done.
    eexists [_]. split; [done|]. split; [by repeat constructor|].
    eexists. apply list_elem_of_here. }
  destruct (_configured_task_types st !! name) as [c|] eqn:Hcfg.
  2:{ rewrite init_task_unknown in H by done. cbn in H.
      injection H as <- <- <-. repeat split; try done.
      eexists [_]. split; [done|]. split; [by repeat constructor|].
      eexists. apply list_elem_of_here. }
  destruct (init_raises c) as [e0|] eqn:Hinit.
  { rewrite (init_task_ctor_raises _ _ c e0) in H by done. cbn in H.
    injection H as <- <- <-. repeat split; try done.
    eexists [_]. split; [done|]. split; [by repeat constructor|].
    eexists. apply list_elem_of_here. }
  rewrite (init_task_ok _ _ c) in H by done.
  destruct (is_Iterable args) eqn:Hargs.
  2:{ rewrite set_task_arguments_bad_args in H by done. cbn in H.
      injection H as <- <- <-. repeat split; try done.
      eexists [_; _]. split; [done|]. split; [by repeat constructor|].
      eexists. apply list_elem_of_further, list_elem_of_here. }
  destruct (is_str_keyed_mapping kwargs) eqn:Hkw.
  2:{ rewrite set_task_arguments_bad_kwargs in H by done. cbn in H.
      injection H as <- <- <-. repeat split; try done.
      eexists [_; _]. split; [done|]. split; [by repeat constructor|].
      eexists. apply list_elem_of_further, list_elem_of_here. }
  rewrite set_task_arguments_ok in H by done.
  match type of H with context [__activate_connect_task_modules name ?t ?s] =>
    destruct (activate_connect_outcome name t s) as (mm' & bound & tr0 & Hst & Hout);
    pose proof (activate_connect_trace name t s) as Htr;
    destruct (__activate_connect_task_modules name t s) as [[o3 s3] tr3]
  end.
  unfold state_of, outcome_of, trace_of in *. cbn in Hst, Hout, Htr. subst s3.
  assert (Forall (fun a => failed_start_kind (kind a) = true) tr3) as Htr3.
  { eapply Forall_impl; [exact Htr|]. cbn. by intros a [-> | [-> | ->]]. }
  destruct o3 as [[]|e3].
  2:{ destruct Hout as (-> & Htr0 & _). cbn in H. injection H as <- <- <-.
      repeat split; try done.
      eexists (_ :: _ :: _ :: tr3). split; [done|]. split; [by repeat constructor|].
      exists (connect_log_msg name). rewrite Htr0.
      do 3 apply list_elem_of_further. apply elem_of_app. right.
      apply list_elem_of_here. }
  unfold __move_task_into_thread, get_new_thread, moveToThread in H.
  unfold __connect_task_signals, __start_task, thread_of, thread_start, sig_connect in H.
  unfold_M. cbn in H.
  destruct (thread_manager st !! ("ModuleTask-" +:+ name)) eqn:Hth.
  2:{ cbn in H. discriminate. }
  cbn in H. injection H as <- <- <-. repeat split; try done.
  eexists (_ :: _ :: _ :: tr3 ++ [_; _]). split.
  { cbn. by rewrite <- !app_assoc. }
  split.
  { repeat constructor. rewrite Forall_app. split; [done|]. by repeat constructor. }
  eexists. do 3 apply list_elem_of_further. apply elem_of_app. right.
  apply list_elem_of_further, list_elem_of_here.
Qed.

(** ** The start sequence and the running-task mapping *)

Lemma run_task_running st name args kwargs :
  is_Some (_running_tasks st !! name) ->
  _run_task name args kwargs st =
    (Raise (already_initialized name), st,
     [Acquire; init_log name (already_initialized name); Release]).
Proof.
  intros H. unfold _run_task, with_thread_lock, finally, mbind, M_bind, bind, tell.
  rewrite init_task_running by done. reflexivity.
Qed.

#[local] Instance registry_step_refl : Reflexive registry_step.
Proof. intros s. split; auto. Qed.

#[local] Instance registry_step_trans : Transitive registry_step.
Proof.
  intros s1 s2 s3 [H1 H1'] [H2 H2']. split; [congruence|].
  intros n Hn. destruct (H2' n Hn) as [H|H]; [auto|]. right. by rewrite <- H1.
Qed.

Lemma registry_step_same s s' :
  _configured_task_types s' = _configured_task_types s ->
  _running_tasks s' = _running_tasks s ->
  registry_step s s'.
Proof. intros H1 H2. split; [done|]. intros n. rewrite H2. auto. Qed.

Lemma registry_step_consistent s s' :
  registry_consistent s -> registry_step s s' -> registry_consistent s'.
Proof.
  intros Hc [H1 H2] n Hn. rewrite H1. destruct (H2 n Hn); auto.
Qed.

Lemma for_each_rel {A} (R : state -> state -> Prop) `{!Reflexive R, !Transitive R}
  (f : A -> M unit) (l : list A) :
  (forall x s, R s (state_of (f x s))) ->
  forall s, R s (state_of (for_each f l s)).
Proof.
  intros Hf. induction l as [|x l IH]; intros s; [reflexivity|].
  cbn [for_each]. unfold mbind, M_bind, bind.
  specialize (Hf x s). destruct (f x s) as [[[[]|e] s1] tr1]; unfold state_of in *; cbn in *.
  - specialize (IH s1). destruct (for_each f l s1) as [[o s2] tr2]. cbn in *.
    by etrans.
  - done.
Qed.

Lemma run_task_registry_step name args kwargs s :
  registry_step s (state_of (_run_task name args kwargs s)).
Proof.
  destruct (_run_task name args kwargs s) as [[[[]|e] s'] tr] eqn:E; unfold state_of; cbn.
  - apply run_task_Return in E as (c & bound & mm' & trc & Hr & Hc & _ & _ & _ & _ & _ & _ & ->).
    split; [done|]. cbn. intros n Hn.
    destruct (decide (n = name)) as [->|Hne].
    + right. rewrite Hc. eauto.
    + left. by rewrite lookup_insert_ne in Hn.
  - apply run_task_Raise in E as (H1 & H2 & _). by apply registry_step_same.
Qed.

Lemma task_finished_callback_registry_step name s :
  registry_step s (state_of (_task_finished_callback name s)).
Proof.
  pose proof (task_finished_callback_cases s name) as H.
  destruct (_running_tasks s !! name) as [t|]; [|by rewrite H].
  destruct (connections (Sig_task_sigFinished t) s); [by rewrite H|].
  destruct (connections (Sig_task_sigStateChanged t) s);
    [|destruct H as (obj & _ & H)]; rewrite H; by apply registry_step_same.
Qed.

Lemma thread_finished_callback_registry_step name s :
  registry_step s (state_of (_thread_finished_callback name s)).
Proof.
  unfold _thread_finished_callback. unfold_M. unfold state_of.
  destruct (_running_tasks s !! name) as [t|]; cbn.
  all: split; [done|]; cbn; intros n Hn; left;
    destruct (decide (n = name)) as [->|Hne];
    [by rewrite lookup_delete_eq in Hn; destruct Hn | by rewrite lookup_delete_ne in Hn].
Qed.

Lemma exec_registry_step r s : registry_step s (state_of (exec r s)).
Proof.
  destruct r as [name args kwargs|name| |t r ok|t st|t|label]; cbn [exec].
  - unfold run_task, emit_sigStartTask. unfold_M. unfold state_of.
    destruct (tuple args); cbn; [reflexivity|].
    destruct (dict kwargs); cbn; [reflexivity|]. by apply registry_step_same.
  - pose proof (interrupt_task_cases s name) as H.
    destruct (_running_tasks s !! name); rewrite H; unfold state_of; cbn;
      [by apply registry_step_same | reflexivity].
  - unfold deliver_start. unfold mbind, M_bind, bind, gets, modify.
    destruct (posted s) as [|[[name a] k] q]; [reflexivity|].
    pose proof (run_task_registry_step name (PyTuple a) (PyDict k)
                  (set_posted (fun _ => q) s)) as H.
    destruct (_run_task name (PyTuple a) (PyDict k) (set_posted (fun _ => q) s))
      as [[o s'] tr]. unfold state_of in *. cbn in *. exact H.
  - unfold task_ran. unfold_M. unfold state_of. cbn. by apply registry_step_same.
  - unfold task_sigStateChanged_emitted. unfold mbind, M_bind, bind, gets.
    match goal with |- context [for_each ?f ?l s] =>
      pose proof (for_each_rel registry_step f l) as H; destruct (for_each f l s) as [[o s'] tr] eqn:E
    end.
    unfold state_of in *. cbn. change s' with ((o, s', tr).1.2). rewrite <- E. apply H.
    intros [] s0; cbn; try reflexivity.
  - unfold task_sigFinished_emitted. unfold mbind, M_bind, bind, gets.
    match goal with |- context [for_each ?f ?l s] =>
      pose proof (for_each_rel registry_step f l) as H; destruct (for_each f l s) as [[o s'] tr] eqn:E
    end.
    unfold state_of in *. cbn. change s' with ((o, s', tr).1.2). rewrite <- E. apply H.
    intros [] s0; cbn; try reflexivity. apply task_finished_callback_registry_step.
  - unfold thread_finished_emitted. unfold mbind, M_bind, bind, gets, modify.
    match goal with |- context [for_each ?f ?l s] =>
      pose proof (for_each_rel registry_step f l) as H; destruct (for_each f l s) as [[o s'] tr] eqn:E
    end.
    assert (registry_step s s') as Hs.
    { change s' with ((o, s', tr).1.2). rewrite <- E. apply H.
      intros [] s0; cbn; try reflexivity. apply thread_finished_callback_registry_step. }
    unfold state_of. destruct o; cbn; [|done].
    etrans; [exact Hs|]. by apply registry_step_same.
Qed.

(** ** Building the registry *)

Lemma resolve_task_type_verified imp cfg cls :
  resolve_task_type imp cfg = inr cls -> is_ModuleTask_subclass cls = true.
Proof.
  unfold resolve_task_type. intros H.
  destruct (getitem_opt _ _); [done|]. destruct (unpack_rsplit _); [done|].
  destruct (imp _ _) as [|task]; [done|].
  destruct (is_ModuleTask_subclass task) eqn:E; [|done]. by injection H as <-.
Qed.

Lemma on_activate_loop_cons imp name cfg rest s :
  on_activate_loop imp ((name, cfg) :: rest) s =
    if bool_decide (is_Some (_configured_task_types s !! name)) then
      (Raise (duplicate_name_error name), s, [])
    else
      match resolve_task_type imp cfg with
      | inl e => (Raise e, s, [])
      | inr task =>
          on_activate_loop imp rest
            (set_configured_task_types (<[name := task]> (_configured_task_types s)) s)
      end.
Proof.
  cbn [on_activate_loop]. unfold resolve_task_type. unfold_M.
  destruct (bool_decide (is_Some (_configured_task_types s !! name))); [done|].
  destruct (getitem_opt _ _); [done|]. destruct (unpack_rsplit _); [done|].
  destruct (imp _ _) as [|task]; [done|].
  destruct (is_ModuleTask_subclass task); cbn; [|done].
  by destruct (on_activate_loop imp rest _) as [[o s2] tr2].
Qed.

Lemma on_activate_loop_Return imp items s s' tr :
  on_activate_loop imp items s = (Return tt, s', tr) ->
  NoDup items.*1 /\
  (forall n, n ∈ items.*1 -> _configured_task_types s !! n = None) /\
  tr = [] /\
  exists types',
    s' = set_configured_task_types types' s /\
    (forall n, n ∉ items.*1 -> types' !! n = _configured_task_types s !! n) /\
    (forall n cfg, (n, cfg) ∈ items ->
       exists cls, resolve_task_type imp cfg = inr cls /\ types' !! n = Some cls).
Proof.
  revert s. induction items as [|[name cfg] rest IH]; intros s H.
  - cbn in H. injection H as <- <-. split; [constructor|]. split.
    { intros n Hn. by apply elem_of_nil in Hn. }
    split; [done|]. exists (_configured_task_types s). split; [by destruct s|].
    split; [done|]. intros n cfg Hn. by apply elem_of_nil in Hn.
  - rewrite on_activate_loop_cons in H. case_bool_decide as Hdup; [done|].
    destruct (resolve_task_type imp cfg) as [e|task] eqn:Hres; [done|].
    apply IH in H as (Hnd & Hfresh & -> & types' & -> & Hother & Hall). cbn in *.
    assert (name ∉ rest.*1) as Hname.
    { intros Hin. specialize (Hfresh _ Hin). by rewrite lookup_insert_eq in Hfresh. }
    split; [by constructor|]. split.
    { intros n [->|Hn]%elem_of_cons.
      - by apply eq_None_not_Some.
      - specialize (Hfresh _ Hn). destruct (decide (name = n)) as [->|Hne]; [done|].
        by rewrite lookup_insert_ne in Hfresh. }
    split; [done|]. exists types'. split; [done|]. split.
    { intros n [Hne Hn]%not_elem_of_cons. rewrite Hother by done.
      by rewrite lookup_insert_ne. }
    intros n c [Heq|Hn]%elem_of_cons.
    + injection Heq as -> ->. exists task. split; [done|].
      rewrite Hother by done. apply lookup_insert_eq.
    + by apply Hall.
Qed.

Lemma on_activate_loop_Raise imp items s e s' tr :
  on_activate_loop imp items s = (Raise e, s', tr) ->
  (exists n, e = duplicate_name_error n /\ n ∈ items.*1 /\
             (~ NoDup items.*1 \/ is_Some (_configured_task_types s !! n))) \/
  (exists n cfg, (n, cfg) ∈ items /\ resolve_task_type imp cfg = inl e).
Proof.
  revert s. induction items as [|[name cfg] rest IH]; intros s H; [done|].
  rewrite on_activate_loop_cons in H. case_bool_decide as Hdup.
  { injection H as <- <- <-. left. exists name. split; [done|]. split; [left|by right]. }
  destruct (resolve_task_type imp cfg) as [e0|task] eqn:Hres.
  { injection H as <- <- <-. right. exists name, cfg. split; [left|done]. }
  apply IH in H as [(n & -> & Hn & Hor)|(n & c & Hn & Hc)].
  - left. exists n. split; [done|]. split; [by right|]. cbn in Hor.
    destruct Hor as [Hnd|Hsome].
    + left. intros Hnd'. apply Hnd. by apply NoDup_cons in Hnd' as [_ ?].
    + destruct (decide (name = n)) as [->|Hne].
      * left. intros Hnd'. by apply NoDup_cons in Hnd' as [? _].
      * right. by rewrite lookup_insert_ne in Hsome.
  - right. exists n, c. split; [by right|done].
Qed.

Lemma on_activate_loop_complete imp items s :
  NoDup items.*1 ->
  (forall n, n ∈ items.*1 -> _configured_task_types s !! n = None) ->
  Forall (fun nc => exists cls, resolve_task_type imp nc.2 = inr cls) items ->
  outcome_of (on_activate_loop imp items s) = Return tt.
Proof.
  revert s. induction items as [|[name cfg] rest IH]; intros s Hnd Hfresh Hall; [done|].
  rewrite on_activate_loop_cons. cbn in *.
  apply NoDup_cons in Hnd as [Hname Hnd]. apply Forall_cons in Hall as [[cls Hcls] Hall].
  rewrite bool_decide_eq_false_2.
  2:{ rewrite Hfresh by left. by intros [? ?]. }
  cbn in Hcls. rewrite Hcls. apply IH; [done| |done].
  intros n Hn. cbn. rewrite lookup_insert_ne; [apply Hfresh; by right|].
  intros ->. done.
Qed.

Lemma on_activate_unfold imp s :
  on_activate imp s =
    match on_activate_loop imp (_module_task_configs s)
            (set_configured_task_types ∅ (set_running_tasks (fun _ => ∅) s)) with
    | (Return _, s1, tr) =>
        (Return tt, set_sigStartTask (_sigStartTask s1 ++ [Slot_run_task]) s1,
         tr ++ [Connect Sig_sigStartTask Slot_run_task])
    | (Raise e, s1, tr) => (Raise e, s1, tr)
    end.
Proof.
  unfold on_activate, sig_connect. unfold_M. cbn.
  destruct (on_activate_loop imp _ _) as [[[[]|e] s1] tr]; reflexivity.
Qed.

Lemma resolve_task_type_not_subclass imp cfg path mc task :
  cfg_module_Class cfg = Some path ->
  unpack_rsplit path = inr mc ->
  imp mc.1 mc.2 = inr task ->
  is_ModuleTask_subclass task = false ->
  resolve_task_type imp cfg = inl not_a_ModuleTask_error.
Proof.
  intros H1 H2 H3 H4. unfold resolve_task_type. rewrite H1. cbn. rewrite H2, H3, H4. done.
Qed.

(** C9: registry construction fails whenever a configured name repeats or an
    entry does not resolve to a [ModuleTask] subclass -- with the [KeyError]
    of the duplicate check or the error of the resolution, which is the
    [TypeError] of the subclass check for a resolved type that is not a
    [ModuleTask] -- and when it succeeds every configured name maps to the
    verified type its entry resolves to. *)
Theorem on_activate_builds_verified_registry imp s :
  let items := _module_task_configs s in
  let r := on_activate imp s in
  (~ NoDup items.*1 -> exists e, outcome_of r = Raise e) /\
  (forall n cfg path mc task,
     (n, cfg) ∈ items -> cfg_module_Class cfg = Some path ->
     unpack_rsplit path = inr mc -> imp mc.1 mc.2 = inr task ->
     is_ModuleTask_subclass task = false ->
     exists e, outcome_of r = Raise e) /\
  (forall e, outcome_of r = Raise e ->
     (exists n, e = duplicate_name_error n /\ n ∈ items.*1 /\ ~ NoDup items.*1) \/
     (exists n cfg, (n, cfg) ∈ items /\ resolve_task_type imp cfg = inl e)) /\
  (outcome_of r = Return tt ->
     forall n cfg, (n, cfg) ∈ items ->
       exists cls, resolve_task_type imp cfg = inr cls /\
                   is_ModuleTask_subclass cls = true /\
                   _configured_task_types (state_of r) !! n = Some cls).
Proof.
  intros items r. subst r. rewrite on_activate_unfold. fold items.
  set (s0 := set_configured_task_types ∅ (set_running_tasks (fun _ => ∅) s)).
  destruct (on_activate_loop imp items s0) as [[[[]|e] s1] tr] eqn:E;
    unfold outcome_of, state_of; cbn.
  - apply on_activate_loop_Return in E as (Hnd & _ & -> & types' & -> & _ & Hall).
    split; [done|]. split.
    { intros n cfg path mc task Hin H1 H2 H3 H4. destruct (Hall n cfg Hin) as (cls & Hcls & _).
      rewrite (resolve_task_type_not_subclass imp cfg path mc task) in Hcls; done. }
    split; [done|]. intros _ n cfg Hin. destruct (Hall n cfg Hin) as (cls & Hcls & Hty).
    exists cls. split; [done|]. split; [by eapply resolve_task_type_verified|done].
  - split; [eauto|]. split; [eauto|]. split; [|done].
    intros e' [= <-]. apply on_activate_loop_Raise in E as [(n & -> & Hn & Hor)|H]; [|by right].
    left. exists n. split; [done|]. split; [done|]. destruct Hor as [?|Hsome]; [done|].
    cbn in Hsome. rewrite lookup_empty in Hsome. by destruct Hsome.
Qed.

Lemma on_activate_Return imp s s' tr :
  on_activate imp s = (Return tt, s', tr) ->
  _running_tasks s' = ∅ /\ _sigStartTask s' = _sigStartTask s ++ [Slot_run_task] /\
  posted s' = posted s.
Proof.
  rewrite on_activate_unfold.
  destruct (on_activate_loop imp _ _) as [[[[]|e] s1] tr1] eqn:E; [|done].
  apply on_activate_loop_Return in E as (_ & _ & -> & types' & -> & _).
  by intros [= <- <-].
Qed.

Lemma reachable_registry_consistent imp cfgs mods s :
  reachable imp cfgs mods s -> registry_consistent s.
Proof.
  induction 1 as [s tr H|s r _ IH].
  - apply on_activate_Return in H as [H _]. intros n. rewrite H, lookup_empty.
    by intros [? ?].
  - eapply registry_step_consistent; [exact IH|apply exec_registry_step].
Qed.

Lemma demo_running_reachable :
  reachable demo_import demo_configs demo_modules demo_running.
Proof.
  do 2 apply reachable_exec. eapply reachable_activated. vm_compute. reflexivity.
Qed.

(** ** What every operation preserves, compositionally *)

Section Preserves.

Context (R : state -> state -> Prop) `{!PreOrder R}.

Lemma preserves_ret {A} (a : A) : preserves R (mret a).
Proof. intros s. reflexivity. Qed.

Lemma preserves_raise {A} (e : exn) : preserves R (@raise A e).
Proof. intros s. reflexivity. Qed.

Lemma preserves_tell (a : action) : preserves R (tell a).
Proof. intros s. reflexivity. Qed.

Lemma preserves_gets {A} (f : state -> A) : preserves R (gets f).
Proof. intros s. reflexivity. Qed.

Lemma preserves_lift {A} (r : exn + A) : preserves R (lift r).
Proof. intros s. destruct r; reflexivity. Qed.

Lemma preserves_modify (f : state -> state) :
  (forall s, R s (f s)) -> preserves R (modify f).
Proof. intros Hf s. apply Hf. Qed.

Lemma preserves_bind {A B} (m : M A) (k : A -> M B) :
  preserves R m -> (forall a, preserves R (k a)) -> preserves R (m ≫= k).
Proof.
  intros Hm Hk s. unfold mbind, M_bind, bind. specialize (Hm s).
  destruct (m s) as [[[a|e] s1] tr1]; unfold state_of in *; cbn in *; [|done].
  specialize (Hk a s1). destruct (k a s1) as [[r s2] tr2]. cbn in *. by etrans.
Qed.

Lemma preserves_except_reraise {A} (m : M A) (h : exn -> M unit) :
  preserves R m -> (forall e, preserves R (h e)) -> preserves R (except_reraise m h).
Proof.
  intros Hm Hh s. unfold except_reraise. specialize (Hm s).
  destruct (m s) as [[[a|e] s1] tr1]; unfold state_of in *; cbn in *; [done|].
  specialize (Hh e s1). destruct (h e s1) as [[[[]|e'] s2] tr2]; cbn in *; by etrans.
Qed.

Lemma preserves_except_class_reraise {A} c (m : M A) (h : exn -> M unit) :
  preserves R m -> (forall e, preserves R (h e)) -> preserves R (except_class_reraise c m h).
Proof.
  intros Hm Hh s. unfold except_class_reraise. specialize (Hm s).
  destruct (m s) as [[[a|e] s1] tr1]; unfold state_of in *; cbn in *; [done|].
  case_bool_decide; [|done].
  specialize (Hh e s1). destruct (h e s1) as [[[[]|e'] s2] tr2]; cbn in *; by etrans.
Qed.

Lemma preserves_finally {A} (m : M A) (f : M unit) :
  preserves R m -> preserves R f -> preserves R (finally m f).
Proof.
  intros Hm Hf s. unfold finally. specialize (Hm s).
  destruct (m s) as [[r s1] tr1]; unfold state_of in *; cbn in *.
  specialize (Hf s1). destruct (f s1) as [[[[]|e'] s2] tr2]; cbn in *; by etrans.
Qed.

Lemma preserves_with_thread_lock {A} (m : M A) :
  preserves R m -> preserves R (with_thread_lock m).
Proof.
  intros Hm. unfold with_thread_lock. apply preserves_bind; [apply preserves_tell|].
  intros _. apply preserves_finally; [done|apply preserves_tell].
Qed.

Lemma preserves_for_each {A} (f : A -> M unit) (l : list A) :
  (forall x, preserves R (f x)) -> preserves R (for_each f l).
Proof.
  intros Hf. induction l as [|x l IH]; [apply preserves_ret|].
  cbn [for_each]. apply preserves_bind; [apply Hf|done].
Qed.

End Preserves.

#[local] Instance tasks_grow_preorder : PreOrder tasks_grow.
Proof. split; [by intros s t|]. intros s1 s2 s3 H1 H2 t Ht. by apply H2, H1. Qed.

Lemma tasks_grow_same s s' : tasks s' = tasks s -> tasks_grow s s'.
Proof. intros H t. by rewrite H. Qed.

Lemma tasks_grow_alter f t s : tasks_grow s (set_tasks (alter f t) s).
Proof.
  intros t' Ht. cbn. destruct (decide (t = t')) as [->|Hne].
  - rewrite lookup_alter_eq. destruct Ht as [o ->]. by eexists.
  - by rewrite lookup_alter_ne.
Qed.

Lemma tasks_grow_insert o t s : tasks_grow s (set_tasks <[t := o]> s).
Proof. intros t' Ht. cbn. apply lookup_insert_is_Some'. by right. Qed.

Ltac preserves_step :=
  lazymatch goal with
  | |- forall _, _ => intros ?
  | |- PreOrder _ => apply _
  | |- preserves _ (mbind _ _) => apply preserves_bind
  | |- preserves _ (with_thread_lock _) => apply preserves_with_thread_lock
  | |- preserves _ (finally _ _) => apply preserves_finally
  | |- preserves _ (except_reraise _ _) => apply preserves_except_reraise
  | |- preserves _ (except_class_reraise _ _ _) => apply preserves_except_class_reraise
  | |- preserves _ (for_each _ _) => apply preserves_for_each
  | |- preserves _ (mret _) => apply preserves_ret
  | |- preserves _ (raise _) => apply preserves_raise
  | |- preserves _ (tell _) => apply preserves_tell
  | |- preserves _ (gets _) => apply preserves_gets
  | |- preserves _ (lift _) => apply preserves_lift
  | |- preserves tasks_grow (modify _) =>
      apply preserves_modify; intros ?;
      first [ apply tasks_grow_alter | apply tasks_grow_insert | by apply tasks_grow_same ]
  | |- preserves _ (match ?x with _ => _ end) => destruct x
  | |- preserves _ (let _ := _ in _) => cbv zeta
  end.

Ltac preserves_tac := repeat preserves_step.

Lemma sig_connect_tasks_grow sg sl : preserves tasks_grow (sig_connect sg sl).
Proof. unfold sig_connect, update_task, update_thread. preserves_tac. Qed.

Lemma sig_disconnect_tasks_grow sg : preserves tasks_grow (sig_disconnect sg).
Proof. unfold sig_disconnect, update_task, update_thread. preserves_tac. Qed.

Lemma activate_targets_tasks_grow conns acc : preserves tasks_grow (activate_targets conns acc).
Proof.
  revert acc. induction conns as [|[conn_name module_name] rest IH]; intros acc;
    cbn [activate_targets]; [by preserves_tac|].
  unfold get_module, activate. preserves_tac. apply IH.
Qed.

Lemma run_task_tasks_grow name args kwargs : preserves tasks_grow (_run_task name args kwargs).
Proof.
  unfold _run_task, __init_task, instantiate, __set_task_arguments,
    __activate_connect_task_modules, connect_modules, disconnect_modules,
    __move_task_into_thread, get_new_thread, moveToThread, __connect_task_signals,
    __start_task, thread_of, thread_start, update_task, update_thread.
  preserves_tac;
    try apply sig_connect_tasks_grow; try apply activate_targets_tasks_grow.
Qed.

Lemma task_finished_callback_tasks_grow name :
  preserves tasks_grow (_task_finished_callback name).
Proof.
  unfold _task_finished_callback, disconnect_modules, thread_of, quit_thread, join_thread,
    update_task, update_thread.
  preserves_tac; apply sig_disconnect_tasks_grow.
Qed.

Lemma thread_finished_callback_tasks_grow name :
  preserves tasks_grow (_thread_finished_callback name).
Proof. unfold _thread_finished_callback. preserves_tac. Qed.

Lemma exec_tasks_grow r : preserves tasks_grow (exec r).
Proof.
  destruct r; cbn [exec].
  - unfold run_task, emit_sigStartTask. preserves_tac.
  - unfold interrupt_task, interrupt, update_task. preserves_tac.
  - unfold deliver_start. preserves_tac. apply run_task_tasks_grow.
  - unfold task_ran, update_task. preserves_tac.
  - unfold task_sigStateChanged_emitted, _task_state_changed_callback. preserves_tac.
  - unfold task_sigFinished_emitted. preserves_tac. apply task_finished_callback_tasks_grow.
  - unfold thread_finished_emitted. preserves_tac. apply thread_finished_callback_tasks_grow.
Qed.

#[local] Instance running_shrinks_preorder : PreOrder running_shrinks.
Proof. split; [by intros s n t|]. intros s1 s2 s3 H1 H2 n t Ht. by apply H1, H2. Qed.

Lemma running_shrinks_same s s' :
  _running_tasks s' = _running_tasks s -> running_shrinks s s'.
Proof. intros H n t. by rewrite H. Qed.

Lemma running_shrinks_delete name s : running_shrinks s (set_running_tasks (delete name) s).
Proof. intros n t. cbn. rewrite lookup_delete_Some. by intros [_ ?]. Qed.

Ltac shrinks_step :=
  lazymatch goal with
  | |- preserves running_shrinks (modify _) =>
      apply preserves_modify; intros ?;
      first [ apply running_shrinks_delete | by apply running_shrinks_same ]
  | _ => preserves_step
  end.

Lemma task_finished_callback_running_shrinks name :
  preserves running_shrinks (_task_finished_callback name).
Proof.
  unfold _task_finished_callback, disconnect_modules, thread_of, quit_thread, join_thread,
    sig_disconnect, update_task, update_thread.
  repeat shrinks_step.
Qed.

Lemma thread_finished_callback_running_shrinks name :
  preserves running_shrinks (_thread_finished_callback name).
Proof. unfold _thread_finished_callback. repeat shrinks_step. Qed.

Lemma exec_entries r s n t :
  _running_tasks (state_of (exec r s)) !! n = Some t ->
  _running_tasks s !! n = Some t \/ is_Some (tasks (state_of (exec r s)) !! t).
Proof.
  destruct r as [name args kwargs|name| |t' r ok|t' st|t'|label]; cbn [exec].
  - intros H. left. revert n t H. change (running_shrinks s (state_of (run_task name args kwargs s))).
    revert s. change (preserves running_shrinks (run_task name args kwargs)).
    unfold run_task, emit_sigStartTask. repeat shrinks_step.
  - intros H. left. revert n t H. change (running_shrinks s (state_of (interrupt_task name s))).
    revert s. change (preserves running_shrinks (interrupt_task name)).
    unfold interrupt_task, interrupt, update_task. repeat shrinks_step.
  - unfold deliver_start. unfold mbind, M_bind, bind, gets, modify.
    destruct (posted s) as [|[[name a] k] q]; [by left|].
    destruct (_run_task name (PyTuple a) (PyDict k) (set_posted (fun _ => q) s))
      as [[[[]|e] s'] tr] eqn:E; unfold state_of; cbn.
    + apply run_task_Return in E
        as (c & bound & mm' & trc & _ & _ & _ & _ & _ & _ & _ & _ & ->). cbn.
      destruct (decide (n = name)) as [->|Hne].
      * rewrite lookup_insert_eq. intros [= <-]. right. rewrite lookup_insert_eq. eauto.
      * rewrite lookup_insert_ne by done. by left.
    + apply run_task_Raise in E as (H1 & _). rewrite H1. by left.
  - by left.
  - intros H. left. revert n t H.
    change (running_shrinks s (state_of (task_sigStateChanged_emitted t' st s))).
    revert s. change (preserves running_shrinks (task_sigStateChanged_emitted t' st)).
    unfold task_sigStateChanged_emitted, _task_state_changed_callback. repeat shrinks_step.
  - intros H. left. revert n t H.
    change (running_shrinks s (state_of (task_sigFinished_emitted t' s))).
    revert s. change (preserves running_shrinks (task_sigFinished_emitted t')).
    unfold task_sigFinished_emitted. repeat shrinks_step.
    apply task_finished_callback_running_shrinks.
  - intros H. left. revert n t H.
    change (running_shrinks s (state_of (thread_finished_emitted label s))).
    revert s. change (preserves running_shrinks (thread_finished_emitted label)).
    unfold thread_finished_emitted. repeat shrinks_step.
    apply thread_finished_callback_running_shrinks.
Qed.

Lemma reachable_entries_allocated imp cfgs mods s :
  reachable imp cfgs mods s -> entries_allocated s.
Proof.
  induction 1 as [s tr H|s r _ IH].
  - apply on_activate_Return in H as [H _]. intros n t. by rewrite H, lookup_empty.
  - intros n t Hn. apply exec_entries in Hn as [Hn|Hn]; [|done].
    by eapply exec_tasks_grow, IH.
Qed.


Lemma task_finished_callback_live st name t obj :
  _running_tasks st !! name = Some t ->
  tasks st !! t = Some obj ->
  task_sigFinished obj <> [] ->
  task_sigStateChanged obj <> [] ->
  let th := default "MainThread" (task_thread obj) in
  exists st1,
    _task_finished_callback name st =
      (Return tt, st1,
       [Acquire; Disconnect (Sig_task_sigFinished t); Disconnect (Sig_task_sigStateChanged t);
        Disconnect_modules t; Quit_thread th; Join_thread th; Release]) /\
    _running_tasks st1 = _running_tasks st /\
    _configured_task_types st1 = _configured_task_types st /\
    tasks st1 = <[t := torn_down obj]> (tasks st).
Proof.
  intros Hrun Hobj Hf Hs th.
  rewrite (task_finished_callback_teardown st name t obj Hrun Hobj Hf Hs).
  eexists. split; [reflexivity|]. done.
Qed.

Lemma thread_finished_callback_live st name t obj :
  _running_tasks st !! name = Some t ->
  tasks st !! t = Some obj ->
  _thread_finished_callback name st =
    (Return tt, set_running_tasks (delete name) st,
     [Acquire; Running_pop name (Some t);
      Emit_sigTaskFinished name (task_result obj) (task_success obj); Release]).
Proof.
  intros Hrun Hobj. unfold _thread_finished_callback. unfold_M. rewrite Hrun. cbn.
  rewrite Hobj. reflexivity.
Qed.

Lemma thread_finished_callback_stale st name :
  _running_tasks st !! name = None ->
  _thread_finished_callback name st =
    (Return tt, st, [Acquire; Running_pop name None; Release]).
Proof.
  intros H. unfold _thread_finished_callback. unfold_M. rewrite H. cbn.
  rewrite set_running_tasks_id; [reflexivity | by apply delete_id].
Qed.

Lemma init_task_Return name st t st1 tr1 :
  __init_task name st = (Return t, st1, tr1) ->
  exists c,
    _running_tasks st !! name = None /\
    _configured_task_types st !! name = Some c /\
    init_raises c = None /\
    t = next_ref st /\
    st1 = set_next_ref (S (next_ref st)) (set_tasks <[next_ref st := new_task_obj c]> st) /\
    tr1 = [New_task (class_name c) (next_ref st)].
Proof.
  intros H.
  destruct (_running_tasks st !! name) as [t0|] eqn:Hrun.
  { rewrite init_task_running in H by (rewrite Hrun; eauto). discriminate. }
  destruct (_configured_task_types st !! name) as [c|] eqn:Hcfg.
  2:{ rewrite init_task_unknown in H by done. discriminate. }
  destruct (init_raises c) as [e|] eqn:Hinit.
  { rewrite (init_task_ctor_raises _ _ c e) in H by done. discriminate. }
  rewrite (init_task_ok _ _ c) in H by done. injection H as <- <- <-.
  by exists c.
Qed.

Lemma set_task_arguments_Return t args kwargs s s' tr :
  __set_task_arguments t args kwargs s = (Return tt, s', tr) ->
  is_Iterable args = true /\ is_str_keyed_mapping kwargs = true /\
  s' = set_tasks (alter (with_kwargs kwargs) t) (set_tasks (alter (with_args args) t) s) /\
  tr = [Set_args t args; Set_kwargs t kwargs].
Proof.
  intros H.
  destruct (is_Iterable args) eqn:Hargs.
  2:{ rewrite set_task_arguments_bad_args in H by done. discriminate. }
  destruct (is_str_keyed_mapping kwargs) eqn:Hkw.
  2:{ rewrite set_task_arguments_bad_kwargs in H by done. discriminate. }
  rewrite set_task_arguments_ok in H by done. by injection H as <- <-.
Qed.

Lemma run_task_returns name args kwargs σ :
  is_Iterable args = true ->
  is_str_keyed_mapping kwargs = true ->
  exists a k,
    tuple args = inr a /\ dict kwargs = inr k /\
    run_task name args kwargs σ =
      (Return tt, set_posted (fun q => q ++ map (fun _ => (name, a, k)) (_sigStartTask σ)) σ,
       [Acquire; Emit_sigStartTask name a k; Release]).
Proof.
  intros Hargs Hkw. unfold is_Iterable in Hargs.
  unfold is_str_keyed_mapping in Hkw. apply andb_true_iff in Hkw as [Hm _].
  destruct kwargs; try done. unfold run_task, emit_sigStartTask, tuple. unfold_M.
  destruct (iter args) as [a|]; [|done]. cbn. eauto.
Qed.

Lemma run_task_cases name args kwargs st :
  match tuple args with
  | inl e => run_task name args kwargs st = (Raise e, st, [Acquire; Release])
  | inr a =>
      match dict kwargs with
      | inl e => run_task name args kwargs st = (Raise e, st, [Acquire; Release])
      | inr k =>
          run_task name args kwargs st =
            (Return tt,
             set_posted (fun q => q ++ map (fun _ => (name, a, k)) (_sigStartTask st)) st,
             [Acquire; Emit_sigStartTask name a k; Release])
      end
  end.
Proof.
  unfold run_task, emit_sigStartTask. unfold_M.
  destruct (tuple args) as [e|a]; [done|]. cbn. by destruct (dict kwargs) as [e|k].
Qed.

Lemma run_task_bad_arguments name args kwargs σ :
  is_Iterable args = false \/ is_str_keyed_mapping kwargs = false ->
  exists e σ' mid,
    _run_task name args kwargs σ = (Raise e, σ', Acquire :: mid ++ [Release]) /\
    _running_tasks σ' = _running_tasks σ /\
    Forall (fun a => kind a = K_log \/ kind a = K_task) mid /\
    (exists msg, Log_exception msg e ∈ mid) /\
    (forall c, _running_tasks σ !! name = None ->
               _configured_task_types σ !! name = Some c -> init_raises c = None ->
               e = if is_Iterable args then kwargs_error else args_error).
Proof.
  intros Hbad. unfold _run_task.
  unfold with_thread_lock, finally, mbind, M_bind, bind. unfold tell at 1. unfold tell at 2.
  destruct (_running_tasks σ !! name) as [t0|] eqn:Hrun.
  { rewrite init_task_running by (rewrite Hrun; eauto). cbn.
    eexists _, _, [_]. split; [done|]. split; [done|]. split; [by forall_kinds|].
    split; [eexists; apply list_elem_of_here|done]. }
  destruct (_configured_task_types σ !! name) as [c|] eqn:Hcfg.
  2:{ rewrite init_task_unknown by done. cbn.
      eexists _, _, [_]. split; [done|]. split; [done|]. split; [by forall_kinds|].
      split; [eexists; apply list_elem_of_here|done]. }
  destruct (init_raises c) as [e0|] eqn:Hinit.
  { rewrite (init_task_ctor_raises _ _ c e0) by done. cbn.
    eexists _, _, [_]. split; [done|]. split; [done|]. split; [by forall_kinds|].
    split; [eexists; apply list_elem_of_here|]. by intros c' _ [= <-]; rewrite Hinit. }
  rewrite (init_task_ok _ _ c) by done.
  destruct (is_Iterable args) eqn:Hargs.
  - destruct Hbad as [?|Hkw]; [done|].
    rewrite set_task_arguments_bad_kwargs by done. cbn.
    eexists _, _, [_; _]. split; [done|]. split; [done|]. split; [by forall_kinds|].
    split; [eexists; apply list_elem_of_further, list_elem_of_here|done].
  - rewrite set_task_arguments_bad_args by done. cbn.
    eexists _, _, [_; _]. split; [done|]. split; [done|]. split; [by forall_kinds|].
    split; [eexists; apply list_elem_of_further, list_elem_of_here|done].
Qed.

Lemma run_task_never_joins name args kwargs σ :
  Forall (fun a => kind a <> K_join) (trace_of (_run_task name args kwargs σ)).
Proof.
  destruct (_run_task name args kwargs σ) as [[[[]|e] σ'] tr] eqn:E; unfold trace_of; cbn.
  - apply run_task_Return in E as (c & bound & mm' & trc & _ & _ & _ & _ & _ & _ & -> & Htrc & _).
    repeat (apply Forall_cons_2; [done|]). rewrite Forall_app. split.
    + eapply Forall_impl; [exact Htrc|]. cbn. by intros a [-> | [-> | ->]].
    + unfold started_trace. cbn. by repeat (apply Forall_cons_2; [done|]).
  - apply run_task_Raise in E as (_ & _ & _ & _ & _ & mid & -> & Hmid & _).
    apply Forall_cons_2; [done|]. rewrite Forall_app. split.
    + eapply Forall_impl; [exact Hmid|]. cbn. intros a Ha Hk. by rewrite Hk in Ha.
    + by repeat (apply Forall_cons_2; [done|]).
Qed.

Lemma task_finished_callback_lock_bracketed σ name :
  lock_bracketed (trace_of (_task_finished_callback name σ)).
Proof.
  pose proof (task_finished_callback_cases σ name) as H.
  destruct (_running_tasks σ !! name) as [t|].
  2:{ rewrite H. exists []. by split. }
  destruct (connections (Sig_task_sigFinished t) σ).
  { rewrite H. eexists [_]. split; [done|]. by forall_kinds. }
  destruct (connections (Sig_task_sigStateChanged t) σ).
  { rewrite H. eexists [_; _]. split; [done|]. by forall_kinds. }
  destruct H as (obj & _ & ->). eexists [_; _; _; _; _]. split; [done|]. by forall_kinds.
Qed.

Lemma run_task_lock_bracketed name args kwargs σ :
  lock_bracketed (trace_of (_run_task name args kwargs σ)).
Proof.
  destruct (_run_task name args kwargs σ) as [[[[]|e] σ'] tr] eqn:E; unfold trace_of; cbn.
  - apply run_task_Return in E as (c & bound & mm' & trc & _ & _ & _ & _ & _ & _ & -> & Htrc & _).
    exists (New_task (class_name c) (next_ref σ) :: Set_args (next_ref σ) args
              :: Set_kwargs (next_ref σ) kwargs :: trc ++ started_trace name (next_ref σ)).
    split; [by rewrite <- !app_comm_cons, <- app_assoc|].
    repeat (apply Forall_cons_2; [done|]). rewrite Forall_app. split.
    + eapply Forall_impl; [exact Htrc|]. cbn. by intros a [-> | [-> | ->]].
    + unfold started_trace. by repeat (apply Forall_cons_2; [done|]).
  - apply run_task_Raise in E as (_ & _ & _ & _ & _ & mid & -> & Hmid & _).
    exists mid. split; [done|].
    eapply Forall_impl; [exact Hmid|]. cbn. intros a Ha Hk. by rewrite Hk in Ha.
Qed.

(** ** Well-formed states of an activated runner *)

Lemma thread_label_inj n n' : thread_label n = thread_label n' -> n = n'.
Proof. unfold thread_label. cbn. by intros [= ]. Qed.

Lemma task_finished_callback_state st name t obj :
  _running_tasks st !! name = Some t ->
  tasks st !! t = Some obj ->
  task_sigFinished obj <> [] ->
  task_sigStateChanged obj <> [] ->
  state_of (_task_finished_callback name st) =
    State (_module_task_configs st) (_running_tasks st) (_configured_task_types st)
          (_sigStartTask st) (posted st)
          (<[t := torn_down obj]> (tasks st)) (next_ref st)
          (alter stopped (default "MainThread" (task_thread obj)) (thread_manager st))
          (module_manager st).
Proof.
  intros Hrun Hobj Hf Hs.
  by rewrite (task_finished_callback_teardown st name t obj Hrun Hobj Hf Hs).
Qed.

Lemma run_task_Raise_store name args kwargs st e st' tr :
  _run_task name args kwargs st = (Raise e, st', tr) ->
  (forall r, r <> next_ref st -> tasks st' !! r = tasks st !! r) /\
  (next_ref st' = S (next_ref st) \/ (next_ref st' = next_ref st /\ tasks st' = tasks st)).
Proof.
  intros H. unfold _run_task in H.
  unfold with_thread_lock, finally in H.
  unfold mbind, M_bind, bind in H. unfold tell at 1 in H. unfold tell at 2 in H.
  destruct (_running_tasks st !! name) as [t0|] eqn:Hrun.
  { rewrite init_task_running in H by (rewrite Hrun; eauto). cbn in H.
    injection H as <- <- <-. split; [done|by right]. }
  destruct (_configured_task_types st !! name) as [c|] eqn:Hcfg.
  2:{ rewrite init_task_unknown in H by done. cbn in H. injection H as <- <- <-.
      split; [done|by right]. }
  destruct (init_raises c) as [e0|] eqn:Hinit.
  { rewrite (init_task_ctor_raises _ _ c e0) in H by done. cbn in H.
    injection H as <- <- <-. split; [done|by right]. }
  rewrite (init_task_ok _ _ c) in H by done.
  destruct (is_Iterable args) eqn:Hargs.
  2:{ rewrite set_task_arguments_bad_args in H by done. cbn in H.
      injection H as <- <- <-. cbn. split; [|by left].
      intros r Hr. by rewrite lookup_insert_ne. }
  destruct (is_str_keyed_mapping kwargs) eqn:Hkw.
  2:{ rewrite set_task_arguments_bad_kwargs in H by done. cbn in H.
      injection H as <- <- <-. cbn. split; [|by left].
      intros r Hr. by rewrite lookup_insert_ne. }
  rewrite set_task_arguments_ok in H by done.
  match type of H with context [__activate_connect_task_modules name ?t ?s] =>
    destruct (activate_connect_outcome name t s) as (mm' & bound & tr0 & Hst & _);
    destruct (__activate_connect_task_modules name t s) as [[o3 s3] tr3]
  end.
  unfold state_of in Hst. cbn in Hst. subst s3.
  destruct o3 as [[]|e3].
  2:{ cbn in H. injection H as <- <- <-. cbn. split; [|by left].
      intros r Hr. by rewrite !lookup_alter_ne, lookup_insert_ne. }
  unfold __move_task_into_thread, get_new_thread, moveToThread in H.
  unfold __connect_task_signals, __start_task, thread_of, thread_start, sig_connect in H.
  unfold_M. cbn in H.
  destruct (thread_manager st !! ("ModuleTask-" +:+ name)) as [th0|] eqn:Hth.
  2:{ cbn in H. discriminate. }
  cbn in H. injection H as <- <- <-. cbn. split; [|by left].
  intros r Hr. by rewrite !lookup_alter_ne, lookup_insert_ne.
Qed.

Lemma run_task_runner_inv name args kwargs s :
  runner_inv s -> runner_inv (state_of (_run_task name args kwargs s)).
Proof.
  intros (Halloc & Hfresh & Hthr & Hquit).
  destruct (_run_task name args kwargs s) as [[[[]|e] s'] tr] eqn:E; unfold state_of; cbn.
  - apply run_task_Return in E
      as (c & bound & mm' & trc & Hrun & _ & _ & _ & _ & Hth & _ & _ & ->).
    assert (forall n t, n <> name -> _running_tasks s !! n = Some t -> t <> next_ref s) as Hold.
    { intros n t _ Hn ->. apply Halloc in Hn. apply Hfresh in Hn. lia. }
    repeat split.
    + intros n t. cbn. destruct (decide (n = name)) as [->|Hne].
      * rewrite lookup_insert_eq. intros [= <-]. rewrite lookup_insert_eq. eauto.
      * rewrite lookup_insert_ne by done. intros Hn.
        rewrite lookup_insert_ne by (intros <-; by eapply Hold). by eapply Halloc.
    + intros t. cbn. destruct (decide (t = next_ref s)) as [->|Hne]; [lia|].
      rewrite lookup_insert_ne by done. intros Ht. apply Hfresh in Ht. lia.
    + intros n t obj. cbn. destruct (decide (n = name)) as [->|Hne].
      * rewrite lookup_insert_eq. intros [= <-]. rewrite lookup_insert_eq. by intros [= <-].
      * rewrite lookup_insert_ne by done. intros Hn.
        rewrite lookup_insert_ne by (intros <-; by eapply Hold). by eapply Hthr.
    + intros n t obj th. cbn. destruct (decide (n = name)) as [->|Hne].
      * rewrite !lookup_insert_eq. by intros _ _ [= <-].
      * rewrite lookup_insert_ne by done. intros Hn.
        rewrite lookup_insert_ne by (intros <-; by eapply Hold).
        rewrite lookup_insert_ne by (by intros ?%thread_label_inj). by eapply Hquit.
  - pose proof (run_task_Raise_store _ _ _ _ _ _ _ E) as [Hsame Hnext].
    apply run_task_Raise in E as (Hrun & _ & Hth & _).
    assert (forall n t, _running_tasks s !! n = Some t -> tasks s' !! t = tasks s !! t) as Hold.
    { intros n t Hn. apply Hsame. intros ->. apply Halloc in Hn. apply Hfresh in Hn. lia. }
    repeat split.
    + intros n t. rewrite Hrun. intros Hn. rewrite (Hold _ _ Hn). by eapply Halloc.
    + intros t Ht. destruct Hnext as [Hn|[Hn Htasks]].
      * rewrite Hn. destruct (decide (t = next_ref s)) as [->|Hne]; [lia|].
        rewrite Hsame in Ht by done. apply Hfresh in Ht. lia.
      * rewrite Hn. rewrite Htasks in Ht. by apply Hfresh.
    + intros n t obj. rewrite Hrun. intros Hn. rewrite (Hold _ _ Hn). by eapply Hthr.
    + intros n t obj th. rewrite Hrun, Hth. intros Hn. rewrite (Hold _ _ Hn). by eapply Hquit.
Qed.

Lemma for_each_inv {A} (P : state -> Prop) (f : A -> M unit) (l : list A) :
  (forall x s, P s -> P (state_of (f x s))) ->
  forall s, P s -> P (state_of (for_each f l s)).
Proof.
  intros Hf. induction l as [|x l IH]; intros s Hs; [done|].
  cbn [for_each]. unfold mbind, M_bind, bind.
  specialize (Hf x s Hs). destruct (f x s) as [[[[]|e] s1] tr1]; unfold state_of in *;
    cbn in *; [|done].
  specialize (IH s1 Hf). by destruct (for_each f l s1) as [[o s2] tr2].
Qed.

Lemma runner_inv_alter f t s :
  (forall o, task_thread (f o) = task_thread o) ->
  (forall o, task_connected_modules (f o) = task_connected_modules o) ->
  runner_inv s -> runner_inv (set_tasks (alter f t) s).
Proof.
  intros Hft Hfc (Halloc & Hfresh & Hthr & Hquit). repeat split.
  - intros n r Hn. cbn in *. apply lookup_alter_is_Some. by eapply Halloc.
  - intros r Hr. cbn in *. apply lookup_alter_is_Some in Hr. by apply Hfresh.
  - intros n r obj Hn Hobj. cbn in *. destruct (decide (t = r)) as [->|Hne].
    + rewrite lookup_alter_eq in Hobj. destruct (tasks s !! r) as [o|] eqn:Ho; [|done].
      injection Hobj as <-. rewrite Hft. by eapply Hthr.
    + rewrite lookup_alter_ne in Hobj by done. by eapply Hthr.
  - intros n r obj th Hn Hobj Hth Hq. cbn in *. destruct (decide (t = r)) as [->|Hne].
    + rewrite lookup_alter_eq in Hobj. destruct (tasks s !! r) as [o|] eqn:Ho; [|done].
      injection Hobj as <-. rewrite Hfc. by eapply Hquit.
    + rewrite lookup_alter_ne in Hobj by done. by eapply Hquit.
Qed.

Lemma task_finished_callback_runner_inv name s :
  runner_inv s -> runner_inv (state_of (_task_finished_callback name s)).
Proof.
  intros Hinv. pose proof (task_finished_callback_cases s name) as H.
  destruct (_running_tasks s !! name) as [t|] eqn:Hrun; [|by rewrite H].
  destruct (connections (Sig_task_sigFinished t) s); [by rewrite H|].
  destruct (connections (Sig_task_sigStateChanged t) s).
  { rewrite H. by apply runner_inv_alter. }
  destruct H as (obj & Hobj & ->). unfold state_of. cbn [fst snd].
  destruct Hinv as (Halloc & Hfresh & Hthr & Hquit).
  rewrite (Hthr _ _ _ Hrun Hobj). cbn [default].
  repeat split.
  - intros n r Hn. cbn in *. apply lookup_insert_is_Some'. right. by eapply Halloc.
  - intros r Hr. cbn in *. apply lookup_insert_is_Some' in Hr as [<-|Hr].
    + apply Hfresh. by rewrite Hobj.
    + by apply Hfresh.
  - intros n r o Hn Ho. cbn in *. destruct (decide (t = r)) as [->|Hne].
    + rewrite lookup_insert_eq in Ho. injection Ho as <-. cbn. by eapply Hthr.
    + rewrite lookup_insert_ne in Ho by done. by eapply Hthr.
  - intros n r o th Hn Ho Hth Hq. cbn in *. destruct (decide (t = r)) as [->|Hne].
    + rewrite lookup_insert_eq in Ho. by injection Ho as <-.
    + rewrite lookup_insert_ne in Ho by done.
      assert (n <> name) as Hname by (intros ->; congruence).
      rewrite lookup_alter_ne in Hth by (by intros ?%thread_label_inj).
      by eapply Hquit.
Qed.

Lemma thread_finished_callback_runner_inv name s :
  runner_inv s -> runner_inv (state_of (_thread_finished_callback name s)).
Proof.
  intros (Halloc & Hfresh & Hthr & Hquit).
  assert (state_of (_thread_finished_callback name s) = set_running_tasks (delete name) s)
    as ->.
  { unfold _thread_finished_callback. unfold_M. unfold state_of.
    by destruct (_running_tasks s !! name). }
  repeat split.
  - intros n r Hn. cbn in *. apply lookup_delete_Some in Hn as [_ Hn]. by eapply Halloc.
  - done.
  - intros n r o Hn Ho. cbn in *. apply lookup_delete_Some in Hn as [_ Hn]. by eapply Hthr.
  - intros n r o th Hn Ho Hth Hq. cbn in *. apply lookup_delete_Some in Hn as [_ Hn].
    by eapply Hquit.
Qed.

Lemma exec_runner_inv r s : runner_inv s -> runner_inv (state_of (exec r s)).
Proof.
  intros Hinv. destruct r as [name args kwargs|name| |t r ok|t st|t|label]; cbn [exec].
  - pose proof (run_task_cases name args kwargs s) as H.
    destruct (tuple args); [|destruct (dict kwargs)]; rewrite H; done.
  - pose proof (interrupt_task_cases s name) as H.
    destruct (_running_tasks s !! name); rewrite H; [|done].
    by apply runner_inv_alter.
  - unfold deliver_start. unfold mbind, M_bind, bind, gets, modify.
    destruct (posted s) as [|[[name a] k] q]; [done|].
    pose proof (run_task_runner_inv name (PyTuple a) (PyDict k)
                  (set_posted (fun _ => q) s) Hinv) as H.
    by destruct (_run_task name (PyTuple a) (PyDict k) (set_posted (fun _ => q) s))
      as [[o s'] tr].
  - by apply runner_inv_alter.
  - unfold task_sigStateChanged_emitted. unfold mbind, M_bind, bind, gets.
    match goal with |- context [for_each ?f ?l s] =>
      pose proof (for_each_inv runner_inv f l) as H;
      destruct (for_each f l s) as [[o s'] tr] eqn:E
    end.
    unfold state_of in *. cbn. change s' with ((o, s', tr).1.2). rewrite <- E.
    apply H; [|done]. by intros [].
  - unfold task_sigFinished_emitted. unfold mbind, M_bind, bind, gets.
    match goal with |- context [for_each ?f ?l s] =>
      pose proof (for_each_inv runner_inv f l) as H;
      destruct (for_each f l s) as [[o s'] tr] eqn:E
    end.
    unfold state_of in *. cbn. change s' with ((o, s', tr).1.2). rewrite <- E.
    apply H; [|done]. intros [] s0 Hs0; try done.
    by apply task_finished_callback_runner_inv.
  - unfold thread_finished_emitted. unfold mbind, M_bind, bind, gets, modify.
    match goal with |- context [for_each ?f ?l s] =>
      pose proof (for_each_inv runner_inv f l) as H;
      destruct (for_each f l s) as [[o s'] tr] eqn:E
    end.
    assert (runner_inv s') as (Halloc & Hfresh & Hthr & Hquit).
    { change s' with ((o, s', tr).1.2). rewrite <- E. apply H; [|done].
      intros [] s0 Hs0; try done. by apply thread_finished_callback_runner_inv. }
    unfold state_of. destruct o; cbn; [|done].
    repeat split; try done.
    intros n r o th Hn Ho Hth Hq. cbn in *. apply lookup_delete_Some in Hth as [_ Hth].
    by eapply Hquit.
Qed.

Lemma reachable_runner_inv imp cfgs mods s :
  reachable imp cfgs mods s -> runner_inv s.
Proof.
  induction 1 as [s tr H|s r _ IH]; [|by apply exec_runner_inv].
  rewrite on_activate_unfold in H.
  destruct (on_activate_loop imp _ _) as [[[[]|e] s1] tr1] eqn:E; [|done].
  apply on_activate_loop_Return in E as (_ & _ & -> & types' & -> & _).
  injection H as <- <-. repeat split.
  - intros n t. cbn. by rewrite lookup_empty.
  - intros t. cbn. rewrite lookup_empty. by intros [? ?].
  - intros n t obj. cbn. by rewrite lookup_empty.
  - intros n t obj th. cbn. by rewrite lookup_empty.
Qed.

(** X12: on an activated runner, when the thread of a running entry has
    been asked to quit, its termination callback publishes the finished
    event of a task whose resources are released already, and removes the
    entry first. *)
Theorem finished_published_after_release imp cfgs mods s name t th :
  reachable imp cfgs mods s ->
  _running_tasks s !! name = Some t ->
  thread_manager s !! thread_label name = Some th ->
  thread_quit_requested th = true ->
  exists obj,
    tasks s !! t = Some obj /\
    task_connected_modules obj = [] /\
    _thread_finished_callback name s =
      (Return tt, set_running_tasks (delete name) s,
       [Acquire; Running_pop name (Some t);
        Emit_sigTaskFinished name (task_result obj) (task_success obj); Release]).
Proof.
  intros Hreach Hrun Hth Hq.
  destruct (reachable_runner_inv _ _ _ _ Hreach) as (Halloc & _ & _ & Hquit).
  destruct (Halloc _ _ Hrun) as [obj Hobj]. exists obj.
  split; [done|]. split; [by eapply Hquit|]. by apply thread_finished_callback_live.
Qed.

(** ** Traces by kind, and the signals of running entries *)

Lemma of_kind_nil k tr : Forall (fun a => kind a <> k) tr -> of_kind k tr = [].
Proof.
  unfold of_kind. induction 1 as [|a tr Ha _ IH]; [done|].
  rewrite filter_cons_False by done. exact IH.
Qed.

Lemma of_kind_app k tr1 tr2 : of_kind k (tr1 ++ tr2) = of_kind k tr1 ++ of_kind k tr2.
Proof. apply filter_app. Qed.

Lemma of_kind_other k k' tr :
  k <> k' -> Forall (fun a => kind a = k') tr -> of_kind k tr = [].
Proof.
  intros Hk H. apply of_kind_nil. eapply Forall_impl; [exact H|].
  cbn. intros a -> ?. by apply Hk.
Qed.

Lemma not_elem_of_kind a k tr :
  kind a <> k -> Forall (fun x => kind x = k) tr -> a ∉ tr.
Proof. intros Ha H Hin. rewrite Forall_forall in H. by apply Ha, H. Qed.


(** The loop of [on_activate] writes the table of task types and nothing
    else, and leaves no trace, however it ends. *)
Lemma on_activate_loop_frame imp items s :
  exists types',
    state_of (on_activate_loop imp items s) = set_configured_task_types types' s /\
    trace_of (on_activate_loop imp items s) = [].
Proof.
  revert s. induction items as [|[name cfg] rest IH]; intros s.
  - exists (_configured_task_types s). split; [|done]. by destruct s.
  - rewrite on_activate_loop_cons. case_bool_decide.
    { exists (_configured_task_types s). split; [|done]. by destruct s. }
    destruct (resolve_task_type imp cfg) as [e|task].
    { exists (_configured_task_types s). split; [|done]. by destruct s. }
    destruct (IH (set_configured_task_types (<[name := task]> (_configured_task_types s)) s))
      as (types' & -> & ->).
    exists types'. done.
Qed.

Lemma on_activate_frame imp s :
  _running_tasks (state_of (on_activate imp s)) = ∅ /\
  tasks (state_of (on_activate imp s)) = tasks s /\
  thread_manager (state_of (on_activate imp s)) = thread_manager s /\
  (trace_of (on_activate imp s) = [] \/
   trace_of (on_activate imp s) = [Connect Sig_sigStartTask Slot_run_task]).
Proof.
  rewrite on_activate_unfold.
  match goal with |- context [on_activate_loop imp ?items ?s0] =>
    destruct (on_activate_loop_frame imp items s0) as (types' & Hst & Htr);
    destruct (on_activate_loop imp items s0) as [[[[]|e] s1] tr1]
  end; unfold state_of, trace_of in *; cbn [fst snd] in *; subst s1 tr1; cbn; auto.
Qed.

Lemma on_deactivate_cases st :
  match _sigStartTask st with
  | [] =>
      on_deactivate st =
        (Raise (disconnect_error Sig_sigStartTask), st, [Disconnect Sig_sigStartTask])
  | _ :: _ =>
      on_deactivate st =
        (Return tt, set_configured_task_types ∅ (set_sigStartTask [] st),
         [Disconnect Sig_sigStartTask])
  end.
Proof.
  unfold on_deactivate. unfold mbind, M_bind, bind.
  destruct (_sigStartTask st) as [|c l] eqn:H.
  - by rewrite sig_disconnect_unconnected.
  - rewrite sig_disconnect_sigStartTask by (by rewrite H). unfold_M.
    match goal with |- context [for_each ?f ?l ?s] =>
      assert (for_each f l s = (Return tt, s, [])) as ->
    end; [|reflexivity].
    generalize (map_to_list (_running_tasks (set_sigStartTask [] st))).*2.
    intros l0. induction l0 as [|x l0 IH]; [done|]. cbn [for_each]. unfold_M. by rewrite IH.
Qed.

Lemma thread_finished_callback_cases st name :
  _thread_finished_callback name st =
    (Return tt, set_running_tasks (delete name) st,
     match _running_tasks st !! name with
     | Some t =>
         [Acquire; Running_pop name (Some t);
          Emit_sigTaskFinished name (from_option task_result PyNone (tasks st !! t))
                                    (from_option task_success false (tasks st !! t));
          Release]
     | None => [Acquire; Running_pop name None; Release]
     end).
Proof.
  unfold _thread_finished_callback. unfold_M.
  by destruct (_running_tasks st !! name).
Qed.








(** The lock and the joins of each operation. *)
Lemma perform_lock_discipline imp op st :
  (if takes_lock op then lock_bracketed (trace_of (perform imp op st))
   else of_kind K_lock (trace_of (perform imp op st)) = []) /\
  (of_kind K_join (trace_of (perform imp op st)) <> [] ->
   (exists name, op = Op__task_finished_callback name) /\
   joins_holding_lock false (trace_of (perform imp op st)) = true).
Proof.
  destruct op as [| | | |name args kwargs|name|name args kwargs|name|name|s name];
    cbn [perform takes_lock].
  - destruct (on_activate_frame imp st) as (_ & _ & _ & [-> | ->]); by split.
  - pose proof (on_deactivate_cases st) as H.
    destruct (_sigStartTask st); rewrite H; by split.
  - split; [|done]. exists []. by split.
  - by split.
  - pose proof (run_task_cases name args kwargs st) as H.
    destruct (tuple args); [|destruct (dict kwargs)]; rewrite H; (split; [|done]).
    + exists []. by split.
    + exists []. by split.
    + eexists [_]. split; [done|]. by forall_kinds.
  - pose proof (interrupt_task_cases st name) as H.
    destruct (_running_tasks st !! name); rewrite H; (split; [|done]).
    + eexists [_]. split; [done|]. by forall_kinds.
    + exists []. by split.
  - split; [apply run_task_lock_bracketed|].
    intros H. exfalso. apply H. apply of_kind_nil. apply run_task_never_joins.
  - split; [apply task_finished_callback_lock_bracketed|].
    intros Hj. split; [by exists name|].
    pose proof (task_finished_callback_cases st name) as H.
    destruct (_running_tasks st !! name) as [t|]; [|by rewrite H in Hj].
    destruct (connections (Sig_task_sigFinished t) st); [by rewrite H in Hj|].
    destruct (connections (Sig_task_sigStateChanged t) st); [by rewrite H in Hj|].
    destruct H as (obj & _ & ->). reflexivity.
  - rewrite thread_finished_callback_cases.
    destruct (_running_tasks st !! name); (split; [|done]).
    + eexists [_; _]. split; [done|]. by forall_kinds.
    + eexists [_]. split; [done|]. by forall_kinds.
  - by split.
Qed.

(** ** The claims *)

(** C1: a name has at most one running entry.  A start request for a name
    that has an entry raises the [RuntimeError] of the already-running check
    and leaves the whole state as it was; so when a start of [name] has
    succeeded, a second one is rejected, whatever its arguments. *)
Theorem at_most_one_run_per_name st name args kwargs :
  (is_Some (_running_tasks st !! name) ->
   _run_task name args kwargs st =
     (Raise (already_initialized name), st,
      [Acquire; init_log name (already_initialized name); Release])) /\
  (forall st' tr args' kwargs',
     _run_task name args kwargs st = (Return tt, st', tr) ->
     _running_tasks st' !! name = Some (next_ref st) /\
     _run_task name args' kwargs' st' =
       (Raise (already_initialized name), st',
        [Acquire; init_log name (already_initialized name); Release])).
Proof.
  split; [apply run_task_running|].
  intros st' tr args' kwargs' H.
  apply run_task_Return in H as (c & bound & mm' & trc & _ & _ & _ & _ & _ & _ & _ & _ & ->).
  assert (_running_tasks
            (State (_module_task_configs st) (<[name:=next_ref st]> (_running_tasks st))
               (_configured_task_types st) (_sigStartTask st) (posted st)
               (<[next_ref st:=started_task c name args kwargs bound]> (tasks st))
               (S (next_ref st))
               (<[thread_label name:=started_thread name (next_ref st)]> (thread_manager st))
               mm') !! name = Some (next_ref st)) as Hin by apply lookup_insert_eq.
  split; [done|]. apply run_task_running. rewrite Hin. eauto.
Qed.

Lemma at_most_one_run_per_name_witness :
  is_Some (_running_tasks demo_running !! "echo") /\
  _run_task "echo" (PyTuple []) (PyDict []) demo_running =
    (Raise (already_initialized "echo"), demo_running,
     [Acquire; init_log "echo" (already_initialized "echo"); Release]).
Proof.
  assert (is_Some (_running_tasks demo_running !! "echo")) as H.
  { exists 0. vm_compute. reflexivity. }
  split; [exact H|].
  exact (proj1 (at_most_one_run_per_name demo_running "echo" (PyTuple []) (PyDict [])) H).
Defined.

(** C6: a start request for a name that is not in the configured types is
    rejected by [__init_task]: the exception is logged and raised again, the
    state is unchanged, so no entry is created, and beside the lock and the
    log record nothing is done, so no event is published.  On an activated
    runner, where every running name is a configured one, the exception is
    the [KeyError] of the registry lookup. *)
Theorem unknown_task_rejected st name args kwargs :
  _configured_task_types st !! name = None ->
  exists e,
    _run_task name args kwargs st = (Raise e, st, [Acquire; init_log name e; Release]) /\
    (registry_consistent st -> e = Exn KeyError name) /\
    (_running_tasks st !! name = None -> e = Exn KeyError name) /\
    _running_tasks (state_of (_run_task name args kwargs st)) = _running_tasks st /\
    Forall (fun a => kind a <> K_event) (trace_of (_run_task name args kwargs st)).
Proof.
  intros Hcfg. destruct (_running_tasks st !! name) as [t|] eqn:Hrun.
  - exists (already_initialized name).
    rewrite run_task_running by (rewrite Hrun; eauto).
    split; [done|]. split.
    { intros Hc. assert (is_Some (_configured_task_types st !! name)) as [c Hc']
        by (apply Hc; rewrite Hrun; eauto). congruence. }
    split; [done|]. split; [done|]. unfold trace_of. cbn.
    by repeat (apply Forall_cons_2; [done|]).
  - exists (Exn KeyError name).
    assert (_run_task name args kwargs st =
              (Raise (Exn KeyError name), st,
               [Acquire; init_log name (Exn KeyError name); Release])) as ->.
    { unfold _run_task, with_thread_lock, finally, mbind, M_bind, bind, tell.
      rewrite init_task_unknown by done. reflexivity. }
    split; [done|]. split; [done|]. split; [done|]. split; [done|]. unfold trace_of. cbn.
    by repeat (apply Forall_cons_2; [done|]).
Qed.

Lemma unknown_task_rejected_witness :
  exists e,
    _run_task "unknown" (PyTuple []) (PyDict []) demo_running =
      (Raise e, demo_running, [Acquire; init_log "unknown" e; Release]) /\
    e = Exn KeyError "unknown".
Proof.
  destruct (unknown_task_rejected demo_running "unknown" (PyTuple []) (PyDict []))
    as (e & Hrun & He & _).
  - vm_compute. reflexivity.
  - exists e. split; [exact Hrun|]. apply He.
    apply (reachable_registry_consistent demo_import demo_configs demo_modules).
    apply demo_running_reachable.
Defined.

(** C7: [interrupt_task] raises -- the [RuntimeError] of its not-running
    check -- exactly when the name has no running entry; when it has one the
    interrupt is passed to that task instance and nothing is raised; the
    running-task mapping is the same afterwards in both cases. *)
Theorem interrupt_task_spec st name :
  ((exists e, outcome_of (interrupt_task name st) = Raise e) <->
   _running_tasks st !! name = None) /\
  (_running_tasks st !! name = None ->
   interrupt_task name st = (Raise (not_running name), st, [Acquire; Release])) /\
  (forall t, _running_tasks st !! name = Some t ->
   interrupt_task name st =
     (Return tt, set_tasks (alter (with_interrupted true) t) st,
      [Acquire; Interrupt t; Release])) /\
  _running_tasks (state_of (interrupt_task name st)) = _running_tasks st.
Proof.
  pose proof (interrupt_task_cases st name) as H.
  destruct (_running_tasks st !! name) as [t|] eqn:Hrun; rewrite H;
    unfold outcome_of, state_of; cbn.
  - split; [split; [by intros [e ?]|done]|]. split; [done|]. split; [|done].
    by intros t' [= <-].
  - split; [split; [done|eauto]|]. done.
Qed.

Lemma interrupt_task_spec_witness :
  interrupt_task "echo" demo_running =
    (Return tt, set_tasks (alter (with_interrupted true) 0) demo_running,
     [Acquire; Interrupt 0; Release]) /\
  interrupt_task "c" demo_running = (Raise (not_running "c"), demo_running, [Acquire; Release]).
Proof.
  split.
  - apply (proj1 (proj2 (proj2 (interrupt_task_spec demo_running "echo")))).
    vm_compute. reflexivity.
  - apply (proj1 (proj2 (interrupt_task_spec demo_running "c"))).
    vm_compute. reflexivity.
Defined.

(** C10: a finished callback or a thread-termination callback for a name
    without a running entry changes nothing and publishes nothing: the state
    is the same afterwards, and beside taking and releasing the lock the
    only thing done is the [pop] that finds no entry. *)
Theorem stale_callbacks_do_nothing st name :
  _running_tasks st !! name = None ->
  _task_finished_callback name st = (Return tt, st, [Acquire; Release]) /\
  _thread_finished_callback name st =
    (Return tt, st, [Acquire; Running_pop name None; Release]).
Proof.
  intros H. split.
  - unfold _task_finished_callback. unfold_M. rewrite H. reflexivity.
  - unfold _thread_finished_callback. unfold_M. rewrite H. cbn.
    rewrite set_running_tasks_id; [reflexivity | by apply delete_id].
Qed.

Lemma stale_callbacks_do_nothing_witness :
  _task_finished_callback "c" demo_running = (Return tt, demo_running, [Acquire; Release]) /\
  _thread_finished_callback "c" demo_running =
    (Return tt, demo_running, [Acquire; Running_pop "c" None; Release]).
Proof. apply (stale_callbacks_do_nothing demo_running "c"). vm_compute. reflexivity. Defined.



(** C2 fails as stated: a run that the runner has forgotten completes
    without a finished event.  [echo] was started; the runner was
    deactivated, which interrupts nothing, and activated again, which
    empties the running-task mapping; the task then leaves its result, emits
    [sigFinished], and its thread terminates: every step returns normally,
    the callbacks find no entry, and nothing is published. *)
Lemma finished_event_lost_after_reactivation :
  _running_tasks demo_running !! "echo" = Some 0 /\
  on_deactivate demo_running =
    (Return tt, demo_deactivated, [Disconnect Sig_sigStartTask]) /\
  on_activate demo_import demo_deactivated =
    (Return tt, demo_restarted, [Connect Sig_sigStartTask Slot_run_task]) /\
  outcome_of (demo_forgotten_completion demo_restarted) = Return tt /\
  events (trace_of (demo_forgotten_completion demo_restarted)) = [] /\
  trace_of (demo_forgotten_completion demo_restarted) =
    [Acquire; Release; Acquire; Running_pop "echo" None; Release].
Proof. vm_compute. done. Qed.

(** C2, as the code has it: when the finished notification of a task that
    has an entry is handled while the task's two signals are connected, and
    then the termination of its thread, [sigTaskFinished] is published
    once, with the result and the success flag of the task; in program
    order it comes after the release of the task's resources and after the
    [pop] that removes the entry.  The name has no entry afterwards, so the
    already-running check of a later start passes.  A second finished
    notification before the thread has terminated raises the
    [RuntimeError] of [disconnect()] and changes nothing, and a repeated
    termination callback publishes nothing. *)
Theorem finished_published_once_after_teardown st name t obj :
  _running_tasks st !! name = Some t ->
  tasks st !! t = Some obj ->
  task_sigFinished obj <> [] ->
  task_sigStateChanged obj <> [] ->
  let th := default "MainThread" (task_thread obj) in
  let r1 := _task_finished_callback name st in
  let r2 := _thread_finished_callback name (state_of r1) in
  let r3 := _thread_finished_callback name (state_of r2) in
  outcome_of r1 = Return tt /\ outcome_of r2 = Return tt /\
  trace_of r1 ++ trace_of r2 =
    [Acquire; Disconnect (Sig_task_sigFinished t); Disconnect (Sig_task_sigStateChanged t);
     Disconnect_modules t; Quit_thread th; Join_thread th; Release;
     Acquire; Running_pop name (Some t);
     Emit_sigTaskFinished name (task_result obj) (task_success obj); Release] /\
  task_connected_modules <$> tasks (state_of r2) !! t = Some [] /\
  _running_tasks (state_of r2) = delete name (_running_tasks st) /\
  _running_tasks (state_of r2) !! name = None /\
  (forall c, _configured_task_types st !! name = Some c -> init_raises c = None ->
     outcome_of (__init_task name (state_of r2)) = Return (next_ref (state_of r2))) /\
  r3 = (Return tt, state_of r2, [Acquire; Running_pop name None; Release]) /\
  _task_finished_callback name (state_of r1) =
    (Raise (disconnect_error (Sig_task_sigFinished t)), state_of r1,
     [Acquire; Disconnect (Sig_task_sigFinished t); Release]).
Proof.
  intros Hrun Hobj Hf Hs th r1 r2 r3.
  destruct (task_finished_callback_live st name t obj Hrun Hobj Hf Hs)
    as (st1 & H1 & Hrun1 & Hcfg1 & Htasks1).
  fold th in H1. subst r3 r2 r1. rewrite H1. unfold state_of, outcome_of, trace_of.
  cbn [fst snd].
  assert (_running_tasks st1 !! name = Some t) as Hrun1' by (by rewrite Hrun1).
  assert (tasks st1 !! t = Some (torn_down obj)) as Hobj1
    by (by rewrite Htasks1, lookup_insert_eq).
  rewrite (thread_finished_callback_live st1 name t (torn_down obj) Hrun1' Hobj1).
  cbn [fst snd].
  assert (_running_tasks (set_running_tasks (delete name) st1) !! name = None) as Hgone.
  { cbn. apply lookup_delete_eq. }
  split; [done|]. split; [done|]. split; [done|]. split.
  { cbn. by rewrite Hobj1. }
  split; [cbn; by rewrite Hrun1|]. split; [exact Hgone|]. split; [|split].
  - intros c Hc Hinit.
    rewrite (init_task_ok _ _ c); [done|exact Hgone| |done]. cbn. by rewrite Hcfg1.
  - by apply thread_finished_callback_stale.
  - pose proof (task_finished_callback_cases st1 name) as H.
    rewrite Hrun1' in H. cbn [connections] in H. rewrite Hobj1 in H. exact H.
Qed.

Lemma finished_published_once_after_teardown_witness :
  trace_of (_task_finished_callback "echo" demo_done) ++
  trace_of (_thread_finished_callback "echo"
              (state_of (_task_finished_callback "echo" demo_done))) =
    [Acquire; Disconnect (Sig_task_sigFinished 0); Disconnect (Sig_task_sigStateChanged 0);
     Disconnect_modules 0; Quit_thread "ModuleTask-echo"; Join_thread "ModuleTask-echo";
     Release;
     Acquire; Running_pop "echo" (Some 0); Emit_sigTaskFinished "echo" (PyInt 42) true;
     Release].
Proof.
  assert (_running_tasks demo_done !! "echo" = Some 0) as H1 by (vm_compute; reflexivity).
  assert (tasks demo_done !! 0 =
            Some (with_outcome (PyInt 42) true
                    (started_task Echo "echo" (PyTuple [PyInt 42]) (PyDict [])
                       [("cam", "camera")]))) as H2 by (vm_compute; reflexivity).
  assert (task_sigFinished (with_outcome (PyInt 42) true
                              (started_task Echo "echo" (PyTuple [PyInt 42]) (PyDict [])
                                 [("cam", "camera")])) <> []) as H3 by done.
  assert (task_sigStateChanged (with_outcome (PyInt 42) true
                                  (started_task Echo "echo" (PyTuple [PyInt 42]) (PyDict [])
                                     [("cam", "camera")])) <> []) as H4 by done.
  exact (proj1 (proj2 (proj2
           (finished_published_once_after_teardown demo_done "echo" 0 _ H1 H2 H3 H4)))).
Defined.

(** The first scenario of the specification, end to end: the request is
    posted, delivered, the task runs, reports, and its thread terminates. *)
Example echo_scenario :
  trace_of ((exec (Call_run_task "echo" (PyList [PyInt 42]) (PyDict []));;
             exec Deliver_start;;
             exec (Task_sigStateChanged 0 "running");;
             exec (Task_ran 0 (PyInt 42) true);;
             exec (Task_sigFinished 0);;
             exec (Thread_finished "ModuleTask-echo")) demo_activated) =
    [Acquire; Emit_sigStartTask "echo" [PyInt 42] []; Release;
     Acquire; New_task "Echo" 0; Set_args 0 (PyTuple [PyInt 42]); Set_kwargs 0 (PyDict []);
     Get_module "camera"; Activate "camera"; Connect_modules 0 [("cam", "camera")]]
    ++ started_trace "echo" 0 ++
    [Release;
     Emit_sigTaskStateChanged "echo" "running";
     Acquire; Disconnect (Sig_task_sigFinished 0); Disconnect (Sig_task_sigStateChanged 0);
     Disconnect_modules 0; Quit_thread "ModuleTask-echo"; Join_thread "ModuleTask-echo";
     Release;
     Acquire; Running_pop "echo" (Some 0); Emit_sigTaskFinished "echo" (PyInt 42) true;
     Release].
Proof. vm_compute. reflexivity. Qed.

(** C5: when a start attempt has instantiated its task and set its arguments
    and the connection of its resources then raises [e], the connector logs
    [e] and calls [disconnect_modules] on the task before [e] propagates, so
    nothing stays bound to the task; the start ends there, with [e], under
    the lock that is then released: no thread is allocated, nothing is
    published and the running-task mapping is as before.  The call of
    [run_task] that posted the request had returned normally: [e] reaches
    the log, not that caller. *)
Theorem connection_failure_aborts_start st name args kwargs t st1 tr1 st2 tr2 e st3 tr3 :
  __init_task name st = (Return t, st1, tr1) ->
  __set_task_arguments t args kwargs st1 = (Return tt, st2, tr2) ->
  __activate_connect_task_modules name t st2 = (Raise e, st3, tr3) ->
  _run_task name args kwargs st = (Raise e, st3, Acquire :: tr1 ++ tr2 ++ tr3 ++ [Release]) /\
  (exists pre, tr3 = pre ++ [connect_log name e; Disconnect_modules t] /\
               Forall (fun a => kind a = K_connection) pre) /\
  task_connected_modules <$> tasks st3 !! t = Some [] /\
  _running_tasks st3 = _running_tasks st /\
  thread_manager st3 = thread_manager st /\
  Forall (fun a => kind a <> K_event /\ kind a <> K_thread /\ kind a <> K_registry)
         (tr1 ++ tr2 ++ tr3) /\
  (forall σ, outcome_of (run_task name args kwargs σ) = Return tt).
Proof.
  intros H1 H2 H3.
  assert (_run_task name args kwargs st =
            (Raise e, st3, Acquire :: tr1 ++ tr2 ++ tr3 ++ [Release])) as Hrun.
  { unfold _run_task, with_thread_lock, finally, mbind, M_bind, bind, tell.
    rewrite H1. cbn. rewrite H2. cbn. rewrite H3. cbn. by rewrite <- !app_assoc. }
  apply init_task_Return in H1 as (c & Hr & Hc & Hi & -> & -> & ->).
  apply set_task_arguments_Return in H2 as (Hargs & Hkw & -> & ->).
  split; [exact Hrun|].
  apply run_task_Raise in Hrun as (Hrun' & _ & Hth & _ & _ & _).
  pose proof (connect_failure_shape name (next_ref st) _ _ _ _ H3) as (pre & -> & Hpre & Htasks).
  split; [eauto|]. split.
  { rewrite Htasks. cbn. rewrite lookup_alter_eq, !lookup_alter_eq, lookup_insert_eq. done. }
  split; [done|]. split; [done|]. split.
  - cbn. repeat (apply Forall_cons_2; [done|]). rewrite Forall_app. split.
    + eapply Forall_impl; [exact Hpre|]. cbn. by intros a ->.
    + by repeat (apply Forall_cons_2; [done|]).
  - intros σ. destruct (run_task_returns name args kwargs σ Hargs Hkw) as (a & k & _ & _ & ->).
    done.
Qed.

Lemma connection_failure_aborts_start_witness :
  let s1 := state_of (__init_task "c" demo_activated) in
  let s2 := state_of (__set_task_arguments 0 (PyTuple []) (PyDict []) s1) in
  trace_of (__activate_connect_task_modules "c" 0 s2) =
    [Get_module "camera"; Activate "camera"; Get_module "laser"; Activate "laser";
     connect_log "c" laser_error; Disconnect_modules 0] /\
  outcome_of (_run_task "c" (PyTuple []) (PyDict []) demo_activated) = Raise laser_error /\
  _running_tasks (state_of (_run_task "c" (PyTuple []) (PyDict []) demo_activated))
    = _running_tasks demo_activated.
Proof.
  intros s1 s2.
  assert (__init_task "c" demo_activated =
            (Return 0, s1, trace_of (__init_task "c" demo_activated))) as H1
    by (vm_compute; reflexivity).
  assert (__set_task_arguments 0 (PyTuple []) (PyDict []) s1 =
            (Return tt, s2, trace_of (__set_task_arguments 0 (PyTuple []) (PyDict []) s1)))
    as H2 by (vm_compute; reflexivity).
  assert (__activate_connect_task_modules "c" 0 s2 =
            (Raise laser_error, state_of (__activate_connect_task_modules "c" 0 s2),
             trace_of (__activate_connect_task_modules "c" 0 s2))) as H3
    by (vm_compute; reflexivity).
  destruct (connection_failure_aborts_start _ _ _ _ _ _ _ _ _ _ _ _ H1 H2 H3)
    as (Hrun & _ & _ & Hsame & _).
  split; [vm_compute; reflexivity|]. rewrite Hrun. split; [reflexivity|exact Hsame].
Defined.

(** C3, as the code has it: [run_task] converts its arguments with [tuple]
    and [dict]; when a conversion raises, that exception goes to the caller
    and the state is unchanged; otherwise the call returns and the request is
    posted.  Keys that are not strings pass the conversion: they are refused
    later, by [__set_task_arguments] in the queued start, which raises -- its
    [TypeError], unless the name check or the constructor raised first --
    and logs it; the running-task mapping is unchanged and beside the lock,
    the log and the new instance nothing is touched: no resource connection
    is attempted. *)
Theorem run_task_argument_checks st name args kwargs :
  match tuple args with
  | inl e => run_task name args kwargs st = (Raise e, st, [Acquire; Release])
  | inr a =>
      match dict kwargs with
      | inl e => run_task name args kwargs st = (Raise e, st, [Acquire; Release])
      | inr k =>
          run_task name args kwargs st =
            (Return tt,
             set_posted (fun q => q ++ map (fun _ => (name, a, k)) (_sigStartTask st)) st,
             [Acquire; Emit_sigStartTask name a k; Release]) /\
          (is_str_keyed_mapping (PyDict k) = false ->
           forall σ, exists e σ' mid,
             _run_task name (PyTuple a) (PyDict k) σ =
               (Raise e, σ', Acquire :: mid ++ [Release]) /\
             _running_tasks σ' = _running_tasks σ /\
             Forall (fun x => kind x = K_log \/ kind x = K_task) mid /\
             (exists msg, Log_exception msg e ∈ mid) /\
             (forall c, _running_tasks σ !! name = None ->
                        _configured_task_types σ !! name = Some c -> init_raises c = None ->
                        e = kwargs_error))
      end
  end.
Proof.
  pose proof (run_task_cases name args kwargs st) as H.
  destruct (tuple args) as [e|a]; [done|]. destruct (dict kwargs) as [e|k]; [done|].
  split; [done|]. intros Hkw σ.
  destruct (run_task_bad_arguments name (PyTuple a) (PyDict k) σ (or_intror Hkw))
    as (e & σ' & mid & H1 & H2 & H3 & H4 & H5).
  exists e, σ', mid. done.
Qed.

(** C3 fails as stated: a dict with an integer key is not a string-keyed
    mapping, and a set is not an ordered sequence, yet [run_task] returns
    normally on them and changes the state by posting the request. *)
Lemma run_task_accepts_malformed_arguments :
  is_str_keyed_mapping (PyDict [(KInt 1, PyNone)]) = false /\
  is_ordered_sequence (PySet [PyInt 42]) = false /\
  run_task "echo" (PySet [PyInt 42]) (PyDict [(KInt 1, PyNone)]) demo_activated =
    (Return tt,
     set_posted (fun _ => [("echo", [PyInt 42], [(KInt 1, PyNone)])]) demo_activated,
     [Acquire; Emit_sigStartTask "echo" [PyInt 42] [(KInt 1, PyNone)]; Release]) /\
  posted demo_activated = [].
Proof. vm_compute. done. Qed.

Lemma run_task_argument_checks_witness :
  is_str_keyed_mapping (PyDict [(KInt 1, PyNone)]) = false /\
  exists e σ' mid,
    _run_task "echo" (PyTuple []) (PyDict [(KInt 1, PyNone)]) demo_activated =
      (Raise e, σ', Acquire :: mid ++ [Release]) /\
    _running_tasks σ' = _running_tasks demo_activated /\
    Forall (fun x => kind x = K_log \/ kind x = K_task) mid /\
    (exists msg, Log_exception msg e ∈ mid) /\
    (forall c, _running_tasks demo_activated !! "echo" = None ->
               _configured_task_types demo_activated !! "echo" = Some c ->
               init_raises c = None -> e = kwargs_error).
Proof.
  split; [reflexivity|].
  pose proof (run_task_argument_checks demo_activated "echo" (PyList [])
                (PyDict [(KInt 1, PyNone)])) as H.
  cbn [tuple dict iter] in H. destruct H as [_ H].
  exact (H eq_refl demo_activated).
Defined.

(** C4 fails as stated: handling the finished notification of the running
    [echo] task joins its thread between taking the lock and releasing it. *)
Lemma task_finished_callback_joins_under_lock :
  trace_of (_task_finished_callback "echo" demo_done) =
    [Acquire; Disconnect (Sig_task_sigFinished 0); Disconnect (Sig_task_sigStateChanged 0);
     Disconnect_modules 0; Quit_thread "ModuleTask-echo"; Join_thread "ModuleTask-echo";
     Release] /\
  joins_holding_lock false (trace_of (_task_finished_callback "echo" demo_done)) = true.
Proof. vm_compute. done. Qed.

(** C4, as the code has it: [_task_finished_callback], for a name with a
    running entry whose task has its two signals connected, releases the
    task's resources, asks the thread to quit and joins it while holding the
    lock.  Of all operations of the runner it is the only one that joins a
    thread, and whenever it joins it holds the lock.  [running_tasks],
    [run_task], [interrupt_task], [_run_task] and the two finish callbacks
    take the lock first and release it last, also when they raise, and hold
    it for their whole body; [on_activate], [on_deactivate],
    [configured_task_types] and [_task_state_changed_callback] never take
    it, although [on_activate] replaces the running-task mapping and
    [on_deactivate] reads it. *)
Theorem join_is_performed_under_the_lock imp st :
  (forall name t obj,
     _running_tasks st !! name = Some t ->
     tasks st !! t = Some obj ->
     task_sigFinished obj <> [] ->
     task_sigStateChanged obj <> [] ->
     let th := default "MainThread" (task_thread obj) in
     trace_of (_task_finished_callback name st) =
       [Acquire; Disconnect (Sig_task_sigFinished t);
        Disconnect (Sig_task_sigStateChanged t);
        Disconnect_modules t; Quit_thread th; Join_thread th; Release] /\
     joins_holding_lock false (trace_of (_task_finished_callback name st)) = true) /\
  (forall op,
     (if takes_lock op then lock_bracketed (trace_of (perform imp op st))
      else of_kind K_lock (trace_of (perform imp op st)) = []) /\
     (of_kind K_join (trace_of (perform imp op st)) <> [] ->
      (exists name, op = Op__task_finished_callback name) /\
      joins_holding_lock false (trace_of (perform imp op st)) = true)) /\
  _running_tasks (state_of (perform imp Op_on_activate st)) = ∅ /\
  (_sigStartTask st <> [] ->
   perform imp Op_on_deactivate st =
     (Return tt, set_configured_task_types ∅ (set_sigStartTask [] st),
      [Disconnect Sig_sigStartTask])).
Proof.
  split; [|split; [|split]].
  - intros name t obj Hrun Hobj Hf Hs th.
    rewrite (task_finished_callback_teardown st name t obj Hrun Hobj Hf Hs).
    by split.
  - intros op. apply perform_lock_discipline.
  - apply on_activate_frame.
  - intros H. pose proof (on_deactivate_cases st) as Hd. cbn [perform].
    by destruct (_sigStartTask st).
Qed.

Lemma join_is_performed_under_the_lock_witness :
  joins_holding_lock false (trace_of (_task_finished_callback "echo" demo_done)) = true /\
  perform demo_import Op_on_deactivate demo_done =
    (Return tt, set_configured_task_types ∅ (set_sigStartTask [] demo_done),
     [Disconnect Sig_sigStartTask]).
Proof.
  assert (_running_tasks demo_done !! "echo" = Some 0) as H1 by (vm_compute; reflexivity).
  assert (tasks demo_done !! 0 =
            Some (with_outcome (PyInt 42) true
                    (started_task Echo "echo" (PyTuple [PyInt 42]) (PyDict [])
                       [("cam", "camera")]))) as H2 by (vm_compute; reflexivity).
  assert (task_sigFinished (with_outcome (PyInt 42) true
                              (started_task Echo "echo" (PyTuple [PyInt 42]) (PyDict [])
                                 [("cam", "camera")])) <> []) as H3 by done.
  assert (task_sigStateChanged (with_outcome (PyInt 42) true
                                  (started_task Echo "echo" (PyTuple [PyInt 42]) (PyDict [])
                                     [("cam", "camera")])) <> []) as H4 by done.
  assert (_sigStartTask demo_done <> []) as H5 by (vm_compute; done).
  destruct (join_is_performed_under_the_lock demo_import demo_done) as (Ha & _ & _ & Hd).
  split; [exact (proj2 (Ha "echo" 0 _ H1 H2 H3 H4))|exact (Hd H5)].
Defined.

Lemma on_activate_builds_verified_registry_witness :
  (exists e, outcome_of (on_activate demo_import (init_state demo_duplicate_configs ∅))
             = Raise e) /\
  (exists e, outcome_of (on_activate demo_import (init_state demo_helper_configs ∅))
             = Raise e) /\
  (forall n cfg, (n, cfg) ∈ demo_configs ->
     exists cls, resolve_task_type demo_import cfg = inr cls /\
                 is_ModuleTask_subclass cls = true /\
                 _configured_task_types demo_activated !! n = Some cls).
Proof.
  split; [|split].
  - apply (proj1 (on_activate_builds_verified_registry demo_import
                    (init_state demo_duplicate_configs ∅))).
    cbn. intros [Hnotin _]%NoDup_cons. apply Hnotin. apply list_elem_of_here.
  - apply (proj1 (proj2 (on_activate_builds_verified_registry demo_import
                           (init_state demo_helper_configs ∅)))
             "helper" (TaskCfg (Some "tasks.util.Helper") (Some []))
             "tasks.util.Helper" ("tasks.util", "Helper") Helper).
    + cbn. apply list_elem_of_further, list_elem_of_here.
    + reflexivity.
    + reflexivity.
    + reflexivity.
    + reflexivity.
  - apply (proj2 (proj2 (proj2 (on_activate_builds_verified_registry demo_import
                                  (init_state demo_configs demo_modules))))).
    vm_compute. reflexivity.
Defined.

Example on_activate_duplicate_error :
  outcome_of (on_activate demo_import (init_state demo_duplicate_configs ∅)) =
    Raise (duplicate_name_error "echo").
Proof. vm_compute. reflexivity. Qed.

Example on_activate_helper_error :
  outcome_of (on_activate demo_import (init_state demo_helper_configs ∅)) =
    Raise not_a_ModuleTask_error.
Proof. vm_compute. reflexivity. Qed.

(** ** The table model *)

Section TableModelFacts.

Import ModuleTasksTableModel.

Lemma list_index_Some {A} `{EqDecision A} (x : A) (l : list A) (i : nat) :
  list_index x l = Some i -> l !! i = Some x /\ forall j, j < i -> l !! j <> Some x.
Proof.
  revert i. induction l as [|y l IH]; intros i; [done|]. cbn.
  destruct (decide (y = x)) as [->|Hne].
  - intros [= <-]. split; [done|]. intros j Hj. lia.
  - destruct (list_index x l) as [k|] eqn:Hk; [|done]. cbn. intros [= <-].
    destruct (IH k eq_refl) as [H1 H2]. split; [done|].
    intros [|j] Hj; cbn; [congruence|]. apply H2. lia.
Qed.

Lemma list_index_None {A} `{EqDecision A} (x : A) (l : list A) :
  list_index x l = None <-> x ∉ l.
Proof.
  induction l as [|y l IH]; cbn.
  - split; [intros _; apply not_elem_of_nil | done].
  - destruct (decide (y = x)) as [->|Hne].
    + split; [done|]. intros H. exfalso. apply H. left.
    + rewrite not_elem_of_cons. destruct (list_index x l); cbn.
      * split; [done|]. intros [_ H]. by apply IH in H.
      * split; [|done]. intros _. split; [done|]. by apply IH.
Qed.

Lemma list_index_NoDup {A} `{EqDecision A} (x : A) (l : list A) (i : nat) :
  NoDup l -> l !! i = Some x -> list_index x l = Some i.
Proof.
  intros Hnd Hi. destruct (list_index x l) as [j|] eqn:Hj.
  - apply list_index_Some in Hj as [Hj _]. f_equal. by eapply NoDup_lookup.
  - apply list_index_None in Hj. exfalso. apply Hj. by eapply list_elem_of_lookup_2.
Qed.

Lemma list_index_snoc {A} `{EqDecision A} (x : A) (l : list A) :
  x ∉ l -> list_index x (l ++ [x]) = Some (length l).
Proof.
  induction l as [|y l IH]; cbn.
  - intros _. by rewrite decide_True.
  - intros [Hne Hx]%not_elem_of_cons. rewrite decide_False by done.
    by rewrite IH.
Qed.

Lemma list_index_app_l {A} `{EqDecision A} (x : A) (l k : list A) (i : nat) :
  list_index x l = Some i -> list_index x (l ++ k) = Some i.
Proof.
  revert i. induction l as [|y l IH]; intros i; [done|]. cbn.
  destruct (decide (y = x)); [done|].
  destruct (list_index x l) as [j|]; [|done]. cbn. intros [= <-]. by rewrite (IH j).
Qed.

Lemma list_index_delete {A} `{EqDecision A} (x : A) (l : list A) (i j : nat) :
  list_index x l = Some j -> i <> j ->
  list_index x (delete i l) = Some (if decide (j < i) then j else pred j).
Proof.
  revert i j. induction l as [|y l IH]; intros i j; [done|]. cbn.
  destruct (decide (y = x)) as [->|Hne].
  - intros [= <-] Hi. destruct i as [|i]; [done|]. cbn. rewrite decide_True by done.
    by rewrite decide_True by lia.
  - destruct (list_index x l) as [k|] eqn:Hk; [|done]. cbn. intros [= <-] Hi.
    destruct i as [|i]; cbn.
    + rewrite Hk. by rewrite decide_False by lia.
    + rewrite decide_False by done.
      change (S <$> list_index x (delete i l) =
              Some (if decide (S k < S i) then S k else k)).
      rewrite (IH i k eq_refl) by lia. cbn.
      repeat case_decide; try lia; f_equal; lia.
Qed.

Lemma list_index_delete_None {A} `{EqDecision A} (x : A) (l : list A) (i : nat) :
  NoDup l -> list_index x l = Some i -> list_index x (delete i l) = None.
Proof.
  intros Hnd Hi. apply list_index_None. intros Hin.
  apply list_elem_of_lookup in Hin as [j Hj].
  apply list_index_Some in Hi as [Hi _].
  destruct (decide (j < i)).
  - rewrite list_lookup_delete_lt in Hj by done. pose proof (NoDup_lookup _ _ _ _ Hnd Hi Hj). lia.
  - rewrite list_lookup_delete_ge in Hj by lia. pose proof (NoDup_lookup _ _ _ _ Hnd Hi Hj). lia.
Qed.

Lemma getitem_nat {A} (l : list A) (i : nat) : getitem l (Z.of_nat i) = l !! i.
Proof. unfold getitem. rewrite decide_True by lia. by rewrite Nat2Z.id. Qed.

Lemma getitem_last {A} (l : list A) (x : A) : getitem (l ++ [x]) (-1) = Some x.
Proof.
  unfold getitem. rewrite decide_False by lia. rewrite length_app. cbn [length].
  rewrite decide_True by lia.
  replace (Z.to_nat (Z.of_nat (length l + 1) + -1)) with (length l) by lia.
  rewrite lookup_app_r by lia. by rewrite Nat.sub_diag.
Qed.

(** The two lists after [remove_task], however it ends. *)
Lemma remove_task_rows (m : model) (name : string) :
  (_names (remove_task name m).1.2, _tasks (remove_task name m).1.2) =
    match list_index name (_names m) with
    | None => (_names m, _tasks m)
    | Some row =>
        match _tasks m !! row with
        | None => (delete row (_names m), _tasks m)
        | Some _ => (delete row (_names m), delete row (_tasks m))
        end
    end.
Proof.
  unfold remove_task. destruct (list_index name (_names m)) as [row|]; [|done].
  destruct (_tasks m !! row) as [task|]; [|done].
  destruct (signal_disconnect (sigStateChanged m) task); [|done].
  by destruct (signal_disconnect (sigFinished m) task).
Qed.

Lemma signal_disconnect_connect (signal : gmap nat nat) (task : nat) :
  signal_disconnect (signal_connect signal task) task = Some (<[task := 0]> signal).
Proof.
  unfold signal_disconnect, signal_connect, connection_count.
  rewrite lookup_insert_eq. cbn. rewrite decide_False by done.
  by rewrite insert_insert_eq.
Qed.

(** X1: the rows stay aligned and no name gets two rows: [add_task],
    [remove_task] and [clear_tasks] take a model whose two lists have the
    same length and whose names are distinct to such a model, whatever they
    return; the model after [__init__] is one; and on such a model
    [remove_task] never fails half way, between the two deletions. *)
Theorem table_rows_stay_aligned (m : model) (name : string) (task : nat) :
  well_formed m ->
  well_formed (add_task name task m).1.2 /\
  well_formed (remove_task name m).1.2 /\
  well_formed (clear_tasks m).1.2 /\
  (forall msg, (remove_task name m).1.1 <> inl (E_IndexError msg)).
Proof.
  intros [Hlen Hnd].
  assert (forall i, list_index name (_names m) = Some i -> is_Some (_tasks m !! i)) as Htask.
  { intros i [Hi _]%list_index_Some.
    apply lookup_lt_is_Some. rewrite <- Hlen. apply lookup_lt_is_Some. eauto. }
  split; [|split; [|split]].
  - unfold add_task. case_decide as Hin; cbn; [done|]. split; cbn.
    + rewrite !length_app. cbn. lia.
    + apply NoDup_app. split; [done|]. split; [|apply NoDup_singleton].
      intros x Hx [->|[]%elem_of_nil]%elem_of_cons. done.
  - pose proof (remove_task_rows m name) as Hrows.
    destruct (list_index name (_names m)) as [i|] eqn:Hi.
    2:{ injection Hrows as Hn Ht. split; by rewrite ?Hn, ?Ht. }
    destruct (Htask i eq_refl) as [t Ht]. rewrite Ht in Hrows.
    injection Hrows as Hn' Ht'. split; rewrite ?Hn', ?Ht'.
    + apply list_index_Some in Hi as [Hi _]. rewrite !length_delete by eauto. lia.
    + eapply sublist_NoDup; [exact Hnd|apply sublist_delete].
  - unfold clear_tasks. cbv zeta.
    destruct (disconnect_tasks (_tasks m) (sigStateChanged m) (sigFinished m)).1.1.1;
      split; cbn; [done|constructor|done|done].
  - intros msg. unfold remove_task.
    destruct (list_index name (_names m)) as [i|] eqn:Hi; [|done].
    destruct (Htask i eq_refl) as [t Ht]. rewrite Ht.
    destruct (signal_disconnect (sigStateChanged m) t); [|done].
    by destruct (signal_disconnect (sigFinished m) t).
Qed.

Lemma table_rows_stay_aligned_witness :
  well_formed (remove_task "a" (add_task "b" 1 (add_task "a" 0 init_model).1.2).1.2).1.2.
Proof.
  apply (table_rows_stay_aligned _ "a" 0).
  apply (table_rows_stay_aligned _ "b" 1).
  apply (table_rows_stay_aligned init_model "a" 0).
  split; [reflexivity|constructor].
Defined.

(** X2: [add_task] refuses a name that has a row -- [KeyError], the model
    untouched, nothing sent to the views -- and otherwise appends one row
    at the end: the row count grows by one, the new name is found at the old
    row count, that row (also reached as row [-1]) holds the name and the
    task, and the rows before it read as before. *)
Theorem table_add_task_spec (m : model) (name : string) (task : nat) :
  (name ∈ _names m ->
   add_task name task m =
     (inl (E_KeyError ("ModuleTask with name " +:+ quoted name +:+ " already added.")),
      m, [])) /\
  (name ∉ _names m -> length (_names m) = length (_tasks m) ->
   let m' := (add_task name task m).1.2 in
   (add_task name task m).1.1 = inr tt /\
   (add_task name task m).2 =
     [beginInsertRows (rowCount m) (rowCount m); connect_sigStateChanged task;
      connect_sigFinished task; endInsertRows] /\
   rowCount m' = S (rowCount m) /\
   index_from_name name m' = inr (rowCount m) /\
   task_from_index (Z.of_nat (rowCount m)) m' = inr (name, task) /\
   task_from_index (-1) m' = inr (name, task) /\
   (forall i, i < rowCount m ->
      task_from_index (Z.of_nat i) m' = task_from_index (Z.of_nat i) m) /\
   (forall n, n <> name -> index_from_name n m' = index_from_name n m)).
Proof.
  unfold add_task, rowCount. split; intros Hin; [by rewrite decide_True|].
  intros Hlen. rewrite decide_False by done. cbn.
  split; [done|]. split; [done|]. split; [rewrite length_app; cbn; lia|].
  split; [unfold index_from_name; cbn; by rewrite list_index_snoc|].
  split.
  { unfold task_from_index. cbn. rewrite !getitem_nat.
    rewrite lookup_app_r by lia. rewrite Nat.sub_diag. cbn.
    rewrite Hlen, lookup_app_r by lia. by rewrite Nat.sub_diag. }
  split.
  { unfold task_from_index. cbn. by rewrite !getitem_last. }
  split.
  { intros i Hi. unfold task_from_index. cbn. rewrite !getitem_nat.
    rewrite !lookup_app_l by lia. done. }
  intros n Hn. unfold index_from_name. cbn.
  destruct (list_index n (_names m)) as [i|] eqn:Hi.
  - by rewrite (list_index_app_l _ _ _ _ Hi).
  - assert (list_index n (_names m ++ [name]) = None) as ->; [|done].
    apply list_index_None. apply list_index_None in Hi.
    intros [?|[->|[]%elem_of_nil]%elem_of_cons]%elem_of_app; done.
Qed.

Lemma table_add_task_spec_witness :
  index_from_name "b" (add_task "b" 7 (add_task "a" 3 init_model).1.2).1.2 = inr 1 /\
  add_task "a" 9 (add_task "a" 3 init_model).1.2 =
    (inl (E_KeyError ("ModuleTask with name " +:+ quoted "a" +:+ " already added.")),
     (add_task "a" 3 init_model).1.2, []).
Proof.
  split.
  - refine (proj1 (proj2 (proj2 (proj2
              (proj2 (table_add_task_spec (add_task "a" 3 init_model).1.2 "b" 7) _ _))))).
    + cbn. apply not_elem_of_cons. split; [done|apply not_elem_of_nil].
    + reflexivity.
  - apply (proj1 (table_add_task_spec (add_task "a" 3 init_model).1.2 "a" 9)).
    cbn. left.
Defined.

(** X3: [remove_task] of a name without a row raises [ValueError] and
    leaves the model untouched.  On an aligned model with distinct names,
    removing a name that has a row deletes that row from both lists before
    it touches the signals of the task the row held: the name is unknown
    afterwards and every other name keeps its task, found one row up when
    it was below the removed row, however the call ends.  It ends normally,
    with both signals of the task disconnected and [endRemoveRows] sent,
    exactly when both signals had a connection; when [sigStateChanged] had
    none, or [sigFinished] had none, the [disconnect()] raises
    [RuntimeError] and [endRemoveRows] is never sent. *)
Theorem table_remove_task_spec (m : model) (name : string) :
  (name ∉ _names m -> remove_task name m = (inl E_ValueError, m, [])) /\
  (well_formed m -> name ∈ _names m ->
   exists r task,
     index_from_name name m = inr r /\
     task_from_index (Z.of_nat r) m = inr (name, task) /\
     _names (remove_task name m).1.2 = delete r (_names m) /\
     _tasks (remove_task name m).1.2 = delete r (_tasks m) /\
     rowCount (remove_task name m).1.2 = rowCount m - 1 /\
     index_from_name name (remove_task name m).1.2 = inl E_ValueError /\
     (forall n i t, n <> name ->
        index_from_name n m = inr i -> task_from_index (Z.of_nat i) m = inr (n, t) ->
        let i' := if decide (i < r) then i else pred i in
        index_from_name n (remove_task name m).1.2 = inr i' /\
        task_from_index (Z.of_nat i') (remove_task name m).1.2 = inr (n, t)) /\
     remove_task name m =
       if decide (connection_count (sigStateChanged m) task = 0) then
         (inl E_RuntimeError,
          Model (delete r (_names m)) (delete r (_tasks m)) (sigStateChanged m) (sigFinished m),
          [beginRemoveRows r r; disconnect_sigStateChanged task])
       else if decide (connection_count (sigFinished m) task = 0) then
         (inl E_RuntimeError,
          Model (delete r (_names m)) (delete r (_tasks m))
                (<[task := 0]> (sigStateChanged m)) (sigFinished m),
          [beginRemoveRows r r; disconnect_sigStateChanged task;
           disconnect_sigFinished task])
       else
         (inr tt,
          Model (delete r (_names m)) (delete r (_tasks m))
                (<[task := 0]> (sigStateChanged m)) (<[task := 0]> (sigFinished m)),
          [beginRemoveRows r r; disconnect_sigStateChanged task; disconnect_sigFinished task;
           endRemoveRows])).
Proof.
  split.
  - intros Hin. unfold remove_task. by apply list_index_None in Hin as ->.
  - intros [Hlen Hnd] Hin. pose proof (remove_task_rows m name) as Hrows.
    unfold index_from_name, task_from_index, rowCount.
    destruct (list_index name (_names m)) as [r|] eqn:Hr.
    2:{ by apply list_index_None in Hr. }
    pose proof (list_index_Some _ _ _ Hr) as [Hname _].
    assert (is_Some (_tasks m !! r)) as [task Htask].
    { apply lookup_lt_is_Some. rewrite <- Hlen. apply lookup_lt_is_Some. eauto. }
    rewrite Htask in Hrows. injection Hrows as Hn' Ht'. rewrite Hn', Ht'.
    exists r, task.
    split; [done|]. split; [by rewrite !getitem_nat, Hname, Htask|].
    split; [done|]. split; [done|]. split; [by rewrite length_delete by eauto|].
    split; [by rewrite list_index_delete_None|]. split.
    + intros n i t Hn Hi Ht.
      destruct (list_index n (_names m)) as [j|] eqn:Hj; [|done]. injection Hi as ->.
      assert (r <> i) as Hri.
      { intros ->. apply list_index_Some in Hj as [Hj _]. congruence. }
      rewrite (list_index_delete _ _ r i Hj Hri). split; [done|].
      rewrite !getitem_nat in *.
      destruct (_names m !! i) as [n'|] eqn:Hni; [|done].
      destruct (_tasks m !! i) as [t'|] eqn:Hti; [|done].
      case_decide.
      * by rewrite !list_lookup_delete_lt, Hni, Hti by done.
      * assert (S (pred i) = i) as Hi' by lia.
        by rewrite !list_lookup_delete_ge, Hi', Hni, Hti by lia.
    + unfold remove_task, signal_disconnect. rewrite Hr, Htask.
      by repeat case_decide.
Qed.

Lemma table_remove_task_spec_witness :
  remove_task "a" (add_task "b" 7 (add_task "a" 3 init_model).1.2).1.2 =
    (inr tt, disconnected 3 (add_task "b" 7 init_model).1.2,
     [beginRemoveRows 0 0; disconnect_sigStateChanged 3; disconnect_sigFinished 3;
      endRemoveRows]) /\
  remove_task "c" init_model = (inl E_ValueError, init_model, []).
Proof.
  split.
  - destruct (proj2 (table_remove_task_spec
                       (add_task "b" 7 (add_task "a" 3 init_model).1.2).1.2 "a"))
      as (r & task & Hr & Ht & _ & _ & _ & _ & _ & Hrm).
    + split; [reflexivity|]. cbn. apply NoDup_cons. split.
      * apply not_elem_of_cons. split; [done|apply not_elem_of_nil].
      * apply NoDup_singleton.
    + cbn. left.
    + injection Hr as <-. injection Ht as <-. rewrite Hrm. vm_compute. reflexivity.
  - apply (proj1 (table_remove_task_spec init_model "c")). apply not_elem_of_nil.
Defined.


(** X4: adding a row and removing it again gives the two lists back: on an
    aligned model, for a name without a row, [remove_task] after [add_task]
    succeeds -- the connections it disconnects were just made -- and
    restores both lists; the two signals of the task are left without any
    connection, those made by others included. *)
Theorem table_add_remove_round_trip (m : model) (name : string) (task : nat) :
  length (_names m) = length (_tasks m) ->
  name ∉ _names m ->
  remove_task name (add_task name task m).1.2 =
    (inr tt, disconnected task m,
     [beginRemoveRows (rowCount m) (rowCount m); disconnect_sigStateChanged task;
      disconnect_sigFinished task; endRemoveRows]).
Proof.
  intros Hlen Hin. unfold add_task, remove_task, rowCount, disconnected.
  rewrite decide_False by done. cbn. rewrite list_index_snoc by done.
  rewrite Hlen at 1. rewrite lookup_app_r by lia. rewrite Nat.sub_diag. cbn.
  rewrite !signal_disconnect_connect.
  replace (delete (length (_names m)) (_names m ++ [name])) with (_names m).
  2:{ by rewrite (delete_middle (_names m) [] name), app_nil_r. }
  replace (delete (length (_names m)) (_tasks m ++ [task])) with (_tasks m).
  2:{ by rewrite Hlen, (delete_middle (_tasks m) [] task), app_nil_r. }
  done.
Qed.

Lemma table_add_remove_round_trip_witness :
  remove_task "b" (add_task "b" 7 (add_task "a" 3 init_model).1.2).1.2 =
    (inr tt, disconnected 7 (add_task "a" 3 init_model).1.2,
     [beginRemoveRows 1 1; disconnect_sigStateChanged 7; disconnect_sigFinished 7;
      endRemoveRows]).
Proof.
  apply (table_add_remove_round_trip (add_task "a" 3 init_model).1.2 "b" 7).
  - reflexivity.
  - cbn. apply not_elem_of_cons. split; [done|apply not_elem_of_nil].
Defined.

(** X5: on an aligned model with distinct names the two lookups are inverse
    to each other: the row [index_from_name] gives for a name holds that
    name, and the name [task_from_index] gives for a row -- a negative row
    counting from the end -- is found at that row. *)
Theorem table_lookup_round_trip (m : model) :
  well_formed m ->
  (forall name i, index_from_name name m = inr i ->
     exists task, task_from_index (Z.of_nat i) m = inr (name, task)) /\
  (forall i name task, task_from_index i m = inr (name, task) ->
     index_from_name name m =
       inr (Z.to_nat (if decide (0 <= i)%Z then i else Z.of_nat (rowCount m) + i)%Z)) /\
  (forall i, (- Z.of_nat (rowCount m) <= i < Z.of_nat (rowCount m))%Z <->
             exists p, task_from_index i m = inr p).
Proof.
  intros [Hlen Hnd]. unfold index_from_name, task_from_index, rowCount.
  split; [|split].
  - intros name i Hi. destruct (list_index name (_names m)) as [j|] eqn:Hj; [|done].
    injection Hi as ->. apply list_index_Some in Hj as [Hj _].
    assert (is_Some (_tasks m !! i)) as [task Htask].
    { apply lookup_lt_is_Some. rewrite <- Hlen. apply lookup_lt_is_Some. eauto. }
    exists task. by rewrite !getitem_nat, Hj, Htask.
  - intros i name task Hi.
    destruct (getitem (_names m) i) as [n|] eqn:Hn; [|done].
    destruct (getitem (_tasks m) i) as [t|] eqn:Ht; [|done]. injection Hi as -> ->.
    unfold getitem in Hn. case_decide.
    + by rewrite (list_index_NoDup _ _ _ Hnd Hn).
    + case_decide; [|done]. by rewrite (list_index_NoDup _ _ _ Hnd Hn).
  - intros i. unfold getitem. rewrite <- Hlen. split.
    + intros [Hlo Hhi]. case_decide.
      * assert (is_Some (_names m !! Z.to_nat i)) as [n ->]
          by (apply lookup_lt_is_Some; lia).
        assert (is_Some (_tasks m !! Z.to_nat i)) as [t ->]
          by (apply lookup_lt_is_Some; lia). cbn. eauto.
      * rewrite decide_True by lia.
        assert (is_Some (_names m !! Z.to_nat (Z.of_nat (length (_names m)) + i)))
          as [n ->] by (apply lookup_lt_is_Some; lia).
        assert (is_Some (_tasks m !! Z.to_nat (Z.of_nat (length (_names m)) + i)))
          as [t ->] by (apply lookup_lt_is_Some; lia). cbn.
        rewrite decide_True by lia. eauto.
    + intros [p Hp]. case_decide.
      * destruct (_names m !! Z.to_nat i) as [n|] eqn:Hn; [|done].
        apply lookup_lt_Some in Hn. lia.
      * case_decide; [lia|done].
Qed.

Lemma table_lookup_round_trip_witness :
  index_from_name "b" (add_task "b" 7 (add_task "a" 3 init_model).1.2).1.2 = inr 1.
Proof.
  refine (proj1 (proj2 (table_lookup_round_trip
            (add_task "b" 7 (add_task "a" 3 init_model).1.2).1.2 _)) (-1)%Z "b" 7 _).
  - split; [reflexivity|]. cbn. apply NoDup_cons. split.
    + apply not_elem_of_cons. split; [done|apply not_elem_of_nil].
    + apply NoDup_singleton.
  - reflexivity.
Defined.

(** [data] never gives the text of a cell: for a valid index asked with
    the display role it raises [AttributeError] -- also when the row exists
    -- and in every other case it returns [None]. *)
Theorem table_data_never_reads_a_cell (m : model) (index : QModelIndex)
  (role : ItemDataRole) :
  (isValid index = true -> role = DisplayRole ->
   data index role m = inl (E_AttributeError "_task_from_index")) /\
  (isValid index = false \/ role <> DisplayRole -> data index role m = inr None) /\
  (forall txt, data index role m <> inr (Some txt)).
Proof.
  unfold data. split; [|split].
  - by intros -> ->.
  - intros [->|Hrole]; [done|]. by destruct (isValid index), role.
  - intros txt. by destruct (isValid index), role.
Qed.

Lemma table_data_never_reads_a_cell_witness :
  task_from_index 0 (add_task "a" 3 init_model).1.2 = inr ("a", 3) /\
  data (ModelIndex true 0 0) DisplayRole (add_task "a" 3 init_model).1.2 =
    inl (E_AttributeError "_task_from_index").
Proof.
  split; [reflexivity|].
  apply (proj1 (table_data_never_reads_a_cell _ (ModelIndex true 0 0) DisplayRole));
    reflexivity.
Defined.



(** X7: [headerData] gives one of the four column titles exactly for the
    display role, the horizontal orientation and a section from [-4] to
    [3], a negative section counting from the last column; a section
    outside that range raises [IndexError], and every other role or
    orientation gives [None]. *)
Theorem table_headerData_bounds (section : Z) (orientation : Orientation)
  (role : ItemDataRole) :
  ((exists h, headerData section orientation role = inr (Some h)) <->
   role = DisplayRole /\ orientation = Horizontal /\ (-4 <= section < 4)%Z) /\
  (role = DisplayRole -> orientation = Horizontal -> ~ (-4 <= section < 4)%Z ->
   headerData section orientation role = inl (E_IndexError "tuple index out of range")) /\
  (role <> DisplayRole \/ orientation <> Horizontal ->
   headerData section orientation role = inr None) /\
  (role = DisplayRole -> orientation = Horizontal -> (0 <= section < 4)%Z ->
   headerData (section - 4) orientation role = headerData section orientation role).
Proof.
  assert (forall s, (-4 <= s < 4)%Z -> is_Some (getitem _headers s)) as Hin.
  { intros s Hs. assert (s = -4 \/ s = -3 \/ s = -2 \/ s = -1 \/ s = 0 \/ s = 1 \/
                           s = 2 \/ s = 3)%Z as Hcases by lia.
    destruct Hcases as [->|[->|[->|[->|[->|[->|[->| ->]]]]]]]; by eexists. }
  assert (forall s, ~ (-4 <= s < 4)%Z -> getitem _headers s = None) as Hout.
  { intros s Hs. unfold getitem. case_decide.
    - apply lookup_ge_None. cbn. lia.
    - cbn [length _headers]. by rewrite decide_False by lia. }
  split; [|split; [|split]].
  - split.
    + intros [h Hh]. unfold headerData in Hh. destruct role; try done.
      destruct orientation; try done. split; [done|]. split; [done|].
      destruct (decide (-4 <= section < 4)%Z) as [|Hs]; [done|].
      by rewrite (Hout _ Hs) in Hh.
    + intros (-> & -> & Hs). unfold headerData. destruct (Hin _ Hs) as [h ->]. eauto.
  - intros -> -> Hs. unfold headerData. by rewrite (Hout _ Hs).
  - intros [Hr|Ho]; unfold headerData; destruct role, orientation; done.
  - intros -> -> Hs. unfold headerData.
    assert (section = 0 \/ section = 1 \/ section = 2 \/ section = 3)%Z as Hcases by lia.
    by destruct Hcases as [->|[->|[->| ->]]].
Qed.

Lemma table_headerData_bounds_witness :
  headerData 4 Horizontal DisplayRole = inl (E_IndexError "tuple index out of range") /\
  headerData (-1) Horizontal DisplayRole = headerData 3 Horizontal DisplayRole.
Proof.
  split.
  - apply (proj1 (proj2 (table_headerData_bounds 4 Horizontal DisplayRole)));
      [reflexivity|reflexivity|lia].
  - apply (proj2 (proj2 (proj2 (table_headerData_bounds 3 Horizontal DisplayRole))));
      [reflexivity|reflexivity|lia].
Defined.

End TableModelFacts.

(** ** Further properties of the runner *)

Lemma bind_roles_ok c targets bound l :
  bind_roles c targets bound = (None, l) -> l = bound ++ targets.
Proof.
  revert bound. induction targets as [|[role m] rest IH]; intros bound H; cbn in H.
  - injection H as <-. by rewrite app_nil_r.
  - destruct (bind_raises c role); [discriminate|].
    apply IH in H. by rewrite <- app_assoc in H.
Qed.

(** The modules of a trace of successful activations are known and active
    afterwards, and a module that was active stays so. *)
Lemma activate_targets_Return conns acc s targets s' tr :
  activate_targets conns acc s = (Return targets, s', tr) ->
  targets = acc ++ conns /\
  Forall (fun rm => exists mo, module_manager s' !! rm.2 = Some mo /\ module_active mo = true)
         conns /\
  (forall m mo, module_manager s !! m = Some mo -> module_active mo = true ->
                exists mo', module_manager s' !! m = Some mo' /\ module_active mo' = true).
Proof.
  revert acc s targets s' tr.
  induction conns as [|[conn_name module_name] rest IH]; intros acc s targets s' tr H.
  - cbn in H. injection H as <- <- <-. rewrite app_nil_r. split; [done|]. split; [done|]. eauto.
  - cbn [activate_targets] in H. unfold get_module, activate in H. unfold_M.
    destruct (module_manager s !! module_name) as [m|] eqn:Hm; cbn in H; [|discriminate].
    destruct (activate_raises m) as [e|] eqn:He; cbn in H; [discriminate|].
    match type of H with context [activate_targets rest ?a ?s1] =>
      specialize (IH a s1); destruct (activate_targets rest a s1) as [[o s2] tr2] eqn:E
    end.
    destruct o as [tg|e]; cbn in H; [|discriminate].
    injection H as <- <- <-.
    destruct (IH _ _ _ eq_refl) as (-> & Hact & Hkeep).
    split; [by rewrite <- app_assoc|]. split.
    + apply Forall_cons_2; [|exact Hact]. cbn [snd].
      apply (Hkeep module_name (ManagedModule None true)); [|done].
      cbn. apply lookup_insert_eq.
    + intros m0 mo Hm0 Hactive. destruct (decide (m0 = module_name)) as [->|Hne].
      * apply (Hkeep module_name (ManagedModule None true)); [|done].
        cbn. apply lookup_insert_eq.
      * apply (Hkeep m0 mo); [|done]. cbn. by rewrite lookup_insert_ne.
Qed.

(** What a successful [__activate_connect_task_modules] has done. *)
Lemma activate_connect_Return name t s s' tr obj :
  __activate_connect_task_modules name t s = (Return tt, s', tr) ->
  tasks s !! t = Some obj ->
  exists cfg conns mm',
    cfg_getitem name (_module_task_configs s) = inr cfg /\
    cfg_connect cfg = Some conns /\
    Forall (fun a => kind a = K_connection) tr /\
    s' = set_tasks <[t := with_connected_modules (task_connected_modules obj ++ conns) obj]>
           (set_module_manager (fun _ => mm') s) /\
    Forall (fun rm => exists mo, mm' !! rm.2 = Some mo /\ module_active mo = true) conns.
Proof.
  intros H Hobj.
  unfold __activate_connect_task_modules, connect_modules, disconnect_modules in H.
  unfold_M.
  destruct (cfg_getitem name (_module_task_configs s)) as [e|cfg] eqn:Hcfg; cbn in H;
    [discriminate|].
  destruct (cfg_connect cfg) as [conns|] eqn:Hconn; cbn in H; [|discriminate].
  destruct (activate_targets_state conns [] s) as [mm' Hmm].
  pose proof (activate_targets_trace conns [] s) as Htr.
  destruct (activate_targets conns [] s) as [[o s1] tr1] eqn:E.
  unfold state_of, trace_of in Hmm, Htr. cbn in Hmm, Htr.
  destruct o as [targets|e]; cbn in H; [|discriminate].
  apply activate_targets_Return in E as (-> & Hact & _). subst s1.
  cbn in H. rewrite Hobj in H.
  destruct (bind_roles (task_type obj) conns (task_connected_modules obj)) as [[e|] l] eqn:Hb;
    cbn in H; [discriminate|].
  apply bind_roles_ok in Hb as ->.
  injection H as <- <-.
  exists cfg, conns, mm'. do 2 (split; [done|]). split.
  { rewrite ?app_nil_r. rewrite Forall_app. split; [done|]. by forall_kinds. }
  split; [|exact Hact].
  apply state_eq; cbn; try reflexivity.
  apply map_eq. intros i. destruct (decide (i = t)) as [->|Hne].
  - by rewrite lookup_alter_eq, lookup_insert_eq, Hobj.
  - by rewrite lookup_alter_ne, lookup_insert_ne.
Qed.

(** The four points at which a start can fail, with what each leaves. *)
Lemma run_task_Raise_phases name args kwargs st e st' tr :
  _run_task name args kwargs st = (Raise e, st', tr) ->
  let t := next_ref st in
  (st' = st /\ tr = [Acquire; init_log name e; Release] /\
   (is_Some (_running_tasks st !! name) /\ e = already_initialized name \/
    _running_tasks st !! name = None /\ _configured_task_types st !! name = None /\
      e = Exn KeyError name \/
    _running_tasks st !! name = None /\
      exists c, _configured_task_types st !! name = Some c /\ init_raises c = Some e)) \/
  (exists c,
     _running_tasks st !! name = None /\ _configured_task_types st !! name = Some c /\
     tr = [Acquire; New_task (class_name c) t; args_log e; Release] /\
     (is_Iterable args = false /\ e = args_error \/
      is_Iterable args = true /\ is_str_keyed_mapping kwargs = false /\ e = kwargs_error) /\
     st' = set_next_ref (S t) (set_tasks <[t := new_task_obj c]> st)) \/
  (exists c pre,
     _running_tasks st !! name = None /\ _configured_task_types st !! name = Some c /\
     tr = Acquire :: New_task (class_name c) t :: Set_args t args :: Set_kwargs t kwargs
            :: pre ++ [connect_log name e; Disconnect_modules t; Release] /\
     Forall (fun a => kind a = K_connection) pre /\
     tasks st' !! t = Some (TaskObj c args kwargs [] None [] [] PyNone false false)) \/
  (exists c cfg conns trc,
     _running_tasks st !! name = None /\ _configured_task_types st !! name = Some c /\
     is_Some (thread_manager st !! thread_label name) /\
     e = thread_error name /\
     tr = Acquire :: New_task (class_name c) t :: Set_args t args :: Set_kwargs t kwargs
            :: trc ++ [Get_new_thread (thread_label name); thread_log e; Release] /\
     Forall (fun a => kind a = K_connection) trc /\
     cfg_getitem name (_module_task_configs st) = inr cfg /\
     cfg_connect cfg = Some conns /\
     tasks st' !! t = Some (TaskObj c args kwargs conns None [] [] PyNone false false) /\
     Forall (fun rm => exists mo, module_manager st' !! rm.2 = Some mo /\
                                  module_active mo = true) conns).
Proof.
  intros H t. subst t. unfold _run_task in H.
  unfold with_thread_lock, finally in H.
  unfold mbind, M_bind, bind in H. unfold tell at 1 in H. unfold tell at 2 in H.
  destruct (_running_tasks st !! name) as [t0|] eqn:Hrun.
  { rewrite init_task_running in H by (rewrite Hrun; eauto). cbn in H.
    injection H as <- <- <-. left. split; [done|]. split; [done|]. left. eauto. }
  destruct (_configured_task_types st !! name) as [c|] eqn:Hcfg.
  2:{ rewrite init_task_unknown in H by done. cbn in H.
      injection H as <- <- <-. left. split; [done|]. split; [done|]. right. left. done. }
  destruct (init_raises c) as [e0|] eqn:Hinit.
  { rewrite (init_task_ctor_raises _ _ c e0) in H by done. cbn in H.
    injection H as <- <- <-. left. split; [done|]. split; [done|]. right. right. eauto. }
  rewrite (init_task_ok _ _ c) in H by done.
  destruct (is_Iterable args) eqn:Hargs.
  2:{ rewrite set_task_arguments_bad_args in H by done. cbn in H.
      injection H as <- <- <-. right. left. exists c. do 3 (split; [done|]).
      split; [by left|done]. }
  destruct (is_str_keyed_mapping kwargs) eqn:Hkw.
  2:{ rewrite set_task_arguments_bad_kwargs in H by done. cbn in H.
      injection H as <- <- <-. right. left. exists c. do 3 (split; [done|]).
      split; [by right|done]. }
  rewrite set_task_arguments_ok in H by done.
  match type of H with context [__activate_connect_task_modules name ?t ?s] =>
    set (s2 := s) in H;
    assert (tasks s2 !! t = Some (TaskObj c args kwargs [] None [] [] PyNone false false))
      as Hobj by (subst s2; cbn; rewrite !lookup_alter_eq, lookup_insert_eq; done);
    assert (_module_task_configs s2 = _module_task_configs st) as Hcfgs by done;
    assert (thread_manager s2 = thread_manager st) as Hths by done;
    clearbody s2;
    destruct (__activate_connect_task_modules name t s2) as [[o3 s3] tr3] eqn:E3
  end.
  destruct o3 as [[]|e3].
  2:{ cbn in H. injection H as <- <- <-.
      apply connect_failure_shape in E3 as (pre & -> & Hpre & Htasks).
      right. right. left. exists c, pre. do 2 (split; [done|]). split.
      { cbn. by rewrite <- !app_assoc. }
      split; [done|].
      rewrite Htasks, lookup_alter_eq. by rewrite Hobj. }
  eapply activate_connect_Return in E3
    as (cfg & conns & mm' & Hcfg' & Hconn & Htr3 & Hs3 & Hact); [|exact Hobj].
  subst s3.
  unfold __move_task_into_thread, get_new_thread, moveToThread in H.
  unfold __connect_task_signals, __start_task, thread_of, thread_start, sig_connect in H.
  unfold_M. cbn in H. rewrite Hths in H. fold (thread_label name) in H.
  destruct (thread_manager st !! thread_label name) eqn:Hth.
  2:{ cbn in H. discriminate. }
  cbn in H. injection H as <- <- <-.
  right. right. right. exists c, cfg, conns, tr3. do 2 (split; [done|]).
  split; [eauto|]. split; [done|]. split.
  { cbn. by rewrite <- !app_assoc. }
  split; [done|]. split; [by rewrite <- Hcfgs|]. split; [done|]. split; [|exact Hact].
  cbn. by rewrite lookup_insert_eq.
Qed.

(** X8: what a successful start leaves.  The name had no entry, its type is
    configured, the arguments are an iterable and a string-keyed mapping and
    no thread of the task's name was live; afterwards the name maps to a
    new instance that carries the arguments and lives in the started thread
    [ModuleTask-<name>], whose termination is connected to the runner; the
    configured types, the posted requests and the other entries, instances
    and threads are as before; and the one signal published is
    [sigTaskStarted(name)], last before the lock is released, after the
    entry is stored and the thread started. *)
Theorem start_success_postcondition name args kwargs st st' tr :
  _run_task name args kwargs st = (Return tt, st', tr) ->
  let t := next_ref st in
  (_running_tasks st !! name = None /\
   (exists c, _configured_task_types st !! name = Some c /\ init_raises c = None) /\
   is_Iterable args = true /\ is_str_keyed_mapping kwargs = true /\
   thread_manager st !! thread_label name = None) /\
  (_running_tasks st' = <[name := t]> (_running_tasks st) /\
   (exists c bound,
      _configured_task_types st !! name = Some c /\
      tasks st' = <[t := started_task c name args kwargs bound]> (tasks st)) /\
   thread_manager st' = <[thread_label name := started_thread name t]> (thread_manager st) /\
   _configured_task_types st' = _configured_task_types st /\
   posted st' = posted st /\ _sigStartTask st' = _sigStartTask st /\
   next_ref st' = S t) /\
  events tr = [Emit_sigTaskStarted name] /\
  (exists pre, tr = pre ++ [Running_store name t; Thread_start (thread_label name);
                            Emit_sigTaskStarted name; Release]).
Proof.
  intros H t.
  apply run_task_Return in H
    as (c & bound & mm' & trc & Hrun & Hc & Hi & Hargs & Hkw & Hth & -> & Htrc & ->).
  split; [eauto 10|]. split; [cbn; eauto 10|]. split.
  - change (events ([Acquire; New_task (class_name c) t; Set_args t args; Set_kwargs t kwargs]
                      ++ trc ++ started_trace name t ++ [Release])
            = [Emit_sigTaskStarted name]).
    unfold events. rewrite !of_kind_app. rewrite (of_kind_nil _ trc).
    2:{ eapply Forall_impl; [exact Htrc|]. cbn. by intros a [-> | [-> | ->]]. }
    reflexivity.
  - exists (Acquire :: New_task (class_name c) t :: Set_args t args :: Set_kwargs t kwargs
               :: trc ++
            [Get_new_thread (thread_label name);
             Move_to_thread t (thread_label name);
             Connect (Sig_thread_started (thread_label name)) (Slot_task_run t);
             Connect (Sig_thread_finished (thread_label name))
                     (Slot_thread_finished_callback name);
             Connect (Sig_task_sigFinished t) (Slot_task_finished_callback name);
             Connect (Sig_task_sigStateChanged t) (Slot_task_state_changed_callback name)]).
    cbn. do 4 f_equal. rewrite <- app_assoc. reflexivity.
Qed.

Lemma start_success_postcondition_witness :
  _running_tasks demo_running = <["echo" := 0]> (_running_tasks demo_activated) /\
  events (trace_of (exec Deliver_start demo_posted)) = [Emit_sigTaskStarted "echo"].
Proof.
  assert (_run_task "echo" (PyTuple [PyInt 42]) (PyDict [])
            (set_posted (fun _ => []) demo_posted) =
          (Return tt, demo_running, trace_of (exec Deliver_start demo_posted))) as H
    by (vm_compute; reflexivity).
  destruct (start_success_postcondition _ _ _ _ _ _ H) as (_ & (Hrun & _) & Hev & _).
  split; [exact Hrun|exact Hev].
Defined.

(** X9: a start that raises leaves the registry as it was.  The
    running-task mapping, the configured types, the live threads, the posted
    requests and the connections of the start signal are unchanged; nothing
    is published, no entry is stored and no thread is started; the lock,
    taken first, is released last; and exactly one record is logged, which
    carries the exception raised and names the step that failed:
    initialization, setting of arguments, modules connection or thread
    creation. *)
Theorem start_failure_frame name args kwargs st e st' tr :
  _run_task name args kwargs st = (Raise e, st', tr) ->
  (_running_tasks st' = _running_tasks st /\
   _configured_task_types st' = _configured_task_types st /\
   thread_manager st' = thread_manager st /\
   posted st' = posted st /\
   _sigStartTask st' = _sigStartTask st) /\
  events tr = [] /\
  Forall (fun a => forall n t, a <> Running_store n t) tr /\
  Forall (fun a => forall l, a <> Thread_start l) tr /\
  lock_bracketed tr /\
  (logs tr = [init_log name e] \/ logs tr = [args_log e] \/
   logs tr = [connect_log name e] \/ logs tr = [thread_log e]).
Proof.
  intros H. split; [|split].
  { apply run_task_Raise in H as (H1 & H2 & H3 & H4 & H5 & _). done. }
  { apply run_task_Raise in H as (_ & _ & _ & _ & _ & mid & -> & Hmid & _).
    unfold events. change (Acquire :: mid ++ [Release]) with ([Acquire] ++ mid ++ [Release]).
    rewrite !of_kind_app, (of_kind_nil _ mid); [done|].
    eapply Forall_impl; [exact Hmid|]. intros a Ha Hk. cbn beta in Ha. by rewrite Hk in Ha. }
  assert (lock_bracketed tr) as Hlock.
  { apply run_task_Raise in H as (_ & _ & _ & _ & _ & mid & -> & Hmid & _).
    exists mid. split; [done|]. eapply Forall_impl; [exact Hmid|].
    intros a Ha Hk. cbn beta in Ha. by rewrite Hk in Ha. }
  assert (forall (P : action -> Prop) pre (post : list action),
            (forall a, kind a = K_connection -> P a) -> Forall P post ->
            Forall (fun a => kind a = K_connection) pre -> Forall P (pre ++ post)) as Happ.
  { intros P pre post HP Hpost Hpre. apply Forall_app. split; [|done].
    eapply Forall_impl; [exact Hpre|]. exact HP. }
  apply run_task_Raise_phases in H
    as [(-> & -> & _)|[(c & _ & _ & -> & _)|[(c & pre & _ & _ & -> & Hpre & _)
       |(c & cfg & conns & trc & _ & _ & _ & _ & -> & Htrc & _)]]].
  - split; [by forall_kinds|]. split; [by forall_kinds|]. split; [done|]. by left.
  - split; [by forall_kinds|]. split; [by forall_kinds|]. split; [done|]. right. by left.
  - split; [|split; [|split; [done|]]].
    + do 4 (apply Forall_cons_2; [done|]). apply Happ; [by intros [] | by forall_kinds | done].
    + do 4 (apply Forall_cons_2; [done|]). apply Happ; [by intros [] | by forall_kinds | done].
    + right. right. left. unfold logs.
      change (?a :: ?b :: ?c :: ?d :: pre ++ ?l) with ([a; b; c; d] ++ pre ++ l).
      by rewrite !of_kind_app, (of_kind_other _ K_connection pre).
  - split; [|split; [|split; [done|]]].
    + do 4 (apply Forall_cons_2; [done|]). apply Happ; [by intros [] | by forall_kinds | done].
    + do 4 (apply Forall_cons_2; [done|]). apply Happ; [by intros [] | by forall_kinds | done].
    + right. right. right. unfold logs.
      change (?a :: ?b :: ?c :: ?d :: trc ++ ?l) with ([a; b; c; d] ++ trc ++ l).
      by rewrite !of_kind_app, (of_kind_other _ K_connection trc).
Qed.

Lemma start_failure_frame_witness :
  _running_tasks (state_of (_run_task "c" (PyTuple []) (PyDict []) demo_activated))
    = _running_tasks demo_activated /\
  logs (trace_of (_run_task "c" (PyTuple []) (PyDict []) demo_activated))
    = [connect_log "c" laser_error].
Proof.
  destruct (_run_task "c" (PyTuple []) (PyDict []) demo_activated) as [[o s'] tr] eqn:E.
  assert (o = Raise laser_error) as -> by (by vm_compute in E; injection E as <- _ _).
  destruct (start_failure_frame _ _ _ _ _ _ _ E) as ((Hrun & _) & _ & _ & _ & _ & Hlog).
  split; [exact Hrun|].
  assert (tr = trace_of (_run_task "c" (PyTuple []) (PyDict []) demo_activated)) as ->
    by (by rewrite E).
  vm_compute. reflexivity.
Defined.

(** X10: when no thread can be had for a task (one of the name
    [ModuleTask-<name>] is still live), the start fails with the
    [RuntimeError] of [__move_task_into_thread] after the modules were
    connected, and nothing releases them: the attempt performs no
    disconnection, the name gets no entry, and the instance that was made
    keeps every configured module bound, each of them active, without a
    thread of its own. *)
Theorem thread_failure_leaves_modules_bound name args kwargs st e st' tr :
  _run_task name args kwargs st = (Raise e, st', tr) ->
  Get_new_thread (thread_label name) ∈ tr ->
  e = thread_error name /\
  is_Some (thread_manager st !! thread_label name) /\
  of_kind K_release tr = [] /\
  _running_tasks st' !! name = None /\
  exists cfg conns obj,
    cfg_getitem name (_module_task_configs st) = inr cfg /\
    cfg_connect cfg = Some conns /\
    tasks st' !! next_ref st = Some obj /\
    task_connected_modules obj = conns /\
    task_thread obj = None /\
    Forall (fun rm => exists mo, module_manager st' !! rm.2 = Some mo /\
                                 module_active mo = true) conns.
Proof.
  intros H Hin.
  pose proof (run_task_Raise _ _ _ _ _ _ _ H) as (Hrun' & _).
  apply run_task_Raise_phases in H
    as [(-> & -> & _)|[(c & _ & _ & -> & _)|[(c & pre & _ & _ & -> & Hpre & _)
       |(c & cfg & conns & trc & Hrun & _ & Hth & -> & -> & Htrc & Hcfg & Hconn & Hobj & Hact)]]].
  - exfalso. repeat (apply elem_of_cons in Hin as [Hin|Hin]; [discriminate|]).
    by apply elem_of_nil in Hin.
  - exfalso. repeat (apply elem_of_cons in Hin as [Hin|Hin]; [discriminate|]).
    by apply elem_of_nil in Hin.
  - exfalso. do 4 (apply elem_of_cons in Hin as [Hin|Hin]; [discriminate|]).
    apply elem_of_app in Hin as [Hin|Hin].
    + eapply not_elem_of_kind; [|exact Hpre|exact Hin]. done.
    + repeat (apply elem_of_cons in Hin as [Hin|Hin]; [discriminate|]).
      by apply elem_of_nil in Hin.
  - split; [done|]. split; [done|]. split.
    { change (?a :: ?b :: ?c :: ?d :: trc ++ ?l) with ([a; b; c; d] ++ trc ++ l).
      by rewrite !of_kind_app, (of_kind_other _ K_connection trc). }
    split; [by rewrite Hrun'|].
    exists cfg, conns, (TaskObj c args kwargs conns None [] [] PyNone false false).
    done.
Qed.

Lemma thread_failure_leaves_modules_bound_witness :
  outcome_of (_run_task "echo" (PyTuple []) (PyDict []) demo_reactivated)
    = Raise (thread_error "echo") /\
  task_connected_modules <$>
    tasks (state_of (_run_task "echo" (PyTuple []) (PyDict []) demo_reactivated)) !! 1
    = Some [("cam", "camera")].
Proof.
  destruct (_run_task "echo" (PyTuple []) (PyDict []) demo_reactivated) as [[o s'] tr] eqn:E.
  assert (o = Raise (thread_error "echo")) as -> by (by vm_compute in E; injection E as <- _ _).
  assert (Get_new_thread (thread_label "echo") ∈ tr) as Hin.
  { assert (tr = trace_of (_run_task "echo" (PyTuple []) (PyDict []) demo_reactivated)) as ->
      by (by rewrite E).
    vm_compute. do 7 apply list_elem_of_further. apply list_elem_of_here. }
  destruct (thread_failure_leaves_modules_bound _ _ _ _ _ _ _ E Hin)
    as (_ & _ & _ & _ & cfg & conns & obj & Hcfg & Hconn & Hobj & Hbound & _).
  split; [reflexivity|].
  change (next_ref demo_reactivated) with 1 in Hobj.
  unfold state_of. cbn [fst snd]. rewrite Hobj. cbn. rewrite Hbound.
  vm_compute in Hcfg. injection Hcfg as <-. cbn in Hconn. by injection Hconn as <-.
Defined.

Lemma entry_types_alter f t s :
  (forall o, task_type (f o) = task_type o) ->
  entry_types s -> entry_types (set_tasks (alter f t) s).
Proof.
  intros Hf Hty n r obj Hn Hobj. cbn in *. destruct (decide (t = r)) as [->|Hne].
  - rewrite lookup_alter_eq in Hobj. destruct (tasks s !! r) as [o|] eqn:Ho; [|done].
    injection Hobj as <-. rewrite Hf. by eapply Hty.
  - rewrite lookup_alter_ne in Hobj by done. by eapply Hty.
Qed.

Lemma run_task_entry_types name args kwargs s :
  runner_inv s -> entry_types s -> entry_types (state_of (_run_task name args kwargs s)).
Proof.
  intros (Halloc & Hfresh & _ & _) Hty.
  destruct (_run_task name args kwargs s) as [[[[]|e] s'] tr] eqn:E; unfold state_of; cbn.
  - apply run_task_Return in E
      as (c & bound & mm' & trc & Hrun & Hc & _ & _ & _ & _ & _ & _ & ->).
    intros n t obj. cbn. destruct (decide (n = name)) as [->|Hne].
    + rewrite lookup_insert_eq. intros [= <-]. rewrite lookup_insert_eq. by intros [= <-].
    + rewrite lookup_insert_ne by done. intros Hn.
      rewrite lookup_insert_ne.
      2:{ intros <-. apply Halloc in Hn. apply Hfresh in Hn. lia. }
      by eapply Hty.
  - pose proof (run_task_Raise_store _ _ _ _ _ _ _ E) as [Hsame _].
    apply run_task_Raise in E as (Hrun & Hcfg & _).
    intros n t obj. rewrite Hrun, Hcfg. intros Hn. rewrite Hsame.
    2:{ intros ->. apply Halloc in Hn. apply Hfresh in Hn. lia. }
    by eapply Hty.
Qed.

Lemma task_finished_callback_entry_types name s :
  runner_inv s -> entry_types s -> entry_types (state_of (_task_finished_callback name s)).
Proof.
  intros _ Hty. pose proof (task_finished_callback_cases s name) as H.
  destruct (_running_tasks s !! name) as [t|] eqn:Hrun; [|by rewrite H].
  destruct (connections (Sig_task_sigFinished t) s); [by rewrite H|].
  destruct (connections (Sig_task_sigStateChanged t) s).
  { rewrite H. by apply entry_types_alter. }
  destruct H as (obj & Hobj & ->). unfold state_of. cbn [fst snd].
  intros n r o Hn Ho. cbn in *. destruct (decide (t = r)) as [->|Hne].
  - rewrite lookup_insert_eq in Ho. injection Ho as <-. cbn. by eapply Hty.
  - rewrite lookup_insert_ne in Ho by done. by eapply Hty.
Qed.

Lemma thread_finished_callback_entry_types name s :
  entry_types s -> entry_types (state_of (_thread_finished_callback name s)).
Proof.
  intros Hty.
  assert (state_of (_thread_finished_callback name s) = set_running_tasks (delete name) s)
    as ->.
  { unfold _thread_finished_callback. unfold_M. unfold state_of.
    by destruct (_running_tasks s !! name). }
  intros n r o Hn Ho. cbn in *. apply lookup_delete_Some in Hn as [_ Hn]. by eapply Hty.
Qed.

Lemma exec_entry_types r s :
  runner_inv s /\ entry_types s ->
  runner_inv (state_of (exec r s)) /\ entry_types (state_of (exec r s)).
Proof.
  intros [Hinv Hty]. split; [by apply exec_runner_inv|].
  destruct r as [name args kwargs|name| |t r ok|t st|t|label]; cbn [exec].
  - pose proof (run_task_cases name args kwargs s) as H.
    destruct (tuple args); [|destruct (dict kwargs)]; rewrite H; done.
  - pose proof (interrupt_task_cases s name) as H.
    destruct (_running_tasks s !! name); rewrite H; [|done].
    by apply entry_types_alter.
  - unfold deliver_start. unfold mbind, M_bind, bind, gets, modify.
    destruct (posted s) as [|[[name a] k] q]; [done|].
    pose proof (run_task_entry_types name (PyTuple a) (PyDict k)
                  (set_posted (fun _ => q) s) Hinv Hty) as H.
    by destruct (_run_task name (PyTuple a) (PyDict k) (set_posted (fun _ => q) s))
      as [[o s'] tr].
  - by apply entry_types_alter.
  - unfold task_sigStateChanged_emitted. unfold mbind, M_bind, bind, gets.
    match goal with |- context [for_each ?f ?l s] =>
      pose proof (for_each_inv entry_types f l) as H;
      destruct (for_each f l s) as [[o s'] tr] eqn:E
    end.
    unfold state_of in *. cbn. change s' with ((o, s', tr).1.2). rewrite <- E.
    apply H; [|done]. by intros [].
  - unfold task_sigFinished_emitted. unfold mbind, M_bind, bind, gets.
    match goal with |- context [for_each ?f ?l s] =>
      pose proof (for_each_inv (fun s => runner_inv s /\ entry_types s) f l) as H;
      destruct (for_each f l s) as [[o s'] tr] eqn:E
    end.
    unfold state_of in *. cbn. change s' with ((o, s', tr).1.2). rewrite <- E.
    apply H; [|done]. intros [] s0 [Hs0 Hs0']; try done.
    split; [by apply task_finished_callback_runner_inv
           |by apply task_finished_callback_entry_types].
  - unfold thread_finished_emitted. unfold mbind, M_bind, bind, gets, modify.
    match goal with |- context [for_each ?f ?l s] =>
      pose proof (for_each_inv entry_types f l) as H;
      destruct (for_each f l s) as [[o s'] tr] eqn:E
    end.
    assert (entry_types s') as Hty'.
    { change s' with ((o, s', tr).1.2). rewrite <- E. apply H; [|done].
      intros [] s0 Hs0; try done. by apply thread_finished_callback_entry_types. }
    unfold state_of. destruct o; cbn; done.
Qed.

Lemma reachable_entry_types imp cfgs mods s :
  reachable imp cfgs mods s -> runner_inv s /\ entry_types s.
Proof.
  induction 1 as [s tr H|s r _ IH]; [|by apply exec_entry_types].
  split; [by eapply reachable_runner_inv, reachable_activated|].
  apply on_activate_Return in H as (Hrun & _).
  intros n t obj. rewrite Hrun. by rewrite lookup_empty.
Qed.

#[local] Instance config_kept_preorder : PreOrder config_kept.
Proof. split; [by intros s|]. intros s1 s2 s3 H1 H2. unfold config_kept in *. congruence. Qed.

Ltac config_kept_step :=
  first [ preserves_step
        | lazymatch goal with
          | |- preserves config_kept (modify _) => apply preserves_modify; intros ?; reflexivity
          end ].

Lemma sig_connect_config_kept sg sl : preserves config_kept (sig_connect sg sl).
Proof. unfold sig_connect, update_task, update_thread. repeat config_kept_step. Qed.

Lemma sig_disconnect_config_kept sg : preserves config_kept (sig_disconnect sg).
Proof. unfold sig_disconnect, update_task, update_thread. repeat config_kept_step. Qed.

Lemma activate_targets_config_kept conns acc :
  preserves config_kept (activate_targets conns acc).
Proof.
  revert acc. induction conns as [|[conn_name module_name] rest IH]; intros acc;
    cbn [activate_targets]; [by repeat config_kept_step|].
  unfold get_module, activate. repeat config_kept_step. apply IH.
Qed.

Lemma run_task_config_kept name args kwargs :
  preserves config_kept (_run_task name args kwargs).
Proof.
  unfold _run_task, __init_task, instantiate, __set_task_arguments,
    __activate_connect_task_modules, connect_modules, disconnect_modules,
    __move_task_into_thread, get_new_thread, moveToThread, __connect_task_signals,
    __start_task, thread_of, thread_start, update_task, update_thread.
  repeat config_kept_step;
    try apply sig_connect_config_kept; try apply activate_targets_config_kept.
Qed.

Lemma exec_config_kept r : preserves config_kept (exec r).
Proof.
  destruct r; cbn [exec].
  - unfold run_task, emit_sigStartTask. repeat config_kept_step.
  - unfold interrupt_task, interrupt, update_task. repeat config_kept_step.
  - unfold deliver_start. repeat config_kept_step. apply run_task_config_kept.
  - unfold task_ran, update_task. repeat config_kept_step.
  - unfold task_sigStateChanged_emitted, _task_state_changed_callback.
    repeat config_kept_step.
  - unfold task_sigFinished_emitted, _task_finished_callback, disconnect_modules, thread_of,
      quit_thread, join_thread, update_task, update_thread.
    repeat config_kept_step; apply sig_disconnect_config_kept.
  - unfold thread_finished_emitted, _thread_finished_callback. repeat config_kept_step.
Qed.

(** While the runner is active its configuration and its table of task
    types are those of the activation. *)
Lemma reachable_configured imp cfgs mods s :
  reachable imp cfgs mods s ->
  _module_task_configs s = cfgs /\
  NoDup cfgs.*1 /\
  (forall name cls,
     _configured_task_types s !! name = Some cls <->
     exists cfg, (name, cfg) ∈ cfgs /\ resolve_task_type imp cfg = inr cls).
Proof.
  induction 1 as [s tr H|s r _ (IH1 & IH2 & IH3)].
  - rewrite on_activate_unfold in H.
    destruct (on_activate_loop imp _ _) as [[[[]|e] s1] tr1] eqn:E; [|done].
    apply on_activate_loop_Return in E as (Hnd & _ & -> & types' & -> & Hout & Hin).
    injection H as <- <-. cbn in *. split; [done|]. split; [done|].
    intros name cls. split.
    + intros Hcls. destruct (decide (name ∈ cfgs.*1)) as [Hname|Hname].
      * apply list_elem_of_fmap in Hname as ([n cfg] & -> & Hname). cbn in Hcls.
        destruct (Hin _ _ Hname) as (cls' & Hres & Hcls'). exists cfg. split; [done|].
        congruence.
      * rewrite (Hout _ Hname), lookup_empty in Hcls. done.
    + intros (cfg & Hname & Hres). destruct (Hin _ _ Hname) as (cls' & Hres' & Hcls').
      congruence.
  - split; [|split; [done|]].
    + rewrite <- IH1. apply exec_config_kept.
    + intros name cls. destruct (exec_registry_step r s) as [-> _]. apply IH3.
Qed.

(** X11: the running-task mapping of an activated runner is well formed,
    whatever was called and delivered since the activation: every entry
    refers to an allocated instance, which is of the type configured under
    the entry's name, a [ModuleTask] subclass, and lives in the thread
    [ModuleTask-<name>]; and no two names share an instance. *)
Theorem running_entries_well_formed imp cfgs mods s name t :
  reachable imp cfgs mods s ->
  _running_tasks s !! name = Some t ->
  (exists obj,
     tasks s !! t = Some obj /\
     _configured_task_types s !! name = Some (task_type obj) /\
     is_ModuleTask_subclass (task_type obj) = true /\
     task_thread obj = Some (thread_label name)) /\
  t < next_ref s /\
  (forall name', _running_tasks s !! name' = Some t -> name' = name).
Proof.
  intros Hreach Hrun.
  destruct (reachable_entry_types _ _ _ _ Hreach) as [(Halloc & Hfresh & Hthr & _) Hty].
  destruct (reachable_configured _ _ _ _ Hreach) as (_ & _ & Hcfg).
  destruct (Halloc _ _ Hrun) as [obj Hobj]. split; [|split].
  - exists obj. split; [done|]. split; [by eapply Hty|]. split; [|by eapply Hthr].
    pose proof (Hty _ _ _ Hrun Hobj) as Hc. apply Hcfg in Hc as (cfg & _ & Hres).
    by eapply resolve_task_type_verified.
  - apply Hfresh. eauto.
  - intros name' Hrun'. apply thread_label_inj.
    pose proof (Hthr _ _ _ Hrun Hobj) as H1. pose proof (Hthr _ _ _ Hrun' Hobj) as H2.
    congruence.
Qed.

Lemma running_entries_well_formed_witness :
  (exists obj,
     tasks demo_running !! 0 = Some obj /\
     _configured_task_types demo_running !! "echo" = Some (task_type obj) /\
     is_ModuleTask_subclass (task_type obj) = true /\
     task_thread obj = Some (thread_label "echo")) /\
  0 < next_ref demo_running /\
  (forall name', _running_tasks demo_running !! name' = Some 0 -> name' = "echo").
Proof.
  apply (running_entries_well_formed demo_import demo_configs demo_modules).
  - exact demo_running_reachable.
  - vm_compute. reflexivity.
Defined.

Lemma demo_torn_down_reachable :
  reachable demo_import demo_configs demo_modules demo_torn_down.
Proof. do 2 apply reachable_exec. exact demo_running_reachable. Qed.

Lemma finished_published_after_release_witness :
  exists obj,
    tasks demo_torn_down !! 0 = Some obj /\
    task_connected_modules obj = [] /\
    _thread_finished_callback "echo" demo_torn_down =
      (Return tt, set_running_tasks (delete "echo") demo_torn_down,
       [Acquire; Running_pop "echo" (Some 0);
        Emit_sigTaskFinished "echo" (task_result obj) (task_success obj); Release]).
Proof.
  apply (finished_published_after_release demo_import demo_configs demo_modules
           demo_torn_down "echo" 0 (ThreadObj [Slot_task_run 0]
                                              [Slot_thread_finished_callback "echo"]
                                              false true)).
  - exact demo_torn_down_reachable.
  - vm_compute. reflexivity.
  - vm_compute. reflexivity.
  - reflexivity.
Defined.

(** X19: while the runner is active the table of task types does not
    change.  In every state reached from an activation the configuration is
    the one activated with, its names are distinct, a name has the type
    [cls] exactly when one of its entries resolves to [cls], no request or
    delivery changes the table, and the [configured_task_types] property
    returns it without touching the runner. *)
Theorem configured_types_fixed_while_active imp cfgs mods s :
  reachable imp cfgs mods s ->
  _module_task_configs s = cfgs /\
  NoDup cfgs.*1 /\
  (forall name cls,
     _configured_task_types s !! name = Some cls <->
     exists cfg, (name, cfg) ∈ cfgs /\ resolve_task_type imp cfg = inr cls) /\
  (forall r, _configured_task_types (state_of (exec r s)) = _configured_task_types s) /\
  configured_task_types s = (Return (_configured_task_types s), s, []).
Proof.
  intros Hreach. destruct (reachable_configured _ _ _ _ Hreach) as (H1 & H2 & H3).
  do 3 (split; [done|]). split; [|done].
  intros r. by destruct (exec_registry_step r s) as [-> _].
Qed.

Lemma configured_types_fixed_while_active_witness :
  _module_task_configs demo_running = demo_configs /\
  _configured_task_types
    (state_of (exec (Thread_finished "ModuleTask-echo") demo_running))
    = _configured_task_types demo_running.
Proof.
  destruct (configured_types_fixed_while_active _ _ _ _ demo_running_reachable)
    as (H1 & _ & _ & H4 & _).
  split; [exact H1|apply H4].
Defined.

Lemma run_task_unknown st name args kwargs :
  _running_tasks st !! name = None ->
  _configured_task_types st !! name = None ->
  _run_task name args kwargs st =
    (Raise (Exn KeyError name), st, [Acquire; init_log name (Exn KeyError name); Release]).
Proof.
  intros H1 H2. unfold _run_task, with_thread_lock, finally, mbind, M_bind, bind, tell.
  rewrite init_task_unknown by done. reflexivity.
Qed.

Lemma set_posted_nil (s : state) : set_posted (fun q => q ++ []) s = s.
Proof. apply state_eq; cbn; try reflexivity. apply app_nil_r. Qed.

(** X13: [on_deactivate] calls nothing on the running tasks: the loop body
    is the attribute [task.interrupt], not a call, so whatever it does, every
    entry, instance and thread is as before and its only action is the
    [disconnect()] of the start signal.  When that signal has no connection
    -- the runner was never activated, or is deactivated a second time --
    the [disconnect()] raises [RuntimeError] and the table of task types is
    not emptied.  Otherwise, as after every successful [on_activate], it
    returns with the start signal disconnected and the table empty: a task
    that was running can still be interrupted by hand, [run_task] still
    returns normally for well-formed arguments but posts nothing, a request
    that was already queued is rejected when it is delivered, and a second
    [on_deactivate] raises. *)
Theorem on_deactivate_interrupts_nothing st :
  (_running_tasks (state_of (on_deactivate st)) = _running_tasks st /\
   tasks (state_of (on_deactivate st)) = tasks st /\
   thread_manager (state_of (on_deactivate st)) = thread_manager st /\
   posted (state_of (on_deactivate st)) = posted st /\
   trace_of (on_deactivate st) = [Disconnect Sig_sigStartTask]) /\
  (_sigStartTask st = [] ->
   on_deactivate st =
     (Raise (disconnect_error Sig_sigStartTask), st, [Disconnect Sig_sigStartTask])) /\
  (forall imp s0 tr, on_activate imp s0 = (Return tt, st, tr) -> _sigStartTask st <> []) /\
  (_sigStartTask st <> [] ->
   let st' := set_configured_task_types ∅ (set_sigStartTask [] st) in
   on_deactivate st = (Return tt, st', [Disconnect Sig_sigStartTask]) /\
   (forall name t, _running_tasks st !! name = Some t ->
      interrupt_task name st' =
        (Return tt, set_tasks (alter (with_interrupted true) t) st',
         [Acquire; Interrupt t; Release])) /\
   (forall name args kwargs a k,
      tuple args = inr a -> dict kwargs = inr k ->
      run_task name args kwargs st' =
        (Return tt, st', [Acquire; Emit_sigStartTask name a k; Release])) /\
   (forall name args kwargs,
      exists e, _run_task name args kwargs st' =
                  (Raise e, st', [Acquire; init_log name e; Release])) /\
   on_deactivate st' =
     (Raise (disconnect_error Sig_sigStartTask), st', [Disconnect Sig_sigStartTask])).
Proof.
  pose proof (on_deactivate_cases st) as Hd.
  split; [|split; [|split]].
  - destruct (_sigStartTask st); by rewrite Hd.
  - intros H. by rewrite H in Hd.
  - intros imp s0 tr H. apply on_activate_Return in H as (_ & -> & _).
    by destruct (_sigStartTask s0).
  - intros Hconn st'. destruct (_sigStartTask st) as [|c l] eqn:Hc; [done|].
    split; [exact Hd|]. split; [|split; [|split]].
    + intros name t Hrun. pose proof (interrupt_task_cases st' name) as H.
      change (_running_tasks st') with (_running_tasks st) in H. by rewrite Hrun in H.
    + intros name args kwargs a k Ha Hk.
      pose proof (run_task_cases name args kwargs st') as H.
      rewrite Ha, Hk in H. rewrite H. change (_sigStartTask st') with (@nil slot).
      cbn [map]. by rewrite set_posted_nil.
    + intros name args kwargs. destruct (_running_tasks st !! name) as [t|] eqn:Hrun.
      * exists (already_initialized name). apply run_task_running.
        change (_running_tasks st') with (_running_tasks st). rewrite Hrun. eauto.
      * exists (Exn KeyError name). by apply run_task_unknown.
    + exact (on_deactivate_cases st').
Qed.

Lemma on_deactivate_interrupts_nothing_witness :
  on_deactivate demo_running =
    (Return tt, set_configured_task_types ∅ (set_sigStartTask [] demo_running),
     [Disconnect Sig_sigStartTask]) /\
  run_task "c" (PyList []) (PyDict [])
    (set_configured_task_types ∅ (set_sigStartTask [] demo_running)) =
    (Return tt, set_configured_task_types ∅ (set_sigStartTask [] demo_running),
     [Acquire; Emit_sigStartTask "c" [] []; Release]) /\
  on_deactivate (init_state demo_configs demo_modules) =
    (Raise (disconnect_error Sig_sigStartTask), init_state demo_configs demo_modules,
     [Disconnect Sig_sigStartTask]).
Proof.
  assert (_sigStartTask demo_running <> []) as Hc by (vm_compute; done).
  destruct (on_deactivate_interrupts_nothing demo_running) as (_ & _ & _ & H).
  destruct (H Hc) as (H1 & _ & H3 & _).
  split; [exact H1|]. split; [apply H3; reflexivity|].
  apply (proj1 (proj2 (on_deactivate_interrupts_nothing
                         (init_state demo_configs demo_modules)))).
  reflexivity.
Defined.

Lemma task_finished_callback_stale st name :
  _running_tasks st !! name = None ->
  _task_finished_callback name st = (Return tt, st, [Acquire; Release]).
Proof. intros H. unfold _task_finished_callback. unfold_M. by rewrite H. Qed.

(** A loop whose body leaves the state alone leaves the state alone. *)
Lemma for_each_unchanged {A} (Q : action -> Prop) (f : A -> M unit) (l : list A) s :
  (forall x, exists tr, f x s = (Return tt, s, tr) /\ Forall Q tr) ->
  exists tr, for_each f l s = (Return tt, s, tr) /\ Forall Q tr.
Proof.
  intros Hf. induction l as [|x l (tr & IH & Htr)]; [by exists []|].
  destruct (Hf x) as (tr0 & Hx & Htr0). exists (tr0 ++ tr).
  cbn [for_each]. unfold_M. rewrite Hx, IH. split; [done|]. by apply Forall_app.
Qed.

(** X14: [on_activate] starts from an empty running-task mapping, whatever
    was running.  When it is called on a runner that has running tasks and
    succeeds, their instances and threads are still there but the runner no
    longer knows them: they cannot be interrupted, and when such a task or
    its thread finishes, the callbacks find no entry, so that nothing is
    disconnected, no thread is asked to quit and no finished event is
    published for it. *)
Theorem on_activate_forgets_running_tasks imp st st' tr :
  on_activate imp st = (Return tt, st', tr) ->
  _running_tasks st' = ∅ /\ tasks st' = tasks st /\ thread_manager st' = thread_manager st /\
  (forall name, interrupt_task name st' = (Raise (not_running name), st', [Acquire; Release])) /\
  (forall t, exists tr',
     task_sigFinished_emitted t st' = (Return tt, st', tr') /\
     Forall (fun a => kind a = K_lock) tr') /\
  (forall label, exists tr',
     thread_finished_emitted label st' =
       (Return tt, set_thread_manager (delete label) st', tr') /\
     events tr' = []).
Proof.
  intros H. pose proof (on_activate_Return _ _ _ _ H) as (Hrun & _).
  assert (tasks st' = tasks st /\ thread_manager st' = thread_manager st) as [Htasks Hths].
  { rewrite on_activate_unfold in H.
    destruct (on_activate_loop imp _ _) as [[[[]|e] s1] tr1] eqn:E; [|done].
    apply on_activate_loop_Return in E as (_ & _ & _ & types' & -> & _).
    by injection H as <- <-. }
  do 3 (split; [done|]). split; [|split].
  - intros name. pose proof (interrupt_task_cases st' name) as Hi.
    by rewrite Hrun, lookup_empty in Hi.
  - intros t. unfold task_sigFinished_emitted. unfold mbind at 1, M_bind, bind, gets.
    match goal with |- context [for_each ?f ?l st'] =>
      destruct (for_each_unchanged (fun a => kind a = K_lock) f l st') as (tr' & -> & Htr')
    end.
    + intros [| |name|name|name]; try (by exists []).
      exists [Acquire; Release]. split; [|by forall_kinds].
      apply task_finished_callback_stale. by rewrite Hrun, lookup_empty.
    + exists tr'. split; [|done]. reflexivity.
  - intros label. unfold thread_finished_emitted.
    unfold mbind at 1, M_bind, bind, gets. unfold mbind, M_bind, bind, modify.
    match goal with |- context [for_each ?f ?l st'] =>
      destruct (for_each_unchanged (fun a => kind a <> K_event) f l st') as (tr' & -> & Htr')
    end.
    + intros [| |name|name|name]; try (by exists []).
      exists [Acquire; Running_pop name None; Release]. split; [|by forall_kinds].
      apply thread_finished_callback_stale. by rewrite Hrun, lookup_empty.
    + exists tr'. split; [by rewrite app_nil_r|]. by apply of_kind_nil.
Qed.

Lemma on_activate_forgets_running_tasks_witness :
  _running_tasks demo_reactivated = ∅ /\
  tasks demo_reactivated = tasks demo_running /\
  interrupt_task "echo" demo_reactivated =
    (Raise (not_running "echo"), demo_reactivated, [Acquire; Release]).
Proof.
  assert (on_activate demo_import demo_running =
            (Return tt, demo_reactivated, trace_of (on_activate demo_import demo_running))) as H
    by (vm_compute; reflexivity).
  destruct (on_activate_forgets_running_tasks _ _ _ _ H) as (H1 & H2 & _ & H4 & _).
  split; [exact H1|]. split; [exact H2|apply H4].
Defined.

(** The loop of [on_activate] reads nothing of the runner but the table it
    fills. *)
Lemma on_activate_loop_indep imp items s s2 :
  _configured_task_types s2 = _configured_task_types s ->
  outcome_of (on_activate_loop imp items s2) = outcome_of (on_activate_loop imp items s) /\
  _configured_task_types (state_of (on_activate_loop imp items s2)) =
    _configured_task_types (state_of (on_activate_loop imp items s)).
Proof.
  revert s s2. induction items as [|[name cfg] rest IH]; intros s s2 Heq; [done|].
  rewrite !on_activate_loop_cons, Heq. case_bool_decide; [done|].
  destruct (resolve_task_type imp cfg) as [e|task]; [done|]. by apply IH.
Qed.

Lemma on_activate_loop_app imp pre rest s s' tr :
  on_activate_loop imp pre s = (Return tt, s', tr) ->
  on_activate_loop imp (pre ++ rest) s = on_activate_loop imp rest s'.
Proof.
  revert s. induction pre as [|[name cfg] pre IH]; intros s H.
  - cbn in H. by injection H as <- _.
  - rewrite <- app_comm_cons. rewrite on_activate_loop_cons in *.
    case_bool_decide; [done|]. destruct (resolve_task_type imp cfg) as [e|task]; [done|].
    by apply IH.
Qed.

(** X15: [on_activate] stops at the first entry it cannot accept.  When the
    entries before it are accepted, an entry whose name was seen already
    fails with the duplicate-name [KeyError], and otherwise one that does
    not resolve fails with the error of its resolution; the entries after
    it are not looked at; the types accepted so far stay in the table; and
    the start signal is not connected. *)
Theorem on_activate_stops_at_first_failure imp mods pre name cfg post s1 tr1 :
  on_activate imp (init_state pre mods) = (Return tt, s1, tr1) ->
  let r := on_activate imp (init_state (pre ++ (name, cfg) :: post) mods) in
  (name ∈ pre.*1 -> outcome_of r = Raise (duplicate_name_error name)) /\
  (name ∉ pre.*1 -> forall e, resolve_task_type imp cfg = inl e -> outcome_of r = Raise e) /\
  (name ∈ pre.*1 \/ (exists e, resolve_task_type imp cfg = inl e) ->
   _configured_task_types (state_of r) = _configured_task_types s1 /\
   _sigStartTask (state_of r) = [] /\
   trace_of r = []).
Proof.
  intros H r. subst r. rewrite on_activate_unfold in H. rewrite on_activate_unfold.
  cbn [_module_task_configs init_state] in *.
  set (s0 := set_configured_task_types ∅ (set_running_tasks (fun _ => ∅) (init_state pre mods)))
    in H.
  set (s0' := set_configured_task_types ∅
                (set_running_tasks (fun _ => ∅) (init_state (pre ++ (name, cfg) :: post) mods))).
  destruct (on_activate_loop_indep imp pre s0 s0' eq_refl) as [Hout Hty].
  destruct (on_activate_loop imp pre s0) as [[[[]|e1] s1'] tr1'] eqn:E1; [|done].
  injection H as <- <-.
  destruct (on_activate_loop imp pre s0') as [[o2 s2] tr2] eqn:E2.
  unfold outcome_of, state_of in Hout, Hty. cbn in Hout, Hty. subst o2.
  rewrite (on_activate_loop_app _ _ _ _ _ _ E2), on_activate_loop_cons.
  apply on_activate_loop_Return in E2 as (_ & _ & _ & types' & -> & Hnot & Hin).
  cbn in Hty. cbn [_configured_task_types set_configured_task_types].
  assert (is_Some (types' !! name) <-> name ∈ pre.*1) as Hdup.
  { split.
    - intros Hs. destruct (decide (name ∈ pre.*1)) as [|Hn]; [done|].
      rewrite (Hnot _ Hn) in Hs. cbn in Hs. rewrite lookup_empty in Hs. by destruct Hs.
    - intros ([n c] & -> & Hn)%list_elem_of_fmap.
      destruct (Hin _ _ Hn) as (cls & _ & Hcls). cbn. rewrite Hcls. eauto. }
  split; [|split].
  - intros Hn. rewrite bool_decide_true by (by apply Hdup). done.
  - intros Hn e He. rewrite bool_decide_false by (by rewrite Hdup). by rewrite He.
  - intros Hfail. case_bool_decide as Hd.
    + cbn. by rewrite Hty.
    + destruct Hfail as [Hn|[e He]]; [by apply Hdup in Hn|].
      rewrite He. cbn. by rewrite Hty.
Qed.

Lemma on_activate_stops_at_first_failure_witness :
  outcome_of (on_activate demo_import (init_state demo_helper_configs ∅))
    = Raise not_a_ModuleTask_error /\
  _configured_task_types
    (state_of (on_activate demo_import (init_state demo_helper_configs ∅)))
    = {["echo" := Echo]}.
Proof.
  assert (on_activate demo_import
            (init_state [("echo", TaskCfg (Some "tasks.echo.Echo") (Some []))] ∅) =
          (Return tt,
           state_of (on_activate demo_import
                       (init_state [("echo", TaskCfg (Some "tasks.echo.Echo") (Some []))] ∅)),
           [Connect Sig_sigStartTask Slot_run_task])) as H by (vm_compute; reflexivity).
  destruct (on_activate_stops_at_first_failure demo_import ∅ _ "helper"
              (TaskCfg (Some "tasks.util.Helper") (Some [])) [] _ _ H) as (_ & H2 & H3).
  split.
  - apply H2; [|reflexivity]. cbn. apply not_elem_of_cons. split; [done|apply not_elem_of_nil].
  - destruct H3 as (H3 & _); [right; by eexists|].
    etrans; [exact H3|]. vm_compute. reflexivity.
Defined.

Lemma rsplit_dot_None s : rsplit_dot s = None <-> has_dot s = false.
Proof.
  induction s as [|c s IH]; [done|]. cbn.
  destruct (rsplit_dot s) as [[pre post]|].
  - split; [done|]. intros [_ H]%orb_false_iff. apply IH in H. done.
  - case_bool_decide; cbn; [done|]. by rewrite <- IH.
Qed.

Lemma rsplit_dot_app m c :
  has_dot c = false -> rsplit_dot (m +:+ "." +:+ c) = Some (m, c).
Proof.
  intros Hc. induction m as [|a m IH].
  - change (rsplit_dot (String "." c) = Some (EmptyString, c)). cbn [rsplit_dot].
    apply rsplit_dot_None in Hc. by rewrite Hc.
  - change (rsplit_dot (String a (m +:+ "." +:+ c)) = Some (String a m, c)).
    cbn [rsplit_dot]. by rewrite IH.
Qed.

Lemma rsplit_dot_Some s m c :
  rsplit_dot s = Some (m, c) -> s = m +:+ "." +:+ c /\ has_dot c = false.
Proof.
  revert m. induction s as [|a s IH]; intros m H; [done|]. cbn in H.
  destruct (rsplit_dot s) as [[pre post]|] eqn:E.
  - injection H as <- <-. destruct (IH _ eq_refl) as [-> Hc]. done.
  - case_bool_decide as Ha; [|done]. injection H as <- <-. subst a.
    split; [done|]. by apply rsplit_dot_None.
Qed.

(** X16: how [on_activate] reads the ['module.Class'] option of an entry.
    An entry without the option fails with [KeyError('module.Class')]; a
    path without a dot fails with the [ValueError] of the unpacking; a path
    is split at its last dot, so that the class name is what follows it and
    the module what precedes it, dots included; what the import raises is
    raised; a class that is not a [ModuleTask] subclass is a [TypeError];
    anything else is registered under the entry's name. *)
Theorem on_activate_resolves_dotted_path imp mods name cfg :
  let r := on_activate imp (init_state [(name, cfg)] mods) in
  match cfg_module_Class cfg with
  | None => outcome_of r = Raise (Exn KeyError "module.Class")
  | Some path =>
      (has_dot path = false -> outcome_of r = Raise unpack_error) /\
      (has_dot path = true ->
       exists m c, path = m +:+ "." +:+ c /\ has_dot c = false) /\
      (forall m c, path = m +:+ "." +:+ c -> has_dot c = false ->
         match imp m c with
         | inl e => outcome_of r = Raise e
         | inr task =>
             if is_ModuleTask_subclass task
             then outcome_of r = Return tt /\
                  _configured_task_types (state_of r) = {[name := task]}
             else outcome_of r = Raise not_a_ModuleTask_error
         end)
  end.
Proof.
  intros r. subst r. rewrite on_activate_unfold. cbn [_module_task_configs init_state].
  rewrite on_activate_loop_cons.
  cbn [_configured_task_types set_configured_task_types].
  rewrite bool_decide_false by (rewrite lookup_empty; by intros [? ?]).
  unfold resolve_task_type, unpack_rsplit.
  destruct (cfg_module_Class cfg) as [path|]; cbn [getitem_opt]; [|done].
  split; [|split].
  - intros Hd. apply rsplit_dot_None in Hd. by rewrite Hd.
  - intros Hd. destruct (rsplit_dot path) as [[m c]|] eqn:E.
    + apply rsplit_dot_Some in E. eauto.
    + apply rsplit_dot_None in E. congruence.
  - intros m c -> Hc. rewrite (rsplit_dot_app m c Hc). cbn [fst snd].
    destruct (imp m c) as [e|task]; [done|].
    destruct (is_ModuleTask_subclass task); [|done]. done.
Qed.

Lemma on_activate_resolves_dotted_path_witness :
  outcome_of (on_activate demo_import
                (init_state [("echo", TaskCfg (Some "tasks.echo.Echo") None)] ∅))
    = Return tt /\
  outcome_of (on_activate demo_import (init_state [("echo", TaskCfg (Some "Echo") None)] ∅))
    = Raise unpack_error.
Proof.
  split.
  - pose proof (on_activate_resolves_dotted_path demo_import ∅ "echo"
                  (TaskCfg (Some "tasks.echo.Echo") None)) as H.
    cbn [cfg_module_Class] in H. destruct H as (_ & _ & H).
    specialize (H "tasks.echo" "Echo" eq_refl eq_refl). apply H.
  - pose proof (on_activate_resolves_dotted_path demo_import ∅ "echo"
                  (TaskCfg (Some "Echo") None)) as H.
    cbn [cfg_module_Class] in H. destruct H as (H & _). by apply H.
Defined.

(** X17: tasks of different names do not interfere.  On an activated
    runner, starting, interrupting, tearing down or removing the task of
    one name leaves the entry of every other name, the instance behind it
    and its thread exactly as they were. *)
Theorem other_names_are_untouched imp cfgs mods s name name' args kwargs :
  reachable imp cfgs mods s ->
  name <> name' ->
  untouched name' s (state_of (_run_task name args kwargs s)) /\
  untouched name' s (state_of (interrupt_task name s)) /\
  untouched name' s (state_of (_task_finished_callback name s)) /\
  untouched name' s (state_of (_thread_finished_callback name s)).
Proof.
  intros Hreach Hne.
  destruct (reachable_runner_inv _ _ _ _ Hreach) as (Halloc & Hfresh & Hthr & _).
  assert (forall t t', _running_tasks s !! name = Some t ->
                       _running_tasks s !! name' = Some t' -> t <> t') as Hdist.
  { intros t t' Ht Ht' <-. destruct (Halloc _ _ Ht) as [obj Hobj].
    pose proof (Hthr _ _ _ Ht Hobj) as H1. pose proof (Hthr _ _ _ Ht' Hobj) as H2.
    apply Hne, thread_label_inj. congruence. }
  assert (thread_label name <> thread_label name') as Hlabel
    by (by intros ?%thread_label_inj).
  split; [|split; [|split]].
  - destruct (_run_task name args kwargs s) as [[[[]|e] s'] tr] eqn:E; unfold state_of; cbn.
    + apply run_task_Return in E as (c & bound & mm' & trc & _ & _ & _ & _ & _ & _ & _ & _ & ->).
      split; [|split]; cbn.
      * by rewrite lookup_insert_ne.
      * intros t' Ht'. rewrite lookup_insert_ne; [done|].
        intros <-. apply Halloc in Ht'. apply Hfresh in Ht'. lia.
      * by rewrite lookup_insert_ne.
    + pose proof (run_task_Raise_store _ _ _ _ _ _ _ E) as [Hsame _].
      apply run_task_Raise in E as (Hrun & _ & Hth & _).
      split; [by rewrite Hrun|]. split; [|by rewrite Hth].
      intros t' Ht'. apply Hsame. intros ->. apply Halloc in Ht'. apply Hfresh in Ht'. lia.
  - pose proof (interrupt_task_cases s name) as H.
    destruct (_running_tasks s !! name) as [t|] eqn:Hrun; rewrite H; [|done].
    split; [done|]. split; [|done]. intros t' Ht'. cbn.
    rewrite lookup_alter_ne; [done|]. by apply Hdist.
  - pose proof (task_finished_callback_cases s name) as H.
    destruct (_running_tasks s !! name) as [t|] eqn:Hrun; [|by rewrite H].
    destruct (connections (Sig_task_sigFinished t) s); [by rewrite H|].
    destruct (connections (Sig_task_sigStateChanged t) s).
    { rewrite H. split; [done|]. split; [|done]. intros t' Ht'. cbn.
      rewrite lookup_alter_ne; [done|]. by apply Hdist. }
    destruct H as (obj & Hobj & ->). unfold state_of. cbn [fst snd].
    rewrite (Hthr _ _ _ Hrun Hobj). cbn [default].
    split; [done|]. split; cbn.
    + intros t' Ht'. rewrite lookup_insert_ne; [done|]. by apply Hdist.
    + by rewrite lookup_alter_ne.
  - assert (state_of (_thread_finished_callback name s) = set_running_tasks (delete name) s)
      as ->.
    { unfold _thread_finished_callback. unfold_M. unfold state_of.
      by destruct (_running_tasks s !! name). }
    split; [|done]. cbn. by rewrite lookup_delete_ne.
Qed.

Lemma other_names_are_untouched_witness :
  untouched "echo" demo_running
    (state_of (_run_task "c" (PyTuple []) (PyDict []) demo_running)) /\
  untouched "c" demo_running (state_of (_thread_finished_callback "echo" demo_running)).
Proof.
  assert ("c" <> "echo") as H1 by done. assert ("echo" <> "c") as H2 by done.
  destruct (other_names_are_untouched demo_import demo_configs demo_modules demo_running
              "c" "echo" (PyTuple []) (PyDict []) demo_running_reachable H1) as (Ha & _).
  destruct (other_names_are_untouched demo_import demo_configs demo_modules demo_running
              "echo" "c" (PyTuple []) (PyDict []) demo_running_reachable H2)
    as (_ & _ & _ & Hb).
  split; [exact Ha|exact Hb].
Defined.

Lemma task_finished_callback_running name s :
  _running_tasks (state_of (_task_finished_callback name s)) = _running_tasks s.
Proof.
  pose proof (task_finished_callback_cases s name) as H.
  destruct (_running_tasks s !! name) as [t|] eqn:Hrun; [|by rewrite H].
  destruct (connections (Sig_task_sigFinished t) s); [by rewrite H|].
  destruct (connections (Sig_task_sigStateChanged t) s); [by rewrite H|].
  by destruct H as (obj & _ & ->).
Qed.

(** X18: the names that the [running_tasks] property reports (read as a
    set), over all operations of the runner.  Reading the property takes
    and releases the lock and changes nothing.  A name is added only by a
    [_run_task] that succeeds, and it was not reported before; a name is
    removed only by the termination callback of its thread and by
    [on_activate], which empties the mapping whether it succeeds or not;
    every other operation, a failed start included, leaves the reported
    names as they are. *)
Theorem running_tasks_tracks_lifecycle imp st op :
  running_tasks st = (Return (dom (_running_tasks st)), st, [Acquire; Release]) /\
  outcome_of (running_tasks (state_of (perform imp op st))) =
    Return (match op, outcome_of (perform imp op st) with
            | Op_on_activate, _ => ∅
            | Op__run_task name _ _, Return _ => {[name]} ∪ dom (_running_tasks st)
            | Op__thread_finished_callback name, _ => dom (_running_tasks st) ∖ {[name]}
            | _, _ => dom (_running_tasks st)
            end) /\
  (forall name args kwargs,
     op = Op__run_task name args kwargs ->
     outcome_of (perform imp op st) = Return tt ->
     name ∉ dom (_running_tasks st)).
Proof.
  assert (forall s, running_tasks s = (Return (dom (_running_tasks s)), s, [Acquire; Release]))
    as Hget by done.
  split; [done|]. split.
  - rewrite Hget. unfold outcome_of at 1. cbn [fst]. f_equal.
    destruct op as [| | | |name args kwargs|name|name args kwargs|name|name|s name];
      cbn [perform].
    + destruct (on_activate_frame imp st) as (-> & _). by rewrite dom_empty_L.
    + pose proof (on_deactivate_cases st) as H.
      destruct (_sigStartTask st); by rewrite H.
    + done.
    + done.
    + pose proof (run_task_cases name args kwargs st) as H.
      destruct (tuple args); [|destruct (dict kwargs)]; by rewrite H.
    + pose proof (interrupt_task_cases st name) as H.
      destruct (_running_tasks st !! name); by rewrite H.
    + destruct (_run_task name args kwargs st) as [[[[]|e] s'] tr] eqn:E;
        unfold state_of, outcome_of; cbn [fst snd].
      * apply run_task_Return in E
          as (c & bound & mm' & trc & _ & _ & _ & _ & _ & _ & _ & _ & ->).
        cbn. by rewrite dom_insert_L.
      * apply run_task_Raise in E as (-> & _). done.
    + rewrite task_finished_callback_running.
      by destruct (outcome_of (_task_finished_callback name st)).
    + rewrite thread_finished_callback_cases. unfold state_of, outcome_of. cbn.
      by rewrite dom_delete_L.
    + done.
  - intros name args kwargs -> H. cbn [perform] in H.
    destruct (_run_task name args kwargs st) as [[[[]|e] s'] tr] eqn:E; [|done].
    apply run_task_Return in E as (c & bound & mm' & trc & Hrun & _).
    by apply not_elem_of_dom.
Qed.

Lemma running_tasks_tracks_lifecycle_witness :
  ("echo" ∉ dom (_running_tasks (set_posted (fun _ => []) demo_posted))) /\
  outcome_of (running_tasks (state_of (on_activate demo_import demo_running))) = Return ∅.
Proof.
  split.
  - destruct (running_tasks_tracks_lifecycle demo_import
                (set_posted (fun _ => []) demo_posted)
                (Op__run_task "echo" (PyTuple [PyInt 42]) (PyDict []))) as (_ & _ & H3).
    apply (H3 "echo" (PyTuple [PyInt 42]) (PyDict []) eq_refl).
    vm_compute. reflexivity.
  - destruct (running_tasks_tracks_lifecycle demo_import demo_running Op_on_activate)
      as (_ & H2 & _).
    exact H2.
Defined.
